(** * organizeMe: the project scanner and the Git status enricher

    A shallow embedding of [src/lib/project-scanner.ts],
    [src/lib/git-utils.ts] and the part of [src/lib/tag-storage.ts] that
    the scanner calls, together with the properties of the scan and
    classification pipeline.

    Conventions of the embedding.
    - A JavaScript string is the list of its UTF-16 code units.
    - An [async] function is a computation in the monad [Eff]: it reads
      the wall clock (every [new Date()] is one reading) and it either
      returns a value or throws (a rejected promise).
    - The file system, the [simple-git] library and the built-ins that
      depend on Unicode tables or on parsing are oracles, collected in
      the record [Host]. *)

From Stdlib Require Import QArith.
From Stdlib Require Import Ascii String.
From Stdlib Require DecimalString.
From stdpp Require Import base option list gmap sorting.

Local Open Scope Z_scope.

(** ** JavaScript values *)

Module Js.

(** A string: its UTF-16 code units. *)
Definition jsstring : Type := list N.

(** The code units of an ASCII literal. *)
Definition lit (s : string) : jsstring :=
  map N_of_ascii (list_ascii_of_string s).

(** What a [throw] carries: an [Error] object with its message, or any
    other value. *)
Inductive thrown : Type :=
  | ErrorObj (message : jsstring)
  | NonError.

(** [error instanceof Error ? error.message : 'Unknown error'] *)
Definition errorMessage (e : thrown) : jsstring :=
  match e with
  | ErrorObj m => m
  | NonError => lit "Unknown error"
  end.

(** The way a call ends. *)
Inductive outcome (A : Type) : Type :=
  | Returned (a : A)
  | Threw (e : thrown).
Arguments Returned {A} a.
Arguments Threw {A} e.

(** A [Date]: a time value in milliseconds since the epoch, or the
    invalid date, whose time value is NaN. *)
Inductive Date : Type :=
  | ValidDate (ms : Z)
  | InvalidDate.

(** A number as the status code uses it: differences and quotients of
    time values.  The quotient by the milliseconds of a day is kept
    exact; the two comparisons made on it (with 7 and with 30) give the
    same answer on the rounded double, the thresholds being integers
    and the time values whole milliseconds. *)
Inductive number : Type :=
  | Finite (q : Q)
  | NaN.

Definition getTime (d : Date) : number :=
  match d with
  | ValidDate ms => Finite (inject_Z ms)
  | InvalidDate => NaN
  end.

Definition num_sub (a b : number) : number :=
  match a, b with
  | Finite x, Finite y => Finite (x - y)
  | _, _ => NaN
  end.

Definition num_div (a b : number) : number :=
  match a, b with
  | Finite x, Finite y => Finite (x / y)
  | _, _ => NaN
  end.

(** [a <= b]; false when either side is NaN. *)
Definition num_le (a b : number) : bool :=
  match a, b with
  | Finite x, Finite y => Qle_bool x y
  | _, _ => false
  end.

(** [a > b]; false when either side is NaN. *)
Definition num_gt (a b : number) : bool :=
  match a, b with
  | Finite x, Finite y => negb (Qle_bool x y)
  | _, _ => false
  end.

Definition num_of_Z (z : Z) : number := Finite (inject_Z z).

(** The wall clock: the readings that successive [new Date()] calls
    obtain.  No order is imposed on the readings, so that a statement
    for every clock covers every interleaving of the callbacks of a
    [Promise.all]. *)
Record Clock : Type := mkClock {
  tick : nat;
  readingAt : nat -> Z
}.

Definition reading (c : Clock) : Z := readingAt c (tick c).

Definition advance (c : Clock) : Clock :=
  {| tick := S (tick c); readingAt := readingAt c |}.

(** The clock that shows [t] at every reading. *)
Definition frozenAt (t : Z) : Clock := {| tick := 0; readingAt := fun _ => t |}.

(** Computations: they read the clock and return or throw. *)
Definition Eff (A : Type) : Type := Clock -> outcome A * Clock.

Definition ret {A} (a : A) : Eff A := fun c => (Returned a, c).

Definition throw {A} (e : thrown) : Eff A := fun c => (Threw e, c).

Definition bind {A B} (m : Eff A) (k : A -> Eff B) : Eff B :=
  fun c =>
    match m c with
    | (Returned a, c') => k a c'
    | (Threw e, c') => (Threw e, c')
    end.

(** [try { body } catch (error) { handler }] *)
Definition try_catch {A} (body : Eff A) (handler : thrown -> Eff A) : Eff A :=
  fun c =>
    match body c with
    | (Returned a, c') => (Returned a, c')
    | (Threw e, c') => handler e c'
    end.

(** The result of an oracle, awaited. *)
Definition await {A} (o : outcome A) : Eff A := fun c => (o, c).

(** [new Date()] *)
Definition new_Date : Eff Date :=
  fun c => (Returned (ValidDate (reading c)), advance c).

(** [Promise.all(xs.map(f))]: the results in the order of [xs].  The
    callbacks run here one after the other, which is one of the orders
    in which they can complete; the statements on a pass say of a
    reading of a callback only that it is made during the pass. *)
Fixpoint Promise_all_map {A B} (f : A -> Eff B) (xs : list A) : Eff (list B) :=
  match xs with
  | [] => ret []
  | x :: rest =>
      bind (f x) (fun y =>
      bind (Promise_all_map f rest) (fun ys =>
      ret (y :: ys)))
  end.

End Js.

Export Js.

Declare Scope eff_scope.
Delimit Scope eff_scope with eff.
Notation "x <- m ;; k" := (bind m (fun x => k))
  (at level 100, m at next level, right associativity) : eff_scope.

(** ** [types/project.ts] *)

Inductive ProjectStatus : Type :=
  | active | stale | clean | dirty | unknown.

Record GitInfo : Type := mkGitInfo {
  branch : jsstring;
  isDirty : bool;
  uncommittedChanges : nat;
  aheadBy : Z;
  behindBy : Z;
  lastCommitDate : option Date;
  lastCommitMessage : option jsstring
}.

Record Project : Type := mkProject {
  id : jsstring;
  name : jsstring;
  path : jsstring;
  description : option jsstring;
  status : ProjectStatus;
  lastModified : Date;
  hasPackageJson : bool;
  hasReadme : bool;
  gitInfo : option GitInfo;
  tags : list jsstring
}.

(** ** The host: file system, [simple-git], built-ins *)

(** [fs.Stats], as far as it is read. *)
Record Stats : Type := mkStats {
  stats_isDirectory : bool;
  mtime : Date
}.

(** [fs.Dirent], as far as it is read. *)
Record Dirent : Type := mkDirent {
  dirent_name : jsstring;
  dirent_isDirectory : bool
}.

(** [StatusResult] of [simple-git], as far as it is read;
    [files_length] is [status.files.length]. *)
Record StatusResult : Type := mkStatusResult {
  current : option jsstring;
  isClean : bool;
  files_length : nat;
  ahead : Z;
  behind : Z
}.

(** An entry of [LogResult]. *)
Record LogEntry : Type := mkLogEntry {
  date : jsstring;
  message : jsstring
}.

(** [RemoteWithRefs] of [simple-git]. *)
Record RemoteWithRefs : Type := mkRemote {
  remote_name : jsstring;
  refs_fetch : jsstring;
  refs_push : jsstring
}.

Record Host : Type := mkHost {
  (** [fs/promises] *)
  fs_stat : jsstring -> outcome Stats;
  fs_readdir : jsstring -> outcome (list Dirent);
  fs_access : jsstring -> outcome ();
  fs_readFile : jsstring -> outcome jsstring;
  (** [path.join] and [os.homedir] *)
  path_join : jsstring -> jsstring -> jsstring;
  os_homedir : jsstring;
  (** [simpleGit(dir)] and the methods of the instance it returns *)
  git_open : jsstring -> outcome ();
  git_checkIsRepo : jsstring -> outcome bool;
  git_status : jsstring -> outcome StatusResult;
  git_log_latest : jsstring -> outcome (option LogEntry);
  git_getRemotes : jsstring -> outcome (list RemoteWithRefs);
  (** [String.prototype.toLowerCase] *)
  String_toLowerCase : jsstring -> jsstring;
  (** [new Date(s)] for a date string *)
  Date_parse : jsstring -> Date;
  (** [JSON.parse(content).description], for the manifest *)
  JSON_parse_description : jsstring -> outcome (option jsstring);
  (** [JSON.parse(content) as ProjectTagsData], for the tag file *)
  JSON_parse_tags : jsstring -> outcome (gmap jsstring (list jsstring))
}.

(** ** String helpers of the run time *)

Module JsString.

(** [s.length > 0]: a string is truthy when it is not empty. *)
Definition truthy (s : jsstring) : bool :=
  match s with
  | [] => false
  | _ :: _ => true
  end.

(** The rest of [s] after the prefix [p], when [s] starts with [p]. *)
Fixpoint stripPrefix (p s : jsstring) : option jsstring :=
  match p, s with
  | [], _ => Some s
  | a :: p', b :: s' => if (a =? b)%N then stripPrefix p' s' else None
  | _ :: _, [] => None
  end.

(** [s.startsWith(p)] *)
Definition startsWith (s p : jsstring) : bool :=
  match stripPrefix p s with
  | Some _ => true
  | None => false
  end.

(** [s] without the suffix [p], when [s] ends with [p]. *)
Definition stripSuffix (p s : jsstring) : option jsstring :=
  match stripPrefix (rev p) (rev s) with
  | Some r => Some (rev r)
  | None => None
  end.

(** The longest prefix of [s] without the code unit [u], and the rest. *)
Fixpoint splitAt (u : N) (s : jsstring) : jsstring * jsstring :=
  match s with
  | [] => ([], [])
  | a :: s' =>
      if (a =? u)%N then ([], s)
      else let '(before, after) := splitAt u s' in (a :: before, after)
  end.

(** [s.slice(0, n)] for [0 <= n] *)
Definition slice0 (n : N) (s : jsstring) : jsstring := take (N.to_nat n) s.

(** [s.length] *)
Definition jslength (s : jsstring) : N := N.of_nat (length s).

End JsString.

(** ** [git-utils.ts] *)

Module GitUtils.

Import JsString.
Local Open Scope eff_scope.

(** [GetGitStatusResult]: [{ gitInfo }] or [{ error }] *)
Inductive GetGitStatusResult : Type :=
  | GitStatusResult (gitInfo : GitInfo)
  | GitStatusError (error : jsstring).

(** [GitRemoteUrlResult]: [url] is [None] for [null]. *)
Record GitRemoteUrlResult : Type := mkRemoteUrl {
  url : option jsstring;
  error : option jsstring
}.

(** [1000 * 60 * 60 * 24] *)
Definition MS_PER_DAY : Z := 1000 * 60 * 60 * 24.

(** [(now.getTime() - d.getTime()) / (1000 * 60 * 60 * 24)] *)
Definition daysSince (now d : Date) : number :=
  num_div (num_sub (getTime now) (getTime d)) (num_of_Z MS_PER_DAY).

Definition determineProjectStatus (gitInfo : option GitInfo) (lastModified : Date)
  : Eff ProjectStatus :=
  match gitInfo with
  | Some gitInfo =>
      if isDirty gitInfo then ret dirty
      else
        (* a Date object is truthy, also the invalid one *)
        let referenceDate := default lastModified (lastCommitDate gitInfo) in
        now <- new_Date ;;
        let daysSinceActivity := daysSince now referenceDate in
        if num_le daysSinceActivity (num_of_Z 7) then ret active
        else if num_gt daysSinceActivity (num_of_Z 30) then ret stale
        else ret clean
  | None =>
      now <- new_Date ;;
      let daysSinceModified := daysSince now lastModified in
      if num_le daysSinceModified (num_of_Z 7) then ret active
      else if num_gt daysSinceModified (num_of_Z 30) then ret stale
      else ret unknown
  end.

(** [.replace(/^git@([^:]+):/, 'https://$1/')]: the class [[^:]] holds no
    colon, so the group is the text up to the first colon, and it must
    not be empty. *)
Definition replaceSshPrefix (remoteUrl : jsstring) : jsstring :=
  match stripPrefix (lit "git@") remoteUrl with
  | Some rest =>
      match splitAt 58 rest with
      | ((_ :: _) as host, _ :: after) => lit "https://" ++ host ++ lit "/" ++ after
      | _ => remoteUrl
      end
  | None => remoteUrl
  end.

(** [.replace(/\.git$/, '')] *)
Definition removeGitSuffix (remoteUrl : jsstring) : jsstring :=
  match stripSuffix (lit ".git") remoteUrl with
  | Some r => r
  | None => remoteUrl
  end.

(** The rewriting of the fetch URL in [getGitRemoteUrl]. *)
Definition normalizeRemoteUrl (remoteUrl : jsstring) : jsstring :=
  if startsWith remoteUrl (lit "git@") then
    removeGitSuffix (replaceSshPrefix remoteUrl)
  else if startsWith remoteUrl (lit "https://") || startsWith remoteUrl (lit "http://") then
    removeGitSuffix remoteUrl
  else remoteUrl.

(** [remotes.find(r => r.name === 'origin') || remotes[0]] *)
Definition originOrFirst (remotes : list RemoteWithRefs) : option RemoteWithRefs :=
  match List.find (fun r => bool_decide (remote_name r = lit "origin")) remotes with
  | Some r => Some r
  | None => head remotes
  end.

Section WithHost.

Variable h : Host.

Definition getGitStatus (projectPath : jsstring) : Eff GetGitStatusResult :=
  try_catch
    (_ <- await (git_open h projectPath) ;;
     isRepo <- await (git_checkIsRepo h projectPath) ;;
     if negb isRepo then ret (GitStatusError (lit "Not a Git repository"))
     else
       (* Promise.all([git.status(), git.log({ maxCount: 1 })]) *)
       status <- await (git_status h projectPath) ;;
       lastCommit <- await (git_log_latest h projectPath) ;;
       let lastCommitDate :=
         match lastCommit with
         | Some entry =>
             if truthy (date entry) then Some (Date_parse h (date entry)) else None
         | None => None
         end in
       let lastCommitMessage := message <$> lastCommit in
       ret (GitStatusResult
              {| branch :=
                   match current status with
                   | Some b => if truthy b then b else lit "HEAD"
                   | None => lit "HEAD"
                   end;
                 isDirty := negb (isClean status);
                 uncommittedChanges := files_length status;
                 aheadBy := ahead status;
                 behindBy := behind status;
                 lastCommitDate := lastCommitDate;
                 lastCommitMessage := lastCommitMessage |}))
    (fun error =>
       ret (GitStatusError (lit "Failed to get Git status: " ++ errorMessage error))).

(** [{ ...project, gitInfo, status }] *)
Definition withGitInfo (project : Project) (g : GitInfo) (s : ProjectStatus) : Project :=
  {| id := id project;
     name := name project;
     path := path project;
     description := description project;
     status := s;
     lastModified := lastModified project;
     hasPackageJson := hasPackageJson project;
     hasReadme := hasReadme project;
     gitInfo := Some g;
     tags := tags project |}.

(** The callback of [projects.map] in [enrichProjectsWithGitInfo]. *)
Definition enrichProject (project : Project) : Eff Project :=
  result <- getGitStatus (path project) ;;
  match result with
  | GitStatusResult g =>
      (* determineProjectStatus(result.gitInfo, new Date()) *)
      argument <- new_Date ;;
      status <- determineProjectStatus (Some g) argument ;;
      ret (withGitInfo project g status)
  | GitStatusError _ => ret project
  end.

Definition enrichProjectsWithGitInfo (projects : list Project) : Eff (list Project) :=
  Promise_all_map enrichProject projects.

Definition getGitRemoteUrl (projectPath : jsstring) : Eff GitRemoteUrlResult :=
  try_catch
    (_ <- await (git_open h projectPath) ;;
     isRepo <- await (git_checkIsRepo h projectPath) ;;
     if negb isRepo then
       ret {| url := None; error := Some (lit "Not a Git repository") |}
     else
       remotes <- await (git_getRemotes h projectPath) ;;
       match originOrFirst remotes with
       | Some origin =>
           if truthy (refs_fetch origin) then
             ret {| url := Some (normalizeRemoteUrl (refs_fetch origin)); error := None |}
           else ret {| url := None; error := Some (lit "No remote found") |}
       | None => ret {| url := None; error := Some (lit "No remote found") |}
       end)
    (fun e =>
       ret {| url := None;
              error := Some (lit "Failed to get remote URL: " ++ errorMessage e) |}).

End WithHost.

End GitUtils.

(** ** [tag-storage.ts], as far as the scanner calls it *)

Module TagStorage.

Local Open Scope eff_scope.

Section WithHost.

Variable h : Host.

Definition CONFIG_DIR : jsstring := path_join h (os_homedir h) (lit ".organizeme").

Definition TAGS_FILE : jsstring := path_join h CONFIG_DIR (lit "project-tags.json").

(** Every failure of the read or of the parse gives the empty object. *)
Definition loadProjectTags : Eff (gmap jsstring (list jsstring)) :=
  try_catch
    (content <- await (fs_readFile h TAGS_FILE) ;;
     await (JSON_parse_tags h content))
    (fun _ => ret ∅).

(** [allTags[projectId] || []] *)
Definition getProjectTags (projectId : jsstring) : Eff (list jsstring) :=
  allTags <- loadProjectTags ;;
  ret (default [] (allTags !! projectId)).

End WithHost.

End TagStorage.

(** ** [project-scanner.ts] *)

Module ProjectScanner.

Import JsString.
Local Open Scope eff_scope.

Definition IGNORED_DIRECTORIES : gset jsstring :=
  list_to_set
    [ lit "node_modules"; lit ".git"; lit ".next"; lit ".cache"; lit ".pnpm";
      lit "dist"; lit "build"; lit "coverage"; lit "__pycache__"; lit ".venv";
      lit "venv"; lit ".idea"; lit ".vscode" ].

(** [ProjectScanResult | ProjectScanError] *)
Inductive ScanResult : Type :=
  | ProjectScanResult (project : Project)
  | ProjectScanError (error : jsstring) (path : jsstring).

(** [ScanOptions]; a field that is not given is [None]. *)
Record ScanOptions : Type := mkScanOptions {
  maxDepth : option N;
  includeHidden : option bool
}.

(** [options = {}] *)
Definition noOptions : ScanOptions := {| maxDepth := None; includeHidden := None |}.

Definition projectIndicators : list jsstring :=
  [ lit "package.json"; lit ".git"; lit "README.md"; lit "README.txt";
    lit "README"; lit "pyproject.toml"; lit "Cargo.toml"; lit "go.mod";
    lit "pom.xml"; lit "build.gradle"; lit "Makefile" ].

Definition README_FILES : list jsstring :=
  [ lit "README.md"; lit "README.txt"; lit "README"; lit "readme.md";
    lit "Readme.md" ].

Definition MAX_README_LENGTH : N := 50000.

(** The text added to a shortened README: two line feeds and
    [... (truncated)]. *)
Definition TRUNCATED_SUFFIX : jsstring := [10%N; 10%N] ++ lit "... (truncated)".

(** *** [createProjectId] *)

Definition DASH : N := 45.

(** A code unit in the class [[a-z0-9-_]]. *)
Definition isIdUnit (u : N) : bool :=
  ((97 <=? u) && (u <=? 122) || (48 <=? u) && (u <=? 57)
   || (u =? 45) || (u =? 95))%N.

(** [.replace(/[^a-z0-9-_]/g, '-')] *)
Definition replaceOthers (s : jsstring) : jsstring :=
  map (fun u => if isIdUnit u then u else DASH) s.

(** [.replace(/-+/g, '-')]: of a run of dashes the last one stays. *)
Fixpoint collapseDashes (s : jsstring) : jsstring :=
  match s with
  | [] => []
  | u :: rest =>
      match rest with
      | v :: _ =>
          if (u =? DASH)%N && (v =? DASH)%N then collapseDashes rest
          else u :: collapseDashes rest
      | [] => [u]
      end
  end.

(** The match of [-$]: a dash that ends the string. *)
Fixpoint removeLastDash (s : jsstring) : jsstring :=
  match s with
  | [] => []
  | u :: rest =>
      match rest with
      | [] => if (u =? DASH)%N then [] else [u]
      | _ :: _ => u :: removeLastDash rest
      end
  end.

(** [.replace(/^-|-$/g, '')]: the match of [^-] comes first and the
    search for [-$] goes on after it. *)
Definition trimDashes (s : jsstring) : jsstring :=
  match s with
  | u :: rest => if (u =? DASH)%N then removeLastDash rest else removeLastDash s
  | [] => []
  end.

(** No dash is followed by a dash. *)
Fixpoint noDashPair (s : jsstring) : Prop :=
  match s with
  | [] => True
  | u :: rest =>
      match rest with
      | v :: _ => ~ (u = DASH /\ v = DASH) /\ noDashPair rest
      | [] => True
      end
  end.

(** The first code unit, if any, is not a dash. *)
Definition headNotDash (s : jsstring) : Prop :=
  match s with
  | u :: _ => u <> DASH
  | [] => True
  end.

Section Slug.

Variable toLowerCase : jsstring -> jsstring.

Definition createProjectId (name : jsstring) : jsstring :=
  trimDashes (collapseDashes (replaceOthers (toLowerCase name))).

End Slug.

(** [toLowerCase] on a code unit below 128. *)
Definition lowerAscii (u : N) : N :=
  if ((65 <=? u) && (u <=? 90))%N then (u + 32)%N else u.

(** What the language guarantees of [toLowerCase] on a string of ASCII
    code units; the rest of its table is left open. *)
Definition lowersAscii (toLowerCase : jsstring -> jsstring) : Prop :=
  forall s : jsstring, Forall (fun u => (u < 128)%N) s -> toLowerCase s = map lowerAscii s.

Section WithHost.

Variable h : Host.

Definition join := path_join h.

Definition fileExists (filePath : jsstring) : Eff bool :=
  try_catch
    (_ <- await (fs_access h filePath) ;; ret true)
    (fun _ => ret false).

Definition isProjectDirectory (dirPath : jsstring) : Eff bool :=
  checks <- Promise_all_map (fun indicator => fileExists (join dirPath indicator))
              projectIndicators ;;
  ret (existsb (fun exists_ => exists_) checks).

Definition determineInitialStatus (lastModified : Date) : Eff ProjectStatus :=
  now <- new_Date ;;
  let daysSinceModified := GitUtils.daysSince now lastModified in
  if num_le daysSinceModified (num_of_Z 7) then ret active
  else if num_le daysSinceModified (num_of_Z 30) then ret unknown
  else ret stale.

Definition getProjectDescription (dirPath : jsstring) : Eff (option jsstring) :=
  let packageJsonPath := join dirPath (lit "package.json") in
  try_catch
    (hasPackageJson <- fileExists packageJsonPath ;;
     if negb hasPackageJson then ret None
     else
       content <- await (fs_readFile h packageJsonPath) ;;
       await (JSON_parse_description h content))
    (fun _ => ret None).

Definition scanProject (dirPath name : jsstring) : Eff Project :=
  stats <- await (fs_stat h dirPath) ;;
  let projectId := createProjectId (String_toLowerCase h) name in
  readmeChecks <- Promise_all_map fileExists
                    [ join dirPath (lit "README.md");
                      join dirPath (lit "README.txt");
                      join dirPath (lit "README") ] ;;
  let hasReadmeFile := existsb (fun exists_ => exists_) readmeChecks in
  hasPackageJson <- fileExists (join dirPath (lit "package.json")) ;;
  description <- getProjectDescription dirPath ;;
  tags <- TagStorage.getProjectTags h projectId ;;
  status <- determineInitialStatus (mtime stats) ;;
  ret {| id := projectId;
         name := name;
         path := dirPath;
         description := description;
         status := status;
         lastModified := mtime stats;
         hasPackageJson := hasPackageJson;
         hasReadme := hasReadmeFile;
         gitInfo := None;
         tags := tags |}.

(** [project.status = s] *)
Definition setStatus (project : Project) (s : ProjectStatus) : Project :=
  {| id := id project;
     name := name project;
     path := path project;
     description := description project;
     status := s;
     lastModified := lastModified project;
     hasPackageJson := hasPackageJson project;
     hasReadme := hasReadme project;
     gitInfo := gitInfo project;
     tags := tags project |}.

(** The predicate of [entries.filter]. *)
Definition keepEntry (includeHidden : bool) (entry : Dirent) : bool :=
  if negb (dirent_isDirectory entry) then false
  else if bool_decide (dirent_name entry ∈ IGNORED_DIRECTORIES) then false
  else if negb includeHidden && startsWith (dirent_name entry) (lit ".") then false
  else true.

(** The callback of [directories.map]. *)
Definition scanEntry (projectsPath : jsstring) (dir : Dirent) : Eff ScanResult :=
  let fullPath := join projectsPath (dirent_name dir) in
  try_catch
    (isProject <- isProjectDirectory fullPath ;;
     if negb isProject then
       project <- scanProject fullPath (dirent_name dir) ;;
       ret (ProjectScanResult (setStatus project unknown))
     else
       project <- scanProject fullPath (dirent_name dir) ;;
       ret (ProjectScanResult project))
    (fun error =>
       ret (ProjectScanError
              (lit "Failed to scan project: " ++ errorMessage error) fullPath)).

Definition scanDirectory (projectsPath : jsstring) (options : ScanOptions)
  : Eff (list ScanResult) :=
  let includeHidden := default false (includeHidden options) in
  (* [Some results]: the block returned [results] *)
  checked <-
    try_catch
      (stats <- await (fs_stat h projectsPath) ;;
       if negb (stats_isDirectory stats) then
         ret (Some [ProjectScanError
                      (lit "Path is not a directory: " ++ projectsPath) projectsPath])
       else ret None)
      (fun error =>
         ret (Some [ProjectScanError
                      (lit "Cannot access directory: " ++ errorMessage error)
                      projectsPath])) ;;
  match checked with
  | Some results => ret results
  | None =>
      listing <-
        try_catch
          (entries <- await (fs_readdir h projectsPath) ;; ret (inr entries))
          (fun error =>
             ret (inl [ProjectScanError
                         (lit "Failed to read directory: " ++ errorMessage error)
                         projectsPath])) ;;
      match listing with
      | inl results => ret results
      | inr entries =>
          let directories := List.filter (keepEntry includeHidden) entries in
          Promise_all_map (scanEntry projectsPath) directories
      end
  end.

(** [results.filter('project' in r).map(r => r.project)] *)
Definition filterSuccessfulScans (results : list ScanResult) : list Project :=
  omap (fun r => match r with
                 | ProjectScanResult p => Some p
                 | ProjectScanError _ _ => None
                 end) results.

(** [results.filter('error' in r)], as pairs of message and path *)
Definition filterScanErrors (results : list ScanResult) : list (jsstring * jsstring) :=
  omap (fun r => match r with
                 | ProjectScanResult _ => None
                 | ProjectScanError e p => Some (e, p)
                 end) results.

(** The body of the [try] in the loop of [getReadmeContent]:
    [Some content] when it returned, [None] when the loop goes on. *)
Definition tryReadme (projectPath fileName : jsstring) : Eff (option jsstring) :=
  try_catch
    (let filePath := join projectPath fileName in
     exists_ <- fileExists filePath ;;
     if exists_ then
       content <- await (fs_readFile h filePath) ;;
       if (MAX_README_LENGTH <? jslength content)%N then
         ret (Some (slice0 MAX_README_LENGTH content ++ TRUNCATED_SUFFIX))
       else ret (Some content)
     else ret None)
    (fun _ => ret None).

(** [for (const fileName of files) { ... } return null] *)
Fixpoint readmeLoop (projectPath : jsstring) (files : list jsstring)
  : Eff (option jsstring) :=
  match files with
  | [] => ret None
  | fileName :: rest =>
      found <- tryReadme projectPath fileName ;;
      match found with
      | Some content => ret (Some content)
      | None => readmeLoop projectPath rest
      end
  end.

Definition getReadmeContent (projectPath : jsstring) : Eff (option jsstring) :=
  readmeLoop projectPath README_FILES.

End WithHost.

End ProjectScanner.

(** ** The classification rule as section 4.2 of the specification words it *)

Module Spec.

(** [(now - d) / 86400 s], in days; there is none for an invalid date. *)
Definition daysSince (now d : Date) : option Q :=
  match now, d with
  | ValidDate n, ValidDate t => Some (inject_Z (n - t) / inject_Z (86400 * 1000))%Q
  | _, _ => None
  end.

(** [daysSince <= 7 -> active; daysSince > 30 -> stale; otherwise -> other] *)
Definition byRecency (days : option Q) (other : ProjectStatus) : ProjectStatus :=
  match days with
  | Some d =>
      if Qle_bool d (inject_Z 7) then active
      else if negb (Qle_bool d (inject_Z 30)) then stale
      else other
  | None => other
  end.

Definition classify (repoInfo : option GitInfo) (lastModified now : Date)
  : ProjectStatus :=
  match repoInfo with
  | None => byRecency (daysSince now lastModified) unknown
  | Some info =>
      if isDirty info then dirty
      else
        let reference :=
          match lastCommitDate info with
          | Some lastCommitAt => lastCommitAt
          | None => lastModified
          end in
        byRecency (daysSince now reference) clean
  end.

(** The id as the specification words it: the name lowercased, every run
    of code units that are not alphanumeric collapsed to one dash, and
    the dashes at both ends trimmed. *)
Definition isAlphanumeric (u : N) : bool :=
  ((97 <=? u) && (u <=? 122) || (48 <=? u) && (u <=? 57))%N.

(** [inRun]: the code unit before was not alphanumeric. *)
Fixpoint collapseRuns (inRun : bool) (s : jsstring) : jsstring :=
  match s with
  | [] => []
  | u :: rest =>
      if isAlphanumeric u then u :: collapseRuns false rest
      else if inRun then collapseRuns true rest
      else 45%N :: collapseRuns true rest
  end.

Fixpoint dropLeadingDashes (s : jsstring) : jsstring :=
  match s with
  | u :: rest => if (u =? 45)%N then dropLeadingDashes rest else s
  | [] => []
  end.

Fixpoint dropTrailingDashes (s : jsstring) : jsstring :=
  match s with
  | [] => []
  | u :: rest =>
      match dropTrailingDashes rest with
      | [] => if (u =? 45)%N then [] else [u]
      | kept => u :: kept
      end
  end.

Definition slug (toLowerCase : jsstring -> jsstring) (name : jsstring) : jsstring :=
  dropTrailingDashes (dropLeadingDashes (collapseRuns false (toLowerCase name))).

End Spec.

(** ** Notions used in the statements *)

Module Notions.

Import JsString GitUtils ProjectScanner.

(** [access] succeeds on the path. *)
Definition accessible (h : Host) (filePath : jsstring) : bool :=
  match fs_access h filePath with
  | Returned _ => true
  | Threw _ => false
  end.

(** None of the indicator files is found in the directory. *)
Definition noIndicator (h : Host) (dirPath : jsstring) : Prop :=
  Forall (fun indicator => accessible h (path_join h dirPath indicator) = false)
         projectIndicators.

(** The path a scan result is about. *)
Definition resultPath (r : ScanResult) : jsstring :=
  match r with
  | ProjectScanResult p => path p
  | ProjectScanError _ p => p
  end.

(** What the scan of the entry [dir] of [root] gives: an error with the
    path of the entry when [stat] throws on it, and otherwise a record
    of the entry, whose status is unknown when no indicator is found. *)
Definition scannedAs (h : Host) (root : jsstring) (dir : Dirent) (r : ScanResult) : Prop :=
  let fullPath := path_join h root (dirent_name dir) in
  match fs_stat h fullPath with
  | Threw e =>
      r = ProjectScanError (lit "Failed to scan project: " ++ errorMessage e) fullPath
  | Returned stats =>
      exists p, r = ProjectScanResult p
                /\ name p = dirent_name dir
                /\ path p = fullPath
                /\ id p = createProjectId (String_toLowerCase h) (dirent_name dir)
                /\ lastModified p = mtime stats
                /\ gitInfo p = None
                /\ (noIndicator h fullPath -> status p = unknown)
  end.

(** The root is a directory that can be listed, with these entries. *)
Definition rootListed (h : Host) (root : jsstring) (entries : list Dirent) : Prop :=
  (exists stats, fs_stat h root = Returned stats /\ stats_isDirectory stats = true)
  /\ fs_readdir h root = Returned entries.

(** The names of [IGNORED_DIRECTORIES], as the source lists them. *)
Definition ignoredNames : list jsstring :=
  [ lit "node_modules"; lit ".git"; lit ".next"; lit ".cache"; lit ".pnpm";
    lit "dist"; lit "build"; lit "coverage"; lit "__pycache__"; lit ".venv";
    lit "venv"; lit ".idea"; lit ".vscode" ].

(** [stat] succeeds on the path. *)
Definition statSucceeds (h : Host) (p : jsstring) : bool :=
  match fs_stat h p with
  | Returned _ => true
  | Threw _ => false
  end.

(** The error of the scan of an entry, when [stat] throws on it. *)
Definition entryError (h : Host) (root : jsstring) (dir : Dirent)
  : option (jsstring * jsstring) :=
  let fullPath := path_join h root (dirent_name dir) in
  match fs_stat h fullPath with
  | Threw e => Some (lit "Failed to scan project: " ++ errorMessage e, fullPath)
  | Returned _ => None
  end.

(** A README text as it is returned: shortened when it has more than
    50000 code units. *)
Definition shortened (content : jsstring) : jsstring :=
  if (50000 <? jslength content)%N then
    slice0 50000 content ++ 10%N :: 10%N :: lit "... (truncated)"
  else content.

(** What the file of that name gives to [getReadmeContent]: its text
    when it is found and read, nothing when it is not found or the
    reading throws. *)
Definition readmeFrom (h : Host) (projectPath fileName : jsstring) : option jsstring :=
  if accessible h (path_join h projectPath fileName) then
    match fs_readFile h (path_join h projectPath fileName) with
    | Returned content => Some (shortened content)
    | Threw _ => None
    end
  else None.

(** The first of the README names that is found in the directory. *)
Definition firstExisting (h : Host) (projectPath : jsstring) : option jsstring :=
  List.find (fun n => accessible h (path_join h projectPath n)) README_FILES.

(** The result is the text of the first README name that is found, as
    C10 words it, and [null] when none is found. *)
Definition returnsFirstExisting (h : Host) (projectPath : jsstring)
           (r : option jsstring) : Prop :=
  match firstExisting h projectPath with
  | Some n =>
      exists content,
        fs_readFile h (path_join h projectPath n) = Returned content
        /\ r = Some (shortened content)
  | None => r = None
  end.

(** [getGitStatus] resolves to [r] on the path, whatever the clock. *)
Definition getStatusReturns (h : Host) (projectPath : jsstring) (r : GetGitStatusResult)
  : Prop :=
  forall c : Clock, getGitStatus h projectPath c = (Returned r, c).

(** A call of [simple-git] throws during [getGitStatus]. *)
Definition introspectionThrows (h : Host) (projectPath : jsstring) (e : thrown) : Prop :=
  git_open h projectPath = Threw e
  \/ (git_open h projectPath = Returned ()
      /\ (git_checkIsRepo h projectPath = Threw e
          \/ (git_checkIsRepo h projectPath = Returned true
              /\ (git_status h projectPath = Threw e
                  \/ (exists st, git_status h projectPath = Returned st
                                 /\ git_log_latest h projectPath = Threw e))))).

(** The path is confirmed not to be a repository. *)
Definition notARepository (h : Host) (projectPath : jsstring) : Prop :=
  git_open h projectPath = Returned () /\ git_checkIsRepo h projectPath = Returned false.

(** The reading of the clock [c] is not changed, and [c'] is not before [c]. *)
Definition laterClock (c c' : Clock) : Prop :=
  readingAt c' = readingAt c /\ (tick c <= tick c')%nat.

End Notions.

(** ** Example hosts *)

Module Examples.

Import JsString GitUtils ProjectScanner.

(** An instant, in milliseconds since the epoch. *)
Definition NOW : Z := 1700000000000.

Definition DAYS (n : Z) : Z := n * MS_PER_DAY.

Definition isPath (p : jsstring) (s : string) : bool := bool_decide (p = lit s).

Definition noEntry : thrown := ErrorObj (lit "ENOENT: no such file or directory").

Definition denied : thrown := ErrorObj (lit "EACCES: permission denied").

Definition cleanMain : StatusResult :=
  {| current := Some (lit "main"); isClean := true; files_length := 0;
     ahead := 0; behind := 0 |}.

Definition oneCommit : option LogEntry :=
  Some {| date := lit "2023-11-12T22:13:20.000Z"; message := lit "first commit" |}.

(** A host from its file system and its repositories; every repository
    is clean and has the same last commit, if any, and the same remotes. *)
Definition hostOf (stat : jsstring -> outcome Stats)
           (readdir : jsstring -> outcome (list Dirent))
           (access : jsstring -> bool)
           (readFile : jsstring -> outcome jsstring)
           (isRepo : jsstring -> bool)
           (latest : option LogEntry)
           (commitDate : Date)
           (remotes : list RemoteWithRefs) : Host :=
  {| fs_stat := stat;
     fs_readdir := readdir;
     fs_access := fun p => if access p then Returned () else Threw noEntry;
     fs_readFile := readFile;
     path_join := fun a b => a ++ lit "/" ++ b;
     os_homedir := lit "/home/dev";
     git_open := fun _ => Returned ();
     git_checkIsRepo := fun p => Returned (isRepo p);
     git_status := fun _ => Returned cleanMain;
     git_log_latest := fun _ => Returned latest;
     git_getRemotes := fun _ => Returned remotes;
     String_toLowerCase := map lowerAscii;
     Date_parse := fun _ => commitDate;
     JSON_parse_description := fun _ => Returned None;
     JSON_parse_tags := fun _ => Returned ∅ |}.

Definition directory (t : Z) : outcome Stats :=
  Returned {| stats_isDirectory := true; mtime := ValidDate t |}.

(** The directory [/projects]: [proj-a] is a repository with a manifest,
    changed and committed two days before [NOW]; [proj-b] holds no
    indicator and was changed forty days before [NOW]; [locked] cannot
    be read. *)
Definition portfolioEntries : list Dirent :=
  [ {| dirent_name := lit "proj-a"; dirent_isDirectory := true |};
    {| dirent_name := lit "notes.txt"; dirent_isDirectory := false |};
    {| dirent_name := lit "node_modules"; dirent_isDirectory := true |};
    {| dirent_name := lit ".config"; dirent_isDirectory := true |};
    {| dirent_name := lit "proj-b"; dirent_isDirectory := true |};
    {| dirent_name := lit "locked"; dirent_isDirectory := true |} ].

Definition portfolio : Host :=
  hostOf
    (fun p =>
       if isPath p "/projects" then directory NOW
       else if isPath p "/projects/proj-a" then directory (NOW - DAYS 2)
       else if isPath p "/projects/proj-b" then directory (NOW - DAYS 40)
       else if isPath p "/projects/locked" then Threw denied
       else Threw noEntry)
    (fun p => if isPath p "/projects" then Returned portfolioEntries else Threw noEntry)
    (fun p => isPath p "/projects/proj-a/package.json"
              || isPath p "/projects/proj-a/.git"
              || isPath p "/projects/proj-a/README"
              || isPath p "/projects/proj-a/readme.md")
    (fun p => if isPath p "/projects/proj-a/readme.md" then Returned (lit "# proj-a")
              else if isPath p "/projects/proj-a/README" then Threw denied
              else Threw noEntry)
    (fun p => isPath p "/projects/proj-a")
    oneCommit
    (ValidDate (NOW - DAYS 2))
    [ {| remote_name := lit "upstream";
         refs_fetch := lit "https://example.org/up/proj-a.git";
         refs_push := lit "https://example.org/up/proj-a.git" |};
      {| remote_name := lit "origin";
         refs_fetch := lit "git@github.com:owner/proj-a.git";
         refs_push := lit "git@github.com:owner/proj-a.git" |} ].

(** Two repositories whose last commit is at instant 0. *)
Definition twins : Host :=
  hostOf (fun _ => Threw noEntry) (fun _ => Threw noEntry) (fun _ => false)
         (fun _ => Threw noEntry) (fun _ => true) oneCommit (ValidDate 0) [].

(** A repository for which the log has no entry. *)
Definition withoutCommit : Host :=
  hostOf (fun _ => Threw noEntry) (fun _ => Threw noEntry) (fun _ => false)
         (fun _ => Threw noEntry) (fun _ => true) None InvalidDate [].

(** The repository information that [getGitStatus] finds in [withoutCommit]. *)
Definition infoWithoutCommit : GitInfo :=
  {| branch := lit "main"; isDirty := false; uncommittedChanges := 0;
     aheadBy := 0; behindBy := 0; lastCommitDate := None;
     lastCommitMessage := None |}.

(** A record as the scanner makes it. *)
Definition scanned (dirName dirPath : string) (t : Z) (s : ProjectStatus) : Project :=
  {| id := lit dirName; name := lit dirName; path := lit dirPath;
     description := None; status := s; lastModified := ValidDate t;
     hasPackageJson := false; hasReadme := false; gitInfo := None; tags := [] |}.

Definition twinProjects : list Project :=
  [ scanned "a" "/w/a" (DAYS 3) active; scanned "b" "/w/b" (DAYS 3) active ].

(** The repository information that [getGitStatus] finds in [twins]. *)
Definition twinInfo : GitInfo :=
  {| branch := lit "main"; isDirty := false; uncommittedChanges := 0;
     aheadBy := 0; behindBy := 0; lastCommitDate := Some (ValidDate 0);
     lastCommitMessage := Some (lit "first commit") |}.

(** A clock that starts one millisecond before [t] and gains one
    millisecond at every reading. *)
Definition tickingBefore (t : Z) : Clock :=
  {| tick := 0; readingAt := fun k => t - 1 + Z.of_nat k |}.

End Examples.

(** ** The rest of [git-utils.ts] and of [project-scanner.ts] *)

Module Process.

(** [process.env], as far as it is read, and [revalidatePath] of
    [next/cache]. *)
Record Process : Type := mkProcess {
  env_PROJECTS_PATH : option jsstring;
  env_HOME : option jsstring;
  revalidatePath : jsstring -> outcome ()
}.

End Process.

Export Process.

Module GitUtilsRest.

Import JsString GitUtils.
Local Open Scope eff_scope.

(** The text of a count in a template literal. *)
Definition decimal (n : N) : jsstring :=
  lit (DecimalString.NilZero.string_of_uint (N.to_uint n)).

(** The text of an integer in a template literal. *)
Definition decimalZ (z : Z) : jsstring :=
  lit (DecimalString.NilZero.string_of_int (Z.to_int z)).

(** [parts.join(sep)] *)
Fixpoint Array_join (sep : jsstring) (parts : list jsstring) : jsstring :=
  match parts with
  | [] => []
  | part :: rest =>
      match rest with
      | [] => part
      | _ :: _ => part ++ sep ++ Array_join sep rest
      end
  end.

Definition isGitRepository (h : Host) (projectPath : jsstring) : Eff bool :=
  try_catch
    (_ <- await (git_open h projectPath) ;;
     await (git_checkIsRepo h projectPath))
    (fun _ => ret false).

Definition getGitStatusSummary (gitInfo : GitInfo) : jsstring :=
  let parts := [branch gitInfo] in
  let parts :=
    if isDirty gitInfo then
      let changes :=
        if (uncommittedChanges gitInfo =? 1)%nat then lit "1 uncommitted change"
        else decimal (N.of_nat (uncommittedChanges gitInfo)) ++ lit " uncommitted changes" in
      parts ++ [changes]
    else parts ++ [lit "clean"] in
  let parts :=
    if 0 <? aheadBy gitInfo then parts ++ [decimalZ (aheadBy gitInfo) ++ lit " ahead"]
    else parts in
  let parts :=
    if 0 <? behindBy gitInfo then parts ++ [decimalZ (behindBy gitInfo) ++ lit " behind"]
    else parts in
  Array_join (lit " - ") parts.

End GitUtilsRest.

Module ProjectScannerRest.

Import JsString ProjectScanner.

(** [value || fallback] for a string that may be [undefined] *)
Definition orElse (value : option jsstring) (fallback : jsstring) : jsstring :=
  match value with
  | Some v => if truthy v then v else fallback
  | None => fallback
  end.

(** [join(HOME || '', 'Documents', 'Projects')] is taken as two joins. *)
Definition getProjectsPath (h : Host) (proc : Process) : jsstring :=
  orElse (env_PROJECTS_PATH proc)
         (path_join h (path_join h (orElse (env_HOME proc) []) (lit "Documents"))
                    (lit "Projects")).

(** [scanProjects(options)]; [None] is a call without argument. *)
Definition scanProjects (h : Host) (proc : Process) (options : option ScanOptions)
  : Eff (list ScanResult) :=
  let projectsPath := getProjectsPath h proc in
  scanDirectory h projectsPath (default noOptions options).

End ProjectScannerRest.

(** ** [app/page.tsx]: the data of the dashboard *)

Module DashboardPage.

Import ProjectScanner ProjectScannerRest GitUtils.
Local Open Scope eff_scope.

(** [{ projects, error? }] *)
Record ProjectsOrError : Type := mkProjectsOrError {
  page_projects : list Project;
  page_error : option jsstring
}.

Definition getProjects (h : Host) (proc : Process) : Eff ProjectsOrError :=
  try_catch
    (scanResults <- scanProjects h proc None ;;
     let projects := filterSuccessfulScans scanResults in
     enrichedProjects <- enrichProjectsWithGitInfo h projects ;;
     ret {| page_projects := enrichedProjects; page_error := None |})
    (fun error =>
       ret {| page_projects := []; page_error := Some (errorMessage error) |}).

(** [Record<ProjectStatus, number> & { total: number }] *)
Record StatusSummary : Type := mkSummary {
  n_active : nat;
  n_stale : nat;
  n_clean : nat;
  n_dirty : nat;
  n_unknown : nat;
  total : nat
}.

(** [summary[status]++] *)
Definition increment (summary : StatusSummary) (s : ProjectStatus) : StatusSummary :=
  match s with
  | active =>
      {| n_active := S (n_active summary); n_stale := n_stale summary;
         n_clean := n_clean summary; n_dirty := n_dirty summary;
         n_unknown := n_unknown summary; total := total summary |}
  | stale =>
      {| n_active := n_active summary; n_stale := S (n_stale summary);
         n_clean := n_clean summary; n_dirty := n_dirty summary;
         n_unknown := n_unknown summary; total := total summary |}
  | clean =>
      {| n_active := n_active summary; n_stale := n_stale summary;
         n_clean := S (n_clean summary); n_dirty := n_dirty summary;
         n_unknown := n_unknown summary; total := total summary |}
  | dirty =>
      {| n_active := n_active summary; n_stale := n_stale summary;
         n_clean := n_clean summary; n_dirty := S (n_dirty summary);
         n_unknown := n_unknown summary; total := total summary |}
  | unknown =>
      {| n_active := n_active summary; n_stale := n_stale summary;
         n_clean := n_clean summary; n_dirty := n_dirty summary;
         n_unknown := S (n_unknown summary); total := total summary |}
  end.

(** [for (const project of projects) summary[project.status]++] *)
Definition getStatusSummary (projects : list Project) : StatusSummary :=
  fold_left (fun summary project => increment summary (status project)) projects
            {| n_active := 0; n_stale := 0; n_clean := 0; n_dirty := 0; n_unknown := 0;
               total := length projects |}.

End DashboardPage.

(** The field [id] of a record, for the places where [id] is a parameter. *)
Definition projectIdOf (p : Project) : jsstring := id p.

(** ** [Array.prototype.sort] *)

Module JsArray.

(** The comparator value [v] does not put its first argument after the
    second: [v] is not positive; a value that is NaN counts as 0. *)
Definition notAfter (v : number) : bool :=
  match v with
  | Finite q => Qle_bool q (inject_Z 0)
  | NaN => true
  end.

(** [x], which was before every element of [sorted], takes its place. *)
Fixpoint insertSorted {A} (compareFn : A -> A -> number) (x : A) (sorted : list A)
  : list A :=
  match sorted with
  | [] => [x]
  | y :: rest =>
      if notAfter (compareFn x y) then x :: sorted
      else y :: insertSorted compareFn x rest
  end.

(** [array.sort(compareFn)]: the sort is stable, so that for a
    consistent comparator the result is the one of the insertion of the
    elements from the last to the first. *)
Definition Array_sort {A} (compareFn : A -> A -> number) (array : list A) : list A :=
  foldr (insertSorted compareFn) [] array.

(** [(a, b) => b.lastModified.getTime() - a.lastModified.getTime()] *)
Definition mostRecentFirst (a b : Project) : number :=
  num_sub (getTime (lastModified b)) (getTime (lastModified a)).

End JsArray.

(** ** [actions.ts]: the refresh and the fresh list *)

Module Actions.

Import JsString ProjectScanner ProjectScannerRest GitUtils GitUtilsRest JsArray.
Local Open Scope eff_scope.

Record RefreshResult : Type := mkRefreshResult {
  success : bool;
  projectCount : nat;
  errorCount : nat;
  message : jsstring
}.

Record ProjectListResponse : Type := mkListResponse {
  projects : list Project;
  total : nat;
  scannedAt : Date
}.

Record FetchProjectsResult : Type := mkFetchResult {
  response : ProjectListResponse;
  error : option jsstring
}.

Definition count (n : nat) : jsstring := decimal (N.of_nat n).

Definition refreshProjects (h : Host) (proc : Process) : Eff RefreshResult :=
  try_catch
    (results <- scanProjects h proc None ;;
     let projects := filterSuccessfulScans results in
     let errors := filterScanErrors results in
     enrichedProjects <- enrichProjectsWithGitInfo h projects ;;
     _ <- await (revalidatePath proc (lit "/")) ;;
     _ <- await (revalidatePath proc (lit "/projects")) ;;
     ret {| success := true;
            projectCount := length enrichedProjects;
            errorCount := length errors;
            message :=
              if (0 <? length errors)%nat then
                lit "Refreshed " ++ count (length enrichedProjects)
                ++ lit " projects with " ++ count (length errors) ++ lit " errors"
              else
                lit "Successfully refreshed " ++ count (length enrichedProjects)
                ++ lit " projects" |})
    (fun error =>
       ret {| success := false;
              projectCount := 0;
              errorCount := 1;
              message := lit "Failed to refresh projects: " ++ errorMessage error |}).

Definition getProjectsFresh (h : Host) (proc : Process) : Eff FetchProjectsResult :=
  try_catch
    (results <- scanProjects h proc None ;;
     let projects := filterSuccessfulScans results in
     enrichedProjects <- enrichProjectsWithGitInfo h projects ;;
     let sortedProjects := Array_sort mostRecentFirst enrichedProjects in
     now <- new_Date ;;
     ret {| response := {| projects := sortedProjects;
                           total := length sortedProjects;
                           scannedAt := now |};
            error := None |})
    (fun e =>
       now <- new_Date ;;
       ret {| response := {| projects := []; total := 0; scannedAt := now |};
              error := Some (lit "Failed to fetch projects: " ++ errorMessage e) |}).

End Actions.

(** ** The API routes [GET /api/projects] and [GET /api/projects/[id]] *)

Module ApiRoutes.

Import JsString ProjectScanner ProjectScannerRest GitUtils GitUtilsRest JsArray.
Local Open Scope eff_scope.

(** What [NextResponse.json] is given: the body of a success, or an
    error body with its HTTP status. *)
Inductive ProjectsResponse : Type :=
  | ProjectList (projects : list Project) (total : nat) (scannedAt : Date)
  | ProjectsError (httpStatus : nat) (error code details : jsstring).

Inductive ProjectResponse : Type :=
  | ProjectDetail (project : Project) (fetchedAt : Date)
  | ProjectError (httpStatus : nat) (error code details : jsstring).

Definition GET_projects (h : Host) (proc : Process) : Eff ProjectsResponse :=
  try_catch
    (scanResults <- scanProjects h proc None ;;
     let errors := filterScanErrors scanResults in
     if (0 <? length errors)%nat && (length (filterSuccessfulScans scanResults) =? 0)%nat
     then
       ret (ProjectsError 500 (lit "Failed to scan projects directory") (lit "SCAN_FAILED")
                          (Array_join (lit "; ") (map fst errors)))
     else
       let projects := filterSuccessfulScans scanResults in
       enrichedProjects <- enrichProjectsWithGitInfo h projects ;;
       let sorted := Array_sort mostRecentFirst enrichedProjects in
       now <- new_Date ;;
       ret (ProjectList sorted (length sorted) now))
    (fun e =>
       ret (ProjectsError 500 (lit "Failed to fetch projects") (lit "INTERNAL_ERROR")
                          (errorMessage e))).

Definition GET_project (h : Host) (proc : Process) (id : jsstring) : Eff ProjectResponse :=
  try_catch
    (if negb (truthy id) then
       ret (ProjectError 400 (lit "Invalid project ID") (lit "INVALID_ID")
                         (lit "Project ID must be a non-empty string"))
     else
       scanResults <- scanProjects h proc None ;;
       let projects := filterSuccessfulScans scanResults in
       match List.find (fun p => bool_decide (projectIdOf p = id)) projects with
       | None =>
           ret (ProjectError 404 (lit "Project not found") (lit "NOT_FOUND")
                             (lit "No project found with ID: " ++ id))
       | Some project =>
           gitResult <- getGitStatus h (path project) ;;
           project <-
             match gitResult with
             | GitStatusResult g =>
                 status <- determineProjectStatus (Some g) (lastModified project) ;;
                 ret (withGitInfo project g status)
             | GitStatusError _ => ret project
             end ;;
           now <- new_Date ;;
           ret (ProjectDetail project now)
       end)
    (fun e =>
       ret (ProjectError 500 (lit "Failed to fetch project") (lit "INTERNAL_ERROR")
                         (errorMessage e))).

End ApiRoutes.

(** ** The project detail page: [getProject] *)

Module ProjectDetailPage.

Import JsString ProjectScanner ProjectScannerRest GitUtils.
Local Open Scope eff_scope.

(** The record with the two fields that the page adds to it. *)
Record DetailedProject : Type := mkDetailed {
  project : Project;
  readmeContent : option jsstring;
  gitRemoteUrl : option jsstring
}.

Definition getProject (h : Host) (proc : Process) (id : jsstring)
  : Eff (option DetailedProject) :=
  try_catch
    (scanResults <- scanProjects h proc None ;;
     let projects := filterSuccessfulScans scanResults in
     match List.find (fun p => bool_decide (projectIdOf p = id)) projects with
     | None => ret None
     | Some project =>
         (* Promise.all of the three calls *)
         gitResult <- getGitStatus h (path project) ;;
         readme <- getReadmeContent h (path project) ;;
         remoteUrlResult <- getGitRemoteUrl h (path project) ;;
         project <-
           match gitResult with
           | GitStatusResult g =>
               status <- determineProjectStatus (Some g) (lastModified project) ;;
               ret (withGitInfo project g status)
           | GitStatusError _ => ret project
           end ;;
         ret (Some {| project := project;
                      readmeContent := readme;
                      gitRemoteUrl := url remoteUrlResult |})
     end)
    (fun _ => ret None).

End ProjectDetailPage.

(** ** [tag-storage.ts]: the functions that write, and their actions *)

Module TagStorageWrites.

Import JsString.

(** The state that the writing functions change: the clock, and what
    [readFile] gives for the tag file, its text or an exception. *)
Record World : Type := mkWorld {
  clock : Clock;
  tagFile : outcome jsstring
}.

Definition IO (A : Type) : Type := World -> outcome A * World.

Definition io_ret {A} (a : A) : IO A := fun w => (Returned a, w).

Definition io_throw {A} (e : thrown) : IO A := fun w => (Threw e, w).

Definition io_bind {A B} (m : IO A) (k : A -> IO B) : IO B :=
  fun w =>
    match m w with
    | (Returned a, w') => k a w'
    | (Threw e, w') => (Threw e, w')
    end.

Definition io_try_catch {A} (body : IO A) (handler : thrown -> IO A) : IO A :=
  fun w =>
    match body w with
    | (Returned a, w') => (Returned a, w')
    | (Threw e, w') => handler e w'
    end.

Definition io_await {A} (o : outcome A) : IO A := fun w => (o, w).

(** What the functions use besides the tag file: a host for everything
    but the tag file, [JSON.stringify(allTags, null, 2)], [mkdir], and
    the exception of [writeFile] on a path and a text, if it throws. *)
Record Storage : Type := mkStorage {
  base : Host;
  JSON_stringify_tags : gmap jsstring (list jsstring) -> jsstring;
  fs_mkdir : jsstring -> outcome ();
  fs_writeFile_throws : jsstring -> jsstring -> option thrown
}.

(** The host as it is in the world [w]: [readFile] on the tag file
    gives the state of the tag file. *)
Definition hostAt (st : Storage) (w : World) : Host :=
  let h := base st in
  {| fs_stat := fs_stat h;
     fs_readdir := fs_readdir h;
     fs_access := fs_access h;
     fs_readFile := fun p =>
       if bool_decide (p = TagStorage.TAGS_FILE h) then tagFile w else fs_readFile h p;
     path_join := path_join h;
     os_homedir := os_homedir h;
     git_open := git_open h;
     git_checkIsRepo := git_checkIsRepo h;
     git_status := git_status h;
     git_log_latest := git_log_latest h;
     git_getRemotes := git_getRemotes h;
     String_toLowerCase := String_toLowerCase h;
     Date_parse := Date_parse h;
     JSON_parse_description := JSON_parse_description h;
     JSON_parse_tags := JSON_parse_tags h |}.

(** A computation that only reads, run in the world. *)
Definition reading {A} (st : Storage) (m : Host -> Eff A) : IO A :=
  fun w =>
    match m (hostAt st w) (clock w) with
    | (r, c') => (r, {| clock := c'; tagFile := tagFile w |})
    end.

(** The order of the default [sort]: strings by their code units. *)
Fixpoint codeUnitsLe (a b : jsstring) : bool :=
  match a, b with
  | [], _ => true
  | _ :: _, [] => false
  | x :: a', y :: b' =>
      if (x <? y)%N then true
      else if (y <? x)%N then false
      else codeUnitsLe a' b'
  end.

Definition codeUnitOrder (a b : jsstring) : Prop := codeUnitsLe a b = true.

#[global] Instance codeUnitOrder_dec (a b : jsstring) : Decision (codeUnitOrder a b).
Proof. unfold codeUnitOrder. apply _. Defined.

(** [Failed to save tags for project ${projectId}: ${errorMessage}] *)
Definition saveError (projectId : jsstring) (e : thrown) : thrown :=
  ErrorObj (lit "Failed to save tags for project " ++ projectId ++ lit ": "
            ++ errorMessage e).

(** [{ success, message, tags? }] *)
Record TagOperationResult : Type := mkTagResult {
  success : bool;
  message : jsstring;
  tags : option (list jsstring)
}.

Declare Scope io_scope.
Delimit Scope io_scope with io.
Notation "x <- m ;; k" := (io_bind m (fun x => k))
  (at level 100, m at next level, right associativity) : io_scope.
Local Open Scope io_scope.

Section WithStorage.

Variable st : Storage.

Definition TAGS_FILE : jsstring := TagStorage.TAGS_FILE (base st).

Definition CONFIG_DIR : jsstring := TagStorage.CONFIG_DIR (base st).

(** [writeFile(TAGS_FILE, content, 'utf-8')] *)
Definition writeTagsFile (content : jsstring) : IO () :=
  fun w =>
    match fs_writeFile_throws st TAGS_FILE content with
    | Some e => (Threw e, w)
    | None => (Returned (), {| clock := clock w; tagFile := Returned content |})
    end.

Definition ensureConfigDirectory : IO () :=
  io_try_catch (io_await (fs_mkdir st CONFIG_DIR)) (fun _ => io_ret ()).

Definition loadProjectTags : IO (gmap jsstring (list jsstring)) :=
  reading st TagStorage.loadProjectTags.

Definition getProjectTags (projectId : jsstring) : IO (list jsstring) :=
  reading st (fun h => TagStorage.getProjectTags h projectId).

Definition saveProjectTags (projectId : jsstring) (tags : list jsstring) : IO () :=
  io_try_catch
    (_ <- ensureConfigDirectory ;;
     allTags <- loadProjectTags ;;
     let allTags :=
       if (length tags =? 0)%nat then delete projectId allTags
       else <[projectId := tags]> allTags in
     writeTagsFile (JSON_stringify_tags st allTags))
    (fun error => io_throw (saveError projectId error)).

(** The tags of all projects, each once, in the order of the default
    sort.  [tagSet] is the set that the two loops fill. *)
Definition getAllTags : IO (list jsstring) :=
  allTags <- loadProjectTags ;;
  let tagSet : gset jsstring :=
    ⋃ ((fun entry : jsstring * list jsstring => list_to_set entry.2)
         <$> map_to_list allTags) in
  io_ret (merge_sort codeUnitOrder (elements tagSet)).

(** [currentTags.includes(tag)] *)
Definition includes (currentTags : list jsstring) (tag : jsstring) : bool :=
  bool_decide (tag ∈ currentTags).

Definition addTagToProject (projectId tag : jsstring) : IO () :=
  currentTags <- getProjectTags projectId ;;
  if negb (includes currentTags tag) then
    saveProjectTags projectId (currentTags ++ [tag])
  else io_ret ().

Definition removeTagFromProject (projectId tag : jsstring) : IO () :=
  currentTags <- getProjectTags projectId ;;
  let updatedTags := List.filter (fun t => negb (bool_decide (t = tag))) currentTags in
  saveProjectTags projectId updatedTags.

Variable proc : Process.

(** The three calls of [revalidatePath] after a change of tags. *)
Definition revalidateTagPages (projectId : jsstring) : IO () :=
  _ <- io_await (revalidatePath proc (lit "/")) ;;
  _ <- io_await (revalidatePath proc (lit "/projects")) ;;
  io_await (revalidatePath proc (lit "/projects/" ++ projectId)).

Definition addProjectTag (projectId tag : jsstring) : IO TagOperationResult :=
  io_try_catch
    (_ <- addTagToProject projectId tag ;;
     updatedTags <- getProjectTags projectId ;;
     _ <- revalidateTagPages projectId ;;
     io_ret {| success := true;
               message := lit "Tag " ++ [34%N] ++ tag ++ [34%N] ++ lit " added to project";
               tags := Some updatedTags |})
    (fun error =>
       io_ret {| success := false;
                 message := lit "Failed to add tag: " ++ errorMessage error;
                 tags := None |}).

Definition removeProjectTag (projectId tag : jsstring) : IO TagOperationResult :=
  io_try_catch
    (_ <- removeTagFromProject projectId tag ;;
     updatedTags <- getProjectTags projectId ;;
     _ <- revalidateTagPages projectId ;;
     io_ret {| success := true;
               message := lit "Tag " ++ [34%N] ++ tag ++ [34%N]
                          ++ lit " removed from project";
               tags := Some updatedTags |})
    (fun error =>
       io_ret {| success := false;
                 message := lit "Failed to remove tag: " ++ errorMessage error;
                 tags := None |}).

End WithStorage.

End TagStorageWrites.

(** ** Notions used in the further statements *)

Module MoreNotions.

Import JsString GitUtils ProjectScanner Notions.

(** What holds of the result [r] of the scan of the entry [dir] of
    [root], when the callback of the entry starts on the clock [c1]. *)
Definition entryFacts (h : Host) (root : jsstring) (dir : Dirent) (c1 : Clock)
           (r : ScanResult) : Prop :=
  match r with
  | ProjectScanError text p =>
      p = path_join h root (dirent_name dir)
      /\ text <> []
      /\ statSucceeds h p = false
  | ProjectScanResult p =>
      name p = dirent_name dir
      /\ path p = path_join h root (dirent_name dir)
      /\ id p = createProjectId (String_toLowerCase h) (name p)
      /\ gitInfo p = None
      /\ (status p = active \/ status p = unknown \/ status p = stale)
      /\ (description p <> None -> hasPackageJson p = true)
      /\ (hasPackageJson p = true \/ hasReadme p = true -> ~ noIndicator h (path p))
      /\ (noIndicator h (path p) -> status p = unknown)
      /\ (~ noIndicator h (path p) ->
          (determineInitialStatus (lastModified p) c1).1 = Returned (status p))
      /\ (TagStorage.getProjectTags h (id p) c1).1 = Returned (tags p)
      /\ (exists stats, fs_stat h (path p) = Returned stats
                        /\ lastModified p = mtime stats)
  end.

(** The number of the records of a list that have the status [s]. *)
Definition countStatus (s : ProjectStatus) (projects : list Project) : nat :=
  length (List.filter
            (fun p => match status p, s with
                      | active, active | stale, stale | clean, clean
                      | dirty, dirty | unknown, unknown => true
                      | _, _ => false
                      end) projects).

(** The time value of a valid date. *)
Definition validTime (d : Date) : option Z :=
  match d with
  | ValidDate ms => Some ms
  | InvalidDate => None
  end.

(** [a] is not older than [b]; both dates are valid. *)
Definition notOlder (a b : Project) : Prop :=
  exists ta tb, lastModified a = ValidDate ta /\ lastModified b = ValidDate tb /\ tb <= ta.

(** What the callback of the enrichment pass makes of the record [p]
    when it starts on the clock [c1]: [p] itself when [getGitStatus]
    gives an error, and otherwise [p] with the repository information
    and the status of the rule, [now] being the second reading. *)
Definition enrichedAt (h : Host) (p : Project) (c1 : Clock) (p' : Project) : Prop :=
  (exists text, getStatusReturns h (path p) (GitStatusError text) /\ p' = p)
  \/ (exists g, getStatusReturns h (path p) (GitStatusResult g)
                /\ p' = withGitInfo p g
                          (Spec.classify (Some g) (ValidDate (reading c1))
                                         (ValidDate (reading (advance c1))))).

(** [p'] is the record [p], but for its status and its repository
    information. *)
Definition sameProject (p p' : Project) : Prop :=
  id p' = id p /\ name p' = name p /\ path p' = path p
  /\ description p' = description p /\ lastModified p' = lastModified p
  /\ hasPackageJson p' = hasPackageJson p /\ hasReadme p' = hasReadme p
  /\ tags p' = tags p.

(** The modification date of the record is a valid date. *)
Definition datedValid (p : Project) : Prop := lastModified p <> InvalidDate.

(** What the detail page and the route of one project make of the
    record [p] of the scan when the status is computed on the clock
    [c1]: [p] itself when [getGitStatus] gives an error, and otherwise
    [p] with the repository information and the status of the rule,
    the modification date of [p] standing in for a missing commit date. *)
Definition detailedAt (h : Host) (p : Project) (c1 : Clock) (p' : Project) : Prop :=
  (exists text, getStatusReturns h (path p) (GitStatusError text) /\ p' = p)
  \/ (exists g, getStatusReturns h (path p) (GitStatusResult g)
                /\ p' = withGitInfo p g
                          (Spec.classify (Some g) (lastModified p)
                                         (ValidDate (reading c1)))).

(** [p] is the first record of the results whose id is [projectId]. *)
Definition firstWithId (projectId : jsstring) (results : list ScanResult) (p : Project)
  : Prop :=
  exists before after,
    results = before ++ ProjectScanResult p :: after
    /\ id p = projectId
    /\ forall q, ProjectScanResult q ∈ before -> id q <> projectId.

(** No record of the results has the id [projectId]. *)
Definition noneWithId (projectId : jsstring) (results : list ScanResult) : Prop :=
  forall q, ProjectScanResult q ∈ results -> id q <> projectId.

(** The names of the properties that every object inherits from
    [Object.prototype].  For such a name [allTags[projectId]] is not a
    lookup among the entries of the tag data, which is what the finite
    map of the embedding gives; the statements on the tags of a project
    are made for the other ids. *)
Definition inheritedNames : list jsstring :=
  [ lit "constructor"; lit "__proto__"; lit "hasOwnProperty"; lit "isPrototypeOf";
    lit "propertyIsEnumerable"; lit "toLocaleString"; lit "toString"; lit "valueOf";
    lit "__defineGetter__"; lit "__defineSetter__"; lit "__lookupGetter__";
    lit "__lookupSetter__" ].

Definition ordinaryId (projectId : jsstring) : Prop := projectId ∉ inheritedNames.

(** The tags that the tag file holds in the world [w], by project
    id: none when the file cannot be read or is not valid. *)
Definition storedTags (st : TagStorageWrites.Storage) (w : TagStorageWrites.World)
  : gmap jsstring (list jsstring) :=
  match TagStorageWrites.tagFile w with
  | Returned content =>
      match JSON_parse_tags (TagStorageWrites.base st) content with
      | Returned allTags => allTags
      | Threw _ => ∅
      end
  | Threw _ => ∅
  end.

(** The tags of a project in the world [w]. *)
Definition tagsOf (st : TagStorageWrites.Storage) (w : TagStorageWrites.World)
           (projectId : jsstring) : list jsstring :=
  default [] (storedTags st w !! projectId).

(** The parser of the tag file reads back what [JSON.stringify] wrote. *)
Definition parsesBack (st : TagStorageWrites.Storage) : Prop :=
  forall allTags,
    JSON_parse_tags (TagStorageWrites.base st)
                    (TagStorageWrites.JSON_stringify_tags st allTags)
    = Returned allTags.

(** [writeFile] does not throw on the tag file. *)
Definition writable (st : TagStorageWrites.Storage) : Prop :=
  forall content,
    TagStorageWrites.fs_writeFile_throws st (TagStorageWrites.TAGS_FILE st) content = None.

(** The three calls of [revalidatePath] after a change of the tags of
    the project return. *)
Definition revalidatesTags (proc : Process) (projectId : jsstring) : Prop :=
  revalidatePath proc (lit "/") = Returned ()
  /\ revalidatePath proc (lit "/projects") = Returned ()
  /\ revalidatePath proc (lit "/projects/" ++ projectId) = Returned ().

(** Every date that [stat] gives is a valid date. *)
Definition validStats (h : Host) : Prop :=
  forall p stats, fs_stat h p = Returned stats -> mtime stats <> InvalidDate.

(** The directory of the projects can be listed. *)
Definition projectsListed (h : Host) (proc : Process) : Prop :=
  exists entries, rootListed h (ProjectScannerRest.getProjectsPath h proc) entries.

(** Both calls of [revalidatePath] of a refresh return. *)
Definition revalidates (proc : Process) : Prop :=
  revalidatePath proc (lit "/") = Returned ()
  /\ revalidatePath proc (lit "/projects") = Returned ().

End MoreNotions.

(** ** More examples *)

Module MoreExamples.

Import JsString GitUtils ProjectScanner Examples TagStorageWrites.

(** A server whose projects are in [/projects]. *)
Definition server : Process :=
  {| env_PROJECTS_PATH := Some (lit "/projects");
     env_HOME := Some (lit "/home/dev");
     revalidatePath := fun _ => Returned () |}.

(** The directory [/repo] is the work tree of a repository, last
    committed forty days before [NOW].  Its directory [scratch], changed
    forty days before [NOW], holds no indicator, and no [.git] of its
    own; lying in the work tree, it is reported as a repository. *)
Definition nestedWorkTree : Host :=
  hostOf
    (fun p =>
       if isPath p "/repo" then directory NOW
       else if isPath p "/repo/scratch" then directory (NOW - DAYS 40)
       else Threw noEntry)
    (fun p =>
       if isPath p "/repo"
       then Returned [ {| dirent_name := lit "scratch"; dirent_isDirectory := true |} ]
       else Threw noEntry)
    (fun p => isPath p "/repo/.git")
    (fun _ => Threw noEntry)
    (fun _ => true)
    oneCommit
    (ValidDate (NOW - DAYS 40))
    [].

(** A tag file format: the text of a map is one code unit, its number
    in an enumeration of the maps. *)
Definition stringifyTags (m : gmap jsstring (list jsstring)) : jsstring :=
  [Npos (encode m)].

Definition parseTags (text : jsstring) : outcome (gmap jsstring (list jsstring)) :=
  match text with
  | [Npos n] =>
      match decode n with
      | Some m => Returned m
      | None => Threw (ErrorObj (lit "Unexpected token"))
      end
  | _ => Threw (ErrorObj (lit "Unexpected end of JSON input"))
  end.

(** The host [h] with another parser of the tag file. *)
Definition withTagParser (h : Host)
           (parse : jsstring -> outcome (gmap jsstring (list jsstring))) : Host :=
  {| fs_stat := fs_stat h;
     fs_readdir := fs_readdir h;
     fs_access := fs_access h;
     fs_readFile := fs_readFile h;
     path_join := path_join h;
     os_homedir := os_homedir h;
     git_open := git_open h;
     git_checkIsRepo := git_checkIsRepo h;
     git_status := git_status h;
     git_log_latest := git_log_latest h;
     git_getRemotes := git_getRemotes h;
     String_toLowerCase := String_toLowerCase h;
     Date_parse := Date_parse h;
     JSON_parse_description := JSON_parse_description h;
     JSON_parse_tags := parse |}.

(** A disk on which every write succeeds. *)
Definition disk : Storage :=
  {| base := withTagParser portfolio parseTags;
     JSON_stringify_tags := stringifyTags;
     fs_mkdir := fun _ => Returned tt;
     fs_writeFile_throws := fun _ _ => None |}.


(** A world in which the tag file does not exist yet. *)
Definition freshWorld : World :=
  {| clock := frozenAt NOW; tagFile := Threw noEntry |}.

End MoreExamples.

(** * Properties *)

Import JsString GitUtils ProjectScanner Notions.

(** ** Numbers and days *)

Lemma Qle_bool_days (d k : Z) :
  Qle_bool (inject_Z d / inject_Z MS_PER_DAY)%Q (inject_Z k) = (d <=? k * MS_PER_DAY).
Proof.
  apply eq_true_iff_eq. rewrite Qle_bool_iff, Z.leb_le.
  unfold Qle, Qdiv, Qmult, Qinv, inject_Z, MS_PER_DAY. simpl. lia.
Qed.

Lemma num_le_days (now d k : Z) :
  num_le (GitUtils.daysSince (ValidDate now) (ValidDate d)) (num_of_Z k)
  = (now - d <=? k * MS_PER_DAY).
Proof.
  unfold GitUtils.daysSince, num_of_Z. simpl.
  rewrite <- Qle_bool_days. unfold Qle_bool, Qdiv, Qmult, Qminus, Qplus, Qopp, inject_Z.
  simpl. f_equal; lia.
Qed.

Lemma num_gt_days (now d k : Z) :
  num_gt (GitUtils.daysSince (ValidDate now) (ValidDate d)) (num_of_Z k)
  = (k * MS_PER_DAY <? now - d).
Proof.
  assert (E := num_le_days now d k).
  unfold GitUtils.daysSince, num_of_Z, num_gt, num_le in *. simpl in *.
  rewrite E. rewrite Z.ltb_antisym. reflexivity.
Qed.

Lemma spec_byRecency_days (now d : Z) (other : ProjectStatus) :
  Spec.byRecency (Spec.daysSince (ValidDate now) (ValidDate d)) other
  = if now - d <=? 7 * MS_PER_DAY then active
    else if 30 * MS_PER_DAY <? now - d then stale
    else other.
Proof.
  unfold Spec.byRecency, Spec.daysSince.
  change (86400 * 1000) with MS_PER_DAY.
  rewrite !Qle_bool_days, Z.ltb_antisym. reflexivity.
Qed.

(** The recency test of the code and the one of the specification agree
    on every pair of dates, valid or not. *)
Lemma byRecency_code (now d : Date) (other : ProjectStatus) :
  (if num_le (GitUtils.daysSince now d) (num_of_Z 7) then active
   else if num_gt (GitUtils.daysSince now d) (num_of_Z 30) then stale
   else other)
  = Spec.byRecency (Spec.daysSince now d) other.
Proof.
  destruct now as [n|], d as [t|]; try reflexivity.
  rewrite num_le_days, num_gt_days, spec_byRecency_days. reflexivity.
Qed.

(** [determineProjectStatus] reads the clock once, unless the repository
    is dirty, and returns the classification at that reading. *)
Lemma determineProjectStatus_run (repoInfo : option GitInfo) (lastModified : Date)
      (c : Clock) :
  determineProjectStatus repoInfo lastModified c
  = (Returned (Spec.classify repoInfo lastModified (ValidDate (reading c))),
     match repoInfo with
     | Some info => if isDirty info then c else advance c
     | None => advance c
     end).
Proof.
  destruct repoInfo as [info|]; unfold determineProjectStatus, Spec.classify.
  - destruct (isDirty info); [reflexivity|].
    rewrite <- byRecency_code. unfold bind, new_Date, ret.
    destruct (lastCommitDate info) as [d|]; cbv [default from_option Datatypes.id];
      repeat (match goal with |- context [num_le ?a ?b] => destruct (num_le a b) end);
      repeat (match goal with |- context [num_gt ?a ?b] => destruct (num_gt a b) end);
      reflexivity.
  - rewrite <- byRecency_code. unfold bind, new_Date, ret.
    repeat (match goal with |- context [num_le ?a ?b] => destruct (num_le a b) end);
    repeat (match goal with |- context [num_gt ?a ?b] => destruct (num_gt a b) end);
    reflexivity.
Qed.

(** ** C1: the status rule *)

(** C1.  [determineProjectStatus] is the classification of section 4.2
    of the specification, [now] being the reading of the clock when it
    is called: without repository information the project is active up
    to 7 days, stale beyond 30 days and unknown in between; dirty
    repository information gives dirty at any age; clean repository
    information is judged on the last commit date, or on the
    modification date when there is none, and gives active, stale or
    clean.  Exactly 7 days is active, one millisecond more is not;
    exactly 30 days is not stale, one millisecond more is. *)
Theorem determineProjectStatus_is_classify :
  (forall (repoInfo : option GitInfo) (lastModified : Date) (c : Clock),
      (determineProjectStatus repoInfo lastModified c).1
      = Returned (Spec.classify repoInfo lastModified (ValidDate (reading c))))
  /\ (forall (info : GitInfo) (lastModified : Date) (c : Clock),
        isDirty info = true ->
        (determineProjectStatus (Some info) lastModified c).1 = Returned dirty)
  /\ (forall t : Z,
        let run now := (determineProjectStatus None (ValidDate t) (frozenAt now)).1 in
        run (t + 7 * MS_PER_DAY) = Returned active
        /\ run (t + 7 * MS_PER_DAY + 1) = Returned unknown
        /\ run (t + 30 * MS_PER_DAY) = Returned unknown
        /\ run (t + 30 * MS_PER_DAY + 1) = Returned stale)
  /\ (forall (info : GitInfo) (lastModified : Date) (t : Z),
        isDirty info = false ->
        lastCommitDate info = Some (ValidDate t) ->
        let run now := (determineProjectStatus (Some info) lastModified (frozenAt now)).1 in
        run (t + 7 * MS_PER_DAY) = Returned active
        /\ run (t + 7 * MS_PER_DAY + 1) = Returned clean
        /\ run (t + 30 * MS_PER_DAY) = Returned clean
        /\ run (t + 30 * MS_PER_DAY + 1) = Returned stale).
Proof.
  assert (R : forall repoInfo lastModified c,
             (determineProjectStatus repoInfo lastModified c).1
             = Returned (Spec.classify repoInfo lastModified (ValidDate (reading c))))
    by (intros; rewrite determineProjectStatus_run; reflexivity).
  split; [exact R|]. split; [|split].
  - intros info lastModified c Hd. rewrite R. unfold Spec.classify. rewrite Hd. reflexivity.
  - intros t run. subst run. cbv beta. rewrite !R. unfold Spec.classify, frozenAt, reading.
    cbn [readingAt tick]. rewrite !spec_byRecency_days. unfold MS_PER_DAY.
    repeat split;
      repeat (match goal with
              | |- context [?a <=? ?b] => destruct (Z.leb_spec a b); try lia
              | |- context [?a <? ?b] => destruct (Z.ltb_spec a b); try lia
              end); reflexivity.
  - intros info lastModified t Hd Hc run. subst run. cbv beta. rewrite !R.
    unfold Spec.classify, frozenAt, reading. rewrite Hd, Hc.
    cbn [readingAt tick]. rewrite !spec_byRecency_days. unfold MS_PER_DAY.
    repeat split;
      repeat (match goal with
              | |- context [?a <=? ?b] => destruct (Z.leb_spec a b); try lia
              | |- context [?a <? ?b] => destruct (Z.ltb_spec a b); try lia
              end); reflexivity.
Qed.

(** ** C7: the project id *)

Section SlugFacts.

Lemma isIdUnit_ascii (u : N) : isIdUnit u = true -> (u < 128)%N.
Proof.
  unfold isIdUnit.
  rewrite !orb_true_iff, !andb_true_iff, !N.leb_le, !N.eqb_eq. lia.
Qed.

Lemma isIdUnit_lower (u : N) : isIdUnit u = true -> lowerAscii u = u.
Proof.
  unfold isIdUnit, lowerAscii.
  rewrite !orb_true_iff, !andb_true_iff, !N.leb_le, !N.eqb_eq. intros H.
  destruct (N.leb_spec 65 u), (N.leb_spec u 90); simpl; try reflexivity. lia.
Qed.

Lemma isIdUnit_DASH : isIdUnit DASH = true.
Proof. reflexivity. Qed.

Lemma replaceOthers_units (s : jsstring) :
  Forall (fun u => isIdUnit u = true) (replaceOthers s).
Proof.
  unfold replaceOthers. induction s as [|u s IH]; simpl; constructor; auto.
  destruct (isIdUnit u) eqn:E; [exact E | exact isIdUnit_DASH].
Qed.

Lemma replaceOthers_fixed (s : jsstring) :
  Forall (fun u => isIdUnit u = true) s -> replaceOthers s = s.
Proof.
  unfold replaceOthers. induction 1 as [|u s Hu _ IH]; simpl; [reflexivity|].
  rewrite Hu, IH. reflexivity.
Qed.

Lemma lowerAscii_fixed (s : jsstring) :
  Forall (fun u => isIdUnit u = true) s -> map lowerAscii s = s.
Proof.
  induction 1 as [|u s Hu _ IH]; simpl; [reflexivity|].
  rewrite (isIdUnit_lower _ Hu), IH. reflexivity.
Qed.

Lemma collapseDashes_cons (u : N) (s : jsstring) :
  collapseDashes (u :: s)
  = match s with
    | v :: _ => if (u =? DASH)%N && (v =? DASH)%N then collapseDashes s
                else u :: collapseDashes s
    | [] => [u]
    end.
Proof. destruct s; reflexivity. Qed.

Lemma collapseDashes_units (P : N -> Prop) (s : jsstring) :
  Forall P s -> Forall P (collapseDashes s).
Proof.
  induction 1 as [|u s Hu Hs IH]; [constructor|].
  rewrite collapseDashes_cons. destruct s as [|v r]; [constructor; auto|].
  destruct ((u =? DASH)%N && (v =? DASH)%N); [exact IH | constructor; auto].
Qed.

(** The result of [collapseDashes] starts as its argument does. *)
Lemma collapseDashes_head (v : N) (r : jsstring) :
  exists r', collapseDashes (v :: r) = v :: r'.
Proof.
  revert v. induction r as [|w r IH]; intros v; [exists []; reflexivity|].
  rewrite collapseDashes_cons.
  destruct (N.eqb_spec v DASH) as [->|Hv]; simpl.
  - destruct (N.eqb_spec w DASH) as [->|Hw]; [apply IH | eexists; reflexivity].
  - eexists; reflexivity.
Qed.

Lemma collapseDashes_noDashPair (s : jsstring) : noDashPair (collapseDashes s).
Proof.
  induction s as [|u s IH]; [exact I|].
  rewrite collapseDashes_cons. destruct s as [|v r]; [exact I|].
  destruct (N.eqb_spec u DASH) as [->|Hu]; simpl andb.
  - destruct (N.eqb_spec v DASH) as [->|Hv]; [exact IH|].
    destruct (collapseDashes_head v r) as [r' E]. rewrite E in IH |- *.
    simpl. split; [intros [_ ?]; congruence | exact IH].
  - destruct (collapseDashes_head v r) as [r' E]. rewrite E in IH |- *.
    simpl. split; [intros [? _]; congruence | exact IH].
Qed.

Lemma noDashPair_collapse (s : jsstring) : noDashPair s -> collapseDashes s = s.
Proof.
  induction s as [|u s IH]; [reflexivity|]. intros H.
  rewrite collapseDashes_cons. destruct s as [|v r]; [reflexivity|].
  destruct H as [Hp Hr].
  destruct (N.eqb_spec u DASH) as [->|Hu]; simpl andb.
  - destruct (N.eqb_spec v DASH) as [->|Hv]; [exfalso; apply Hp; split; reflexivity|].
    rewrite (IH Hr). reflexivity.
  - rewrite (IH Hr). reflexivity.
Qed.

Lemma noDashPair_tail (u : N) (s : jsstring) : noDashPair (u :: s) -> noDashPair s.
Proof. destruct s as [|v r]; [intros; exact I | intros [_ H]; exact H]. Qed.

Lemma removeLastDash_cons (u : N) (s : jsstring) :
  removeLastDash (u :: s)
  = match s with
    | [] => if (u =? DASH)%N then [] else [u]
    | _ :: _ => u :: removeLastDash s
    end.
Proof. destruct s; reflexivity. Qed.

Lemma removeLastDash_units (P : N -> Prop) (s : jsstring) :
  Forall P s -> Forall P (removeLastDash s).
Proof.
  induction 1 as [|u s Hu Hs IH]; [constructor|].
  rewrite removeLastDash_cons. destruct s as [|v r].
  - destruct (u =? DASH)%N; constructor; auto.
  - constructor; auto.
Qed.

Lemma removeLastDash_noDashPair (s : jsstring) :
  noDashPair s -> noDashPair (removeLastDash s).
Proof.
  induction s as [|u s IH]; [auto|]. intros H.
  rewrite removeLastDash_cons. destruct s as [|v r].
  - destruct (u =? DASH)%N; exact I.
  - destruct H as [Hp Hr]. specialize (IH Hr).
    rewrite removeLastDash_cons in IH |- *. destruct r as [|w r'].
    + destruct (v =? DASH)%N; simpl; auto.
    + simpl. split; [exact Hp | exact IH].
Qed.

Lemma removeLastDash_head (s : jsstring) :
  headNotDash s -> headNotDash (removeLastDash s).
Proof.
  destruct s as [|u s]; [auto|]. intros H. simpl in H.
  rewrite removeLastDash_cons. destruct s as [|v r].
  - destruct (N.eqb_spec u DASH); [contradiction | exact H].
  - exact H.
Qed.

Lemma removeLastDash_twice (s : jsstring) :
  noDashPair s -> removeLastDash (removeLastDash s) = removeLastDash s.
Proof.
  induction s as [|u s IH]; [reflexivity|]. intros H.
  rewrite (removeLastDash_cons u s). destruct s as [|v r].
  - destruct (N.eqb_spec u DASH) as [->|Hu]; [reflexivity|].
    simpl. destruct (N.eqb_spec u DASH); [contradiction | reflexivity].
  - destruct H as [Hp Hr]. specialize (IH Hr).
    rewrite removeLastDash_cons. rewrite IH.
    destruct (removeLastDash (v :: r)) as [|w t] eqn:E; [|reflexivity].
    rewrite removeLastDash_cons in E. destruct r as [|w r']; [|discriminate].
    destruct (N.eqb_spec v DASH) as [Ev|Hv]; [|discriminate].
    destruct (N.eqb_spec u DASH) as [Eu|Hu]; [|reflexivity].
    exfalso. apply Hp. split; assumption.
Qed.

Lemma trimDashes_headNotDash (s : jsstring) :
  headNotDash s -> trimDashes s = removeLastDash s.
Proof.
  destruct s as [|u s]; [reflexivity|]. simpl. intros H.
  destruct (N.eqb_spec u DASH); [contradiction | reflexivity].
Qed.

(** What [trimDashes] gives on a string without a pair of dashes: a
    string that the three replacements leave as it is. *)
Lemma trimDashes_shape (s : jsstring) :
  noDashPair s ->
  exists w, trimDashes s = removeLastDash w /\ noDashPair w /\ headNotDash w.
Proof.
  destruct s as [|u s]; intros H.
  - exists []. repeat split.
  - unfold trimDashes. destruct (N.eqb_spec u DASH) as [->|Hu].
    + exists s. split; [reflexivity|]. split; [eapply noDashPair_tail; exact H|].
      destruct s as [|v r]; [exact I|]. destruct H as [Hp _]. simpl.
      intros ->. apply Hp. split; reflexivity.
    + exists (u :: s). repeat split; [exact H | exact Hu].
Qed.

Variable toLowerCase : jsstring -> jsstring.

Lemma createProjectId_units (x : jsstring) :
  Forall (fun u => isIdUnit u = true) (createProjectId toLowerCase x).
Proof.
  unfold createProjectId.
  pose proof (collapseDashes_units _ _ (replaceOthers_units (toLowerCase x))) as H.
  destruct (collapseDashes (replaceOthers (toLowerCase x))) as [|u s]; [constructor|].
  unfold trimDashes. destruct (u =? DASH)%N.
  - apply removeLastDash_units. inversion H; assumption.
  - apply removeLastDash_units. exact H.
Qed.

Lemma createProjectId_fixed (y : jsstring) :
  lowersAscii toLowerCase ->
  Forall (fun u => isIdUnit u = true) y ->
  noDashPair y -> trimDashes y = y ->
  createProjectId toLowerCase y = y.
Proof.
  intros Hlow Hy Hp Ht. unfold createProjectId.
  rewrite Hlow by (eapply Forall_impl; [exact Hy | exact isIdUnit_ascii]).
  rewrite (lowerAscii_fixed _ Hy).
  rewrite (replaceOthers_fixed _ Hy), (noDashPair_collapse _ Hp). exact Ht.
Qed.

End SlugFacts.

Lemma removeLastDash_last (w : jsstring) :
  noDashPair w -> last (removeLastDash w) <> Some DASH.
Proof.
  induction w as [|u w IH]; [discriminate|]. intros H.
  rewrite removeLastDash_cons. destruct w as [|v r].
  - destruct (N.eqb_spec u DASH) as [Eu|Hu]; simpl; congruence.
  - destruct H as [Hp Hr]. specialize (IH Hr).
    destruct (removeLastDash (v :: r)) as [|w t] eqn:E.
    + rewrite removeLastDash_cons in E. destruct r as [|w r']; [|discriminate].
      destruct (N.eqb_spec v DASH) as [Ev|Hv]; [|discriminate].
      simpl. intros [= Eu]. apply Hp. split; assumption.
    + rewrite last_cons. destruct (last (w :: t)) eqn:L; [exact IH|].
      rewrite last_None in L. discriminate.
Qed.

(** *** The id of the specification and the id of the code *)

Lemma collapseDashes_keep (u : N) (s : jsstring) :
  u <> DASH -> collapseDashes (u :: s) = u :: collapseDashes s.
Proof.
  intros Hu. rewrite collapseDashes_cons. destruct s as [|v r]; [reflexivity|].
  destruct (N.eqb_spec u DASH); [contradiction | reflexivity].
Qed.

Lemma isAlphanumeric_not_DASH (u : N) : Spec.isAlphanumeric u = true -> u <> DASH.
Proof.
  unfold Spec.isAlphanumeric, DASH.
  rewrite !orb_true_iff, !andb_true_iff, !N.leb_le. lia.
Qed.

(** Runs collapsed at their first code unit, and dashes collapsed after
    the replacement, give the same string. *)
Lemma collapseRuns_collapseDashes (s : jsstring) :
  let replaced := map (fun u => if Spec.isAlphanumeric u then u else DASH) s in
  Spec.collapseRuns false s = collapseDashes replaced
  /\ DASH :: Spec.collapseRuns true s = collapseDashes (DASH :: replaced).
Proof.
  induction s as [|u r [IH1 IH2]]; [split; reflexivity|].
  cbn [map Spec.collapseRuns]. cbv zeta in IH1, IH2.
  destruct (Spec.isAlphanumeric u) eqn:Hu.
  - pose proof (isAlphanumeric_not_DASH u Hu) as Hd.
    rewrite IH1, (collapseDashes_keep u _ Hd). split; [reflexivity|].
    rewrite (collapseDashes_cons DASH). rewrite (proj2 (N.eqb_neq u DASH) Hd).
    rewrite andb_false_r, (collapseDashes_keep u _ Hd). reflexivity.
  - change 45%N with DASH. rewrite IH2. split; [reflexivity|].
    rewrite (collapseDashes_cons DASH (DASH :: _)). rewrite N.eqb_refl. reflexivity.
Qed.

Lemma dropLeadingDashes_head (s : jsstring) :
  headNotDash s -> Spec.dropLeadingDashes s = s.
Proof.
  destruct s as [|u r]; [reflexivity|]. simpl. intros Hu.
  change 45%N with DASH. destruct (N.eqb_spec u DASH); [contradiction | reflexivity].
Qed.

Lemma dropTrailingDashes_removeLastDash (s : jsstring) :
  noDashPair s -> Spec.dropTrailingDashes s = removeLastDash s.
Proof.
  induction s as [|u s IH]; [reflexivity|]. intros H.
  rewrite removeLastDash_cons. cbn [Spec.dropTrailingDashes]. change 45%N with DASH.
  destruct s as [|v r]; [reflexivity|].
  destruct H as [Hp Hr]. rewrite (IH Hr).
  destruct (removeLastDash (v :: r)) as [|w t] eqn:E; [|reflexivity].
  rewrite removeLastDash_cons in E. destruct r as [|w r']; [|discriminate].
  destruct (N.eqb_spec v DASH) as [Ev|Hv]; [|discriminate].
  destruct (N.eqb_spec u DASH) as [Eu|Hu]; [|reflexivity].
  exfalso. apply Hp. split; assumption.
Qed.

Lemma trim_agrees (s : jsstring) :
  noDashPair s ->
  Spec.dropTrailingDashes (Spec.dropLeadingDashes s) = trimDashes s.
Proof.
  intros H. destruct s as [|u r]; [reflexivity|].
  unfold trimDashes. cbn [Spec.dropLeadingDashes]. change 45%N with DASH.
  destruct (N.eqb_spec u DASH) as [Eu|Hu].
  - assert (Hh : headNotDash r).
    { destruct r as [|v r']; [exact I|]. destruct H as [Hp _]. simpl.
      intros Ev. apply Hp. split; assumption. }
    rewrite (dropLeadingDashes_head _ Hh).
    apply dropTrailingDashes_removeLastDash. eapply noDashPair_tail. exact H.
  - apply dropTrailingDashes_removeLastDash. exact H.
Qed.

Lemma replaceOthers_without_underscore (s : jsstring) :
  95%N ∉ s ->
  replaceOthers s = map (fun u => if Spec.isAlphanumeric u then u else DASH) s.
Proof.
  unfold replaceOthers. induction s as [|u r IH]; [reflexivity|]. intros H.
  apply not_elem_of_cons in H as [Hu Hr]. cbn [map]. rewrite (IH Hr). f_equal.
  unfold isIdUnit. fold (Spec.isAlphanumeric u).
  destruct (Spec.isAlphanumeric u); [reflexivity|]. cbn [orb].
  destruct (N.eqb_spec u 45) as [E|_]; [exact E|].
  destruct (N.eqb_spec u 95) as [E|_]; [congruence | reflexivity].
Qed.

(** On a name whose lowercased form holds no underscore, the id is the
    one that the specification words. *)
Lemma createProjectId_is_slug (toLowerCase : jsstring -> jsstring) (x : jsstring) :
  95%N ∉ toLowerCase x -> createProjectId toLowerCase x = Spec.slug toLowerCase x.
Proof.
  intros H. unfold createProjectId, Spec.slug.
  rewrite (replaceOthers_without_underscore _ H).
  rewrite (proj1 (collapseRuns_collapseDashes (toLowerCase x))).
  symmetry. apply trim_agrees, collapseDashes_noDashPair.
Qed.

(** C7, as it is worded, fails: an underscore is not alphanumeric, and
    the id keeps it where the specification puts a dash. *)
Lemma createProjectId_keeps_underscore :
  createProjectId (map lowerAscii) (lit "my_app") = lit "my_app"
  /\ Spec.slug (map lowerAscii) (lit "my_app") = lit "my-app"
  /\ createProjectId (map lowerAscii) (lit "my_app")
     <> Spec.slug (map lowerAscii) (lit "my_app").
Proof. split; [|split]; vm_compute; [reflexivity | reflexivity | discriminate]. Qed.

(** C7, amended.  The project id is a function of the directory name
    alone, and taking the id of an id changes nothing.  The id is made
    of the code units of [[a-z0-9-_]]: the name is lowercased and every
    other code unit becomes a dash, the underscore being kept; it holds
    no two dashes in a row and neither starts nor ends with a dash.  On
    a name without underscore it is the id that the specification
    words, and [My Cool App!] gives [my-cool-app].  [toLowerCase] is
    any function that lowers ASCII strings as the language says. *)
Theorem createProjectId_idempotent (toLowerCase : jsstring -> jsstring) :
  lowersAscii toLowerCase ->
  (forall x : jsstring,
      createProjectId toLowerCase (createProjectId toLowerCase x)
      = createProjectId toLowerCase x)
  /\ (forall x : jsstring,
        let slug := createProjectId toLowerCase x in
        Forall (fun u => isIdUnit u = true) slug
        /\ noDashPair slug /\ headNotDash slug /\ last slug <> Some DASH)
  /\ (forall x : jsstring,
        95%N ∉ toLowerCase x ->
        createProjectId toLowerCase x = Spec.slug toLowerCase x)
  /\ createProjectId toLowerCase (lit "My Cool App!") = lit "my-cool-app".
Proof.
  intros Hlow.
  assert (Shape : forall x, exists w,
             createProjectId toLowerCase x = removeLastDash w
             /\ noDashPair w /\ headNotDash w).
  { intros x. unfold createProjectId. apply trimDashes_shape, collapseDashes_noDashPair. }
  split; [|split; [|split; [apply createProjectId_is_slug|]]].
  - intros x. destruct (Shape x) as (w & E & Hp & Hh).
    apply createProjectId_fixed.
    + exact Hlow.
    + apply createProjectId_units.
    + rewrite E. apply removeLastDash_noDashPair, Hp.
    + rewrite E. rewrite trimDashes_headNotDash by (apply removeLastDash_head, Hh).
      apply removeLastDash_twice, Hp.
  - intros x slug. subst slug. destruct (Shape x) as (w & E & Hp & Hh).
    split; [apply createProjectId_units|]. rewrite E.
    split; [apply removeLastDash_noDashPair, Hp|].
    split; [apply removeLastDash_head, Hh | apply removeLastDash_last, Hp].
  - unfold createProjectId. rewrite Hlow; [vm_compute; reflexivity|].
    vm_compute. repeat constructor.
Qed.

(** A model of [toLowerCase] for ASCII strings. *)
Lemma map_lowerAscii_lowersAscii : lowersAscii (map lowerAscii).
Proof. intros s _. reflexivity. Qed.

Lemma createProjectId_idempotent_witness :
  lowersAscii (map lowerAscii)
  /\ createProjectId (map lowerAscii)
       (createProjectId (map lowerAscii) (lit "--Hello, World_2--"))
     = lit "hello-world_2".
Proof.
  split; [exact map_lowerAscii_lowersAscii|].
  rewrite (proj1 (createProjectId_idempotent (map lowerAscii) map_lowerAscii_lowersAscii)).
  vm_compute. reflexivity.
Defined.

(** ** C8: the remote URL *)

Lemma stripPrefix_app (p s : jsstring) : stripPrefix p (p ++ s) = Some s.
Proof.
  induction p as [|a p IH]; simpl; [reflexivity|]. rewrite N.eqb_refl. exact IH.
Qed.

Lemma stripSuffix_app (p s : jsstring) : stripSuffix p (s ++ p) = Some s.
Proof.
  unfold stripSuffix. rewrite rev_app_distr, stripPrefix_app, rev_involutive. reflexivity.
Qed.

Lemma splitAt_app (u : N) (before after : jsstring) :
  u ∉ before -> splitAt u (before ++ u :: after) = (before, u :: after).
Proof.
  induction before as [|a s IH]; simpl; intros H.
  - rewrite N.eqb_refl. reflexivity.
  - apply not_elem_of_cons in H as [Ha Hs].
    destruct (N.eqb_spec a u) as [E|_]; [congruence|].
    rewrite (IH Hs). reflexivity.
Qed.

(** The SSH form [git@host:rest.git] becomes [https://host/rest]. *)
Lemma normalizeRemoteUrl_ssh (host rest : jsstring) :
  host <> [] -> 58%N ∉ host ->
  normalizeRemoteUrl (lit "git@" ++ host ++ 58%N :: rest ++ lit ".git")
  = lit "https://" ++ host ++ lit "/" ++ rest.
Proof.
  intros Hne Hcolon. unfold normalizeRemoteUrl, startsWith.
  rewrite stripPrefix_app. unfold replaceSshPrefix.
  rewrite stripPrefix_app, (splitAt_app _ _ _ Hcolon).
  destruct host as [|a host']; [congruence|].
  cbv beta iota. unfold removeGitSuffix.
  replace (lit "https://" ++ (a :: host') ++ lit "/" ++ rest ++ lit ".git")
    with ((lit "https://" ++ (a :: host') ++ lit "/" ++ rest) ++ lit ".git")
    by (rewrite <- !app_assoc; reflexivity).
  rewrite stripSuffix_app. reflexivity.
Qed.

(** An HTTPS URL loses a final [.git]. *)
Lemma normalizeRemoteUrl_https (rest : jsstring) :
  normalizeRemoteUrl (lit "https://" ++ rest ++ lit ".git") = lit "https://" ++ rest.
Proof.
  unfold normalizeRemoteUrl.
  replace (startsWith (lit "https://" ++ rest ++ lit ".git") (lit "git@")) with false
    by reflexivity.
  unfold startsWith at 1. rewrite stripPrefix_app. simpl orb. cbv iota.
  unfold removeGitSuffix. rewrite app_assoc, stripSuffix_app. reflexivity.
Qed.

Lemma find_origin_first (before after : list RemoteWithRefs) (o : RemoteWithRefs) :
  Forall (fun r => remote_name r <> lit "origin") before ->
  remote_name o = lit "origin" ->
  originOrFirst (before ++ o :: after) = Some o.
Proof.
  intros Hb Ho. unfold originOrFirst.
  assert (E : List.find (fun r => bool_decide (remote_name r = lit "origin"))
                (before ++ o :: after) = Some o).
  { induction Hb as [|r before Hr _ IH]; simpl.
    - rewrite bool_decide_eq_true_2 by exact Ho. reflexivity.
    - rewrite bool_decide_eq_false_2 by exact Hr. exact IH. }
  rewrite E. reflexivity.
Qed.

Lemma find_origin_none (remotes : list RemoteWithRefs) :
  Forall (fun r => remote_name r <> lit "origin") remotes ->
  originOrFirst remotes = head remotes.
Proof.
  intros H. unfold originOrFirst.
  assert (E : List.find (fun r => bool_decide (remote_name r = lit "origin")) remotes = None).
  { induction H as [|r remotes Hr _ IH]; simpl; [reflexivity|].
    rewrite bool_decide_eq_false_2 by exact Hr. exact IH. }
  rewrite E. reflexivity.
Qed.

(** Unfolding of the monad, to run a computation on given oracle results. *)
Ltac run_eff := unfold try_catch, bind, await, ret; simpl.

(** C8.  [getGitRemoteUrl] never throws, and a [null] URL always comes
    with an error text that is not empty.  In a repository it takes the
    first remote named [origin], or the first remote when none is named
    so, and returns its fetch URL normalized; with no remote, or outside
    a repository, the URL is [null].  [git@github.com:owner/repo.git]
    and [https://github.com/owner/repo.git] both normalize to
    [https://github.com/owner/repo]. *)
Theorem getGitRemoteUrl_spec :
  (forall (h : Host) (p : jsstring) (c : Clock),
      exists r, getGitRemoteUrl h p c = (Returned r, c)
                /\ (url r = None -> exists e, error r = Some e /\ e <> []))
  /\ (forall (h : Host) (p : jsstring) (c : Clock) before o after,
        git_open h p = Returned () ->
        git_checkIsRepo h p = Returned true ->
        git_getRemotes h p = Returned (before ++ o :: after) ->
        Forall (fun r => remote_name r <> lit "origin") before ->
        remote_name o = lit "origin" ->
        refs_fetch o <> [] ->
        getGitRemoteUrl h p c
        = (Returned {| url := Some (normalizeRemoteUrl (refs_fetch o)); error := None |}, c))
  /\ (forall (h : Host) (p : jsstring) (c : Clock) first others,
        git_open h p = Returned () ->
        git_checkIsRepo h p = Returned true ->
        git_getRemotes h p = Returned (first :: others) ->
        Forall (fun r => remote_name r <> lit "origin") (first :: others) ->
        refs_fetch first <> [] ->
        getGitRemoteUrl h p c
        = (Returned {| url := Some (normalizeRemoteUrl (refs_fetch first)); error := None |}, c))
  /\ (forall (h : Host) (p : jsstring) (c : Clock),
        git_open h p = Returned () ->
        git_checkIsRepo h p = Returned true ->
        git_getRemotes h p = Returned [] ->
        getGitRemoteUrl h p c
        = (Returned {| url := None; error := Some (lit "No remote found") |}, c))
  /\ (forall (h : Host) (p : jsstring) (c : Clock),
        git_open h p = Returned () ->
        git_checkIsRepo h p = Returned false ->
        getGitRemoteUrl h p c
        = (Returned {| url := None; error := Some (lit "Not a Git repository") |}, c))
  /\ normalizeRemoteUrl (lit "git@github.com:owner/repo.git")
     = lit "https://github.com/owner/repo"
  /\ normalizeRemoteUrl (lit "https://github.com/owner/repo.git")
     = lit "https://github.com/owner/repo".
Proof.
  split; [|split; [|split; [|split; [|split; [|split]]]]].
  - intros h p c. unfold getGitRemoteUrl. run_eff.
    destruct (git_open h p) as [[]|e1]; simpl;
      [|eexists; split; [reflexivity|]; simpl; intros _; eexists; split;
        [reflexivity | discriminate]].
    destruct (git_checkIsRepo h p) as [[|]|e2]; simpl;
      [| eexists; split; [reflexivity|]; simpl; intros _; eexists; split;
         [reflexivity | discriminate]
       | eexists; split; [reflexivity|]; simpl; intros _; eexists; split;
         [reflexivity | discriminate]].
    destruct (git_getRemotes h p) as [remotes|e3]; simpl;
      [|eexists; split; [reflexivity|]; simpl; intros _; eexists; split;
        [reflexivity | discriminate]].
    destruct (originOrFirst remotes) as [o|]; simpl;
      [|eexists; split; [reflexivity|]; simpl; intros _; eexists; split;
        [reflexivity | discriminate]].
    destruct (truthy (refs_fetch o)); simpl; eexists; (split; [reflexivity|]); simpl.
    + discriminate.
    + intros _. eexists; split; [reflexivity | discriminate].
  - intros h p c before o after H1 H2 H3 Hb Ho Hf. unfold getGitRemoteUrl. run_eff.
    rewrite H1, H2. simpl. rewrite H3. simpl.
    rewrite (find_origin_first _ _ _ Hb Ho).
    destruct (refs_fetch o); [congruence | reflexivity].
  - intros h p c first others H1 H2 H3 Hn Hf. unfold getGitRemoteUrl. run_eff.
    rewrite H1, H2. simpl. rewrite H3. simpl.
    rewrite (find_origin_none _ Hn). simpl.
    destruct (refs_fetch first); [congruence | reflexivity].
  - intros h p c H1 H2 H3. unfold getGitRemoteUrl. run_eff.
    rewrite H1, H2. simpl. rewrite H3. reflexivity.
  - intros h p c H1 H2. unfold getGitRemoteUrl. run_eff.
    rewrite H1, H2. reflexivity.
  - vm_compute. reflexivity.
  - vm_compute. reflexivity.
Qed.

(** ** Running the computations *)

Lemma Promise_all_map_pure {A B} (f : A -> Eff B) (g : A -> B) (xs : list A) (c : Clock) :
  (forall x c', f x c' = (Returned (g x), c')) ->
  Promise_all_map f xs c = (Returned (map g xs), c).
Proof.
  intros Hf. induction xs as [|x xs IH]; simpl; [reflexivity|].
  unfold bind at 1. rewrite Hf. unfold bind at 1. rewrite IH. reflexivity.
Qed.

Lemma laterClock_refl (c : Clock) : laterClock c c.
Proof. split; [reflexivity | lia]. Qed.

Lemma laterClock_trans (c1 c2 c3 : Clock) :
  laterClock c1 c2 -> laterClock c2 c3 -> laterClock c1 c3.
Proof. intros [E1 L1] [E2 L2]. split; [congruence | lia]. Qed.

Lemma laterClock_advance (c : Clock) : laterClock c (advance c).
Proof. split; [reflexivity | simpl; lia]. Qed.

(** When the callback always returns, so does [Promise.all], with one
    result for each element, in order; [P] relates an element, the
    clocks before and after its callback, and its result. *)
Lemma Promise_all_map_returns {A B} (f : A -> Eff B)
      (P : A -> Clock -> B -> Clock -> Prop) (xs : list A) (c : Clock) :
  (forall x c1, exists y c2, f x c1 = (Returned y, c2) /\ laterClock c1 c2 /\ P x c1 y c2) ->
  exists ys c',
    Promise_all_map f xs c = (Returned ys, c')
    /\ laterClock c c'
    /\ Forall2 (fun x y => exists c1 c2,
                    laterClock c c1 /\ laterClock c1 c2 /\ laterClock c2 c' /\ P x c1 y c2)
               xs ys.
Proof.
  intros Hf. revert c. induction xs as [|x xs IH]; intros c.
  - exists [], c. split; [reflexivity|]. split; [apply laterClock_refl | constructor].
  - destruct (Hf x c) as (y & c2 & E & L & HP).
    destruct (IH c2) as (ys & c' & E' & L' & HF).
    exists (y :: ys), c'. simpl. unfold bind at 1. rewrite E.
    unfold bind at 1. rewrite E'. split; [reflexivity|].
    split; [eapply laterClock_trans; eassumption|].
    constructor.
    + exists c, c2. auto using laterClock_refl.
    + eapply Forall2_impl; [exact HF|]. intros x' y' (c1 & c3 & La & Lb & Lc & HP').
      exists c1, c3. split; [eapply laterClock_trans; eassumption | auto].
Qed.

Lemma existsb_of_map {A} (g : A -> bool) (xs : list A) :
  existsb (fun b => b) (map g xs) = existsb g xs.
Proof. induction xs as [|x xs IH]; simpl; [reflexivity | rewrite IH; reflexivity]. Qed.

Lemma fileExists_run (h : Host) (filePath : jsstring) (c : Clock) :
  fileExists h filePath c = (Returned (accessible h filePath), c).
Proof.
  unfold fileExists, accessible. run_eff. destruct (fs_access h filePath); reflexivity.
Qed.

Lemma isProjectDirectory_run (h : Host) (dirPath : jsstring) (c : Clock) :
  isProjectDirectory h dirPath c
  = (Returned (existsb (fun indicator => accessible h (path_join h dirPath indicator))
                       projectIndicators), c).
Proof.
  unfold isProjectDirectory. unfold bind at 1.
  rewrite (Promise_all_map_pure _
             (fun indicator => accessible h (path_join h dirPath indicator)))
    by (intros; apply fileExists_run).
  unfold ret. rewrite existsb_of_map. reflexivity.
Qed.

Lemma noIndicator_existsb (h : Host) (dirPath : jsstring) :
  noIndicator h dirPath ->
  existsb (fun indicator => accessible h (path_join h dirPath indicator)) projectIndicators
  = false.
Proof.
  unfold noIndicator. induction 1 as [|i l Hi _ IH]; simpl; [reflexivity|].
  rewrite Hi, IH. reflexivity.
Qed.

Lemma getProjectDescription_run (h : Host) (dirPath : jsstring) (c : Clock) :
  exists d, getProjectDescription h dirPath c = (Returned d, c).
Proof.
  unfold getProjectDescription. unfold try_catch, bind at 1. rewrite fileExists_run.
  destruct (accessible h _); simpl; [|eexists; reflexivity].
  run_eff. destruct (fs_readFile h _) as [content|]; simpl; [|eexists; reflexivity].
  destruct (JSON_parse_description h content); eexists; reflexivity.
Qed.

Lemma getProjectTags_run (h : Host) (projectId : jsstring) (c : Clock) :
  exists t, TagStorage.getProjectTags h projectId c = (Returned t, c).
Proof.
  unfold TagStorage.getProjectTags, TagStorage.loadProjectTags. run_eff.
  destruct (fs_readFile h _) as [content|]; simpl; [|eexists; reflexivity].
  destruct (JSON_parse_tags h content); eexists; reflexivity.
Qed.

Lemma determineInitialStatus_run (lastModified : Date) (c : Clock) :
  exists s, determineInitialStatus lastModified c = (Returned s, advance c).
Proof.
  unfold determineInitialStatus, bind, new_Date.
  destruct (num_le _ _); [eexists; reflexivity|].
  destruct (num_le _ _); eexists; reflexivity.
Qed.

Lemma bind_run {A B} (m : Eff A) (k : A -> Eff B) (c c' : Clock) (a : A) :
  m c = (Returned a, c') -> bind m k c = k a c'.
Proof. intros E. unfold bind. rewrite E. reflexivity. Qed.

Lemma bind_throw {A B} (m : Eff A) (k : A -> Eff B) (c c' : Clock) (e : thrown) :
  m c = (Threw e, c') -> bind m k c = (Threw e, c').
Proof. intros E. unfold bind. rewrite E. reflexivity. Qed.

Lemma try_catch_run {A} (body : Eff A) (handler : thrown -> Eff A) (c c' : Clock) (a : A) :
  body c = (Returned a, c') -> try_catch body handler c = (Returned a, c').
Proof. intros E. unfold try_catch. rewrite E. reflexivity. Qed.

Lemma try_catch_throw {A} (body : Eff A) (handler : thrown -> Eff A) (c c' : Clock)
      (e : thrown) :
  body c = (Threw e, c') -> try_catch body handler c = handler e c'.
Proof. intros E. unfold try_catch. rewrite E. reflexivity. Qed.

(** [scanProject] fails exactly when [stat] fails, with what [stat] threw. *)
Lemma scanProject_throw (h : Host) (dirPath name : jsstring) (c : Clock) (e : thrown) :
  fs_stat h dirPath = Threw e -> scanProject h dirPath name c = (Threw e, c).
Proof.
  intros E. unfold scanProject. apply bind_throw. unfold await. rewrite E. reflexivity.
Qed.

Lemma scanProject_run (h : Host) (dirPath dirName : jsstring) (c : Clock) (stats : Stats) :
  fs_stat h dirPath = Returned stats ->
  exists p,
    scanProject h dirPath dirName c = (Returned p, advance c)
    /\ id p = createProjectId (String_toLowerCase h) dirName
    /\ name p = dirName
    /\ path p = dirPath
    /\ lastModified p = mtime stats
    /\ hasPackageJson p = accessible h (path_join h dirPath (lit "package.json"))
    /\ gitInfo p = None.
Proof.
  intros E. unfold scanProject.
  destruct (getProjectDescription_run h dirPath c) as [d Ed].
  destruct (getProjectTags_run h (createProjectId (String_toLowerCase h) dirName) c) as [t Et].
  destruct (determineInitialStatus_run (mtime stats) c) as [s Es].
  eexists. split.
  - erewrite bind_run by (unfold await; rewrite E; reflexivity).
    erewrite bind_run
      by (apply (Promise_all_map_pure _ (accessible h)); intros; apply fileExists_run).
    erewrite bind_run by apply fileExists_run.
    erewrite bind_run by exact Ed.
    erewrite bind_run by exact Et.
    erewrite bind_run by exact Es.
    reflexivity.
  - repeat split.
Qed.

Lemma scanEntry_run (h : Host) (root : jsstring) (dir : Dirent) (c : Clock) :
  exists r c',
    scanEntry h root dir c = (Returned r, c') /\ laterClock c c' /\ scannedAs h root dir r.
Proof.
  unfold scanEntry, scannedAs.
  set (fullPath := join h root (dirent_name dir)).
  change (path_join h root (dirent_name dir)) with fullPath.
  destruct (fs_stat h fullPath) as [stats|e] eqn:E.
  - destruct (scanProject_run h fullPath (dirent_name dir) c stats E)
      as (p & Ep & Hid & Hname & Hpath & Hmod & _ & Hgit).
    destruct (existsb (fun indicator => accessible h (path_join h fullPath indicator))
                      projectIndicators) eqn:Hind.
    + exists (ProjectScanResult p), (advance c).
      split; [|split; [apply laterClock_advance|]].
      * apply try_catch_run.
        erewrite bind_run by apply isProjectDirectory_run. rewrite Hind. simpl.
        erewrite bind_run by exact Ep. reflexivity.
      * exists p. repeat split; auto.
        intros Hno. rewrite (noIndicator_existsb _ _ Hno) in Hind. discriminate.
    + exists (ProjectScanResult (setStatus p unknown)), (advance c).
      split; [|split; [apply laterClock_advance|]].
      * apply try_catch_run.
        erewrite bind_run by apply isProjectDirectory_run. rewrite Hind. simpl.
        erewrite bind_run by exact Ep. reflexivity.
      * exists (setStatus p unknown). repeat split; auto.
  - eexists _, c. split; [|split; [apply laterClock_refl | reflexivity]].
    erewrite try_catch_throw; [reflexivity|].
    erewrite bind_run by apply isProjectDirectory_run.
    destruct (negb _); (eapply bind_throw; apply scanProject_throw; exact E).
Qed.

(** A root that is a listed directory: one result for each entry kept,
    in the order of the listing, and no exception. *)
Lemma scanDirectory_run (h : Host) (root : jsstring) (options : ScanOptions)
      (entries : list Dirent) (c : Clock) :
  rootListed h root entries ->
  exists results c',
    scanDirectory h root options c = (Returned results, c')
    /\ laterClock c c'
    /\ Forall2 (scannedAs h root)
               (List.filter (keepEntry (default false (includeHidden options))) entries)
               results.
Proof.
  intros [(stats & Es & Hd) El].
  destruct (Promise_all_map_returns (scanEntry h root)
              (fun dir _ r _ => scannedAs h root dir r)
              (List.filter (keepEntry (default false (includeHidden options))) entries) c)
    as (results & c' & E & L & HF).
  { intros dir c1. destruct (scanEntry_run h root dir c1) as (r & c2 & ? & ? & ?).
    exists r, c2. auto. }
  exists results, c'. split; [|split; [exact L|]].
  - unfold scanDirectory.
    erewrite bind_run
      by (apply try_catch_run; erewrite bind_run
            by (unfold await; rewrite Es; reflexivity);
          rewrite Hd; reflexivity).
    cbv beta iota.
    erewrite bind_run
      by (apply try_catch_run; erewrite bind_run
            by (unfold await; rewrite El; reflexivity);
          reflexivity).
    exact E.
  - eapply Forall2_impl; [exact HF|]. intros dir r (? & ? & _ & _ & _ & H). exact H.
Qed.

(** ** C5: errors of the root *)

(** C5.  When [stat] throws on the root, when the root is not a
    directory, and when the root cannot be listed, [scanDirectory] does
    not throw and returns one error, on the path of the root, with a
    text that names the cause; there is no project record. *)
Theorem scanDirectory_root_error (h : Host) (root : jsstring) (options : ScanOptions)
        (c : Clock) :
  (forall e, fs_stat h root = Threw e ->
             scanDirectory h root options c
             = (Returned [ProjectScanError
                            (lit "Cannot access directory: " ++ errorMessage e) root], c))
  /\ (forall stats, fs_stat h root = Returned stats ->
                    stats_isDirectory stats = false ->
                    scanDirectory h root options c
                    = (Returned [ProjectScanError
                                   (lit "Path is not a directory: " ++ root) root], c))
  /\ (forall stats e, fs_stat h root = Returned stats ->
                      stats_isDirectory stats = true ->
                      fs_readdir h root = Threw e ->
                      scanDirectory h root options c
                      = (Returned [ProjectScanError
                                     (lit "Failed to read directory: " ++ errorMessage e)
                                     root], c))
  /\ ((forall entries, ~ rootListed h root entries) ->
      exists text,
        scanDirectory h root options c = (Returned [ProjectScanError text root], c)
        /\ text <> []
        /\ filterSuccessfulScans [ProjectScanError text root] = []
        /\ filterScanErrors [ProjectScanError text root] = [(text, root)]).
Proof.
  assert (A : forall e, fs_stat h root = Threw e ->
                        scanDirectory h root options c
                        = (Returned [ProjectScanError
                                       (lit "Cannot access directory: " ++ errorMessage e)
                                       root], c)).
  { intros e E. unfold scanDirectory.
    erewrite bind_run
      by (erewrite try_catch_throw
            by (eapply bind_throw; unfold await; rewrite E; reflexivity);
          reflexivity).
    reflexivity. }
  assert (B : forall stats, fs_stat h root = Returned stats ->
                            stats_isDirectory stats = false ->
                            scanDirectory h root options c
                            = (Returned [ProjectScanError
                                           (lit "Path is not a directory: " ++ root)
                                           root], c)).
  { intros stats E Hd. unfold scanDirectory.
    erewrite bind_run
      by (apply try_catch_run; erewrite bind_run
            by (unfold await; rewrite E; reflexivity);
          rewrite Hd; reflexivity).
    reflexivity. }
  assert (C : forall stats e, fs_stat h root = Returned stats ->
                              stats_isDirectory stats = true ->
                              fs_readdir h root = Threw e ->
                              scanDirectory h root options c
                              = (Returned [ProjectScanError
                                             (lit "Failed to read directory: "
                                              ++ errorMessage e) root], c)).
  { intros stats e E Hd El. unfold scanDirectory.
    erewrite bind_run
      by (apply try_catch_run; erewrite bind_run
            by (unfold await; rewrite E; reflexivity);
          rewrite Hd; reflexivity).
    cbv beta iota.
    erewrite bind_run
      by (erewrite try_catch_throw
            by (eapply bind_throw; unfold await; rewrite El; reflexivity);
          reflexivity).
    reflexivity. }
  split; [exact A|]. split; [exact B|]. split; [exact C|].
  intros Hnot.
  destruct (fs_stat h root) as [stats|e] eqn:E.
  - destruct (stats_isDirectory stats) eqn:Hd.
    + destruct (fs_readdir h root) as [entries|e] eqn:El.
      * exfalso. apply (Hnot entries). split; [exists stats; auto | exact El].
      * eexists. split; [eapply C; eauto|]. repeat split. discriminate.
    + eexists. split; [eapply B; eauto|]. repeat split. discriminate.
  - eexists. split; [eapply A; eauto|]. repeat split. discriminate.
Qed.

(** ** C9: one result for each entry kept *)

Lemma startsWith_dot (s : jsstring) :
  startsWith s (lit ".") = true <-> head s = Some 46%N.
Proof.
  destruct s as [|a s]; [split; discriminate|].
  change (startsWith (a :: s) (lit "."))
    with (match (if (46 =? a)%N then Some s else None) with
          | Some _ => true
          | None => false
          end).
  cbn [head]. destruct (N.eqb_spec 46 a) as [E|Hne].
  - split; [intros _; congruence | reflexivity].
  - split; [discriminate | intros [= E]; congruence].
Qed.

Lemma keepEntry_iff (includeHidden : bool) (entry : Dirent) :
  keepEntry includeHidden entry = true
  <-> dirent_isDirectory entry = true
      /\ (dirent_name entry ∉ ignoredNames)
      /\ (includeHidden = true \/ head (dirent_name entry) <> Some 46%N).
Proof.
  unfold keepEntry.
  assert (I : dirent_name entry ∈ IGNORED_DIRECTORIES <-> dirent_name entry ∈ ignoredNames)
    by (unfold IGNORED_DIRECTORIES; apply elem_of_list_to_set).
  destruct (dirent_isDirectory entry); simpl; [|split; [discriminate | intros [? _]; discriminate]].
  destruct (bool_decide_reflect (dirent_name entry ∈ IGNORED_DIRECTORIES)) as [Hin|Hout].
  - split; [discriminate|]. intros (_ & Hn & _). exfalso. apply Hn, I, Hin.
  - rewrite I in Hout. destruct includeHidden; simpl.
    + split; auto.
    + destruct (startsWith (dirent_name entry) (lit ".")) eqn:Hs.
      * apply startsWith_dot in Hs. split; [discriminate|].
        intros (_ & _ & [?|Hh]); [discriminate | contradiction].
      * split; [|reflexivity]. intros _. repeat split; auto. right.
        intros Hh. apply startsWith_dot in Hh. congruence.
Qed.

(** C9.  On a root that is a listed directory, [scanDirectory] returns
    one result, a record or an error, for each entry kept, in the order
    of the listing, each about the path of its entry.  An entry is kept
    exactly when it is a directory, its name is not one of the thirteen
    ignored names, whatever [includeHidden] is, and [includeHidden] is
    set or the name does not start with a dot. *)
Theorem scanDirectory_one_result_per_entry (h : Host) (root : jsstring)
        (options : ScanOptions) (entries : list Dirent) (c : Clock) :
  rootListed h root entries ->
  let hidden := default false (includeHidden options) in
  let kept := List.filter (keepEntry hidden) entries in
  (exists results c',
      scanDirectory h root options c = (Returned results, c')
      /\ length results = length kept
      /\ forall (i : nat) (dir : Dirent),
          kept !! i = Some dir ->
          exists r, results !! i = Some r
                    /\ resultPath r = path_join h root (dirent_name dir)
                    /\ (forall p, r = ProjectScanResult p -> name p = dirent_name dir))
  /\ sublist kept entries
  /\ (forall entry,
        entry ∈ kept
        <-> entry ∈ entries
            /\ dirent_isDirectory entry = true
            /\ (dirent_name entry ∉ ignoredNames)
            /\ (hidden = true \/ head (dirent_name entry) <> Some 46%N)).
Proof.
  intros Hroot hidden kept.
  split; [|split].
  - destruct (scanDirectory_run h root options entries c Hroot)
      as (results & c' & E & _ & HF).
    fold hidden in HF. fold kept in HF.
    exists results, c'. split; [exact E|].
    split; [symmetry; eapply Forall2_length; exact HF|].
    intros i dir Hi.
    destruct (Forall2_lookup_l _ _ _ _ _ HF Hi) as (r & Hr & Hs).
    exists r. split; [exact Hr|]. unfold scannedAs in Hs.
    destruct (fs_stat h _) as [stats|e].
    + destruct Hs as (p & -> & Hn & Hp & _). simpl.
      split; [exact Hp|]. intros p' [= <-]. exact Hn.
    + subst r. simpl. split; [reflexivity | discriminate].
  - subst kept. clear. induction entries as [|e l IH]; simpl; [constructor|].
    destruct (keepEntry hidden e); [apply sublist_skip | apply sublist_cons]; exact IH.
  - intros entry. subst kept.
    rewrite <- keepEntry_iff, !list_elem_of_In. apply filter_In.
Qed.

(** ** C4: a failure stays with its entry *)

Lemma scan_counts (h : Host) (root : jsstring) (kept : list Dirent)
      (results : list ScanResult) :
  Forall2 (scannedAs h root) kept results ->
  filterScanErrors results = omap (entryError h root) kept
  /\ length (filterSuccessfulScans results)
     = length (List.filter
                 (fun dir => statSucceeds h (path_join h root (dirent_name dir))) kept).
Proof.
  induction 1 as [|dir r kept results Hs _ [IHe IHs]]; [split; reflexivity|].
  unfold scannedAs in Hs.
  change (omap (entryError h root) (dir :: kept))
    with (match entryError h root dir with
          | Some x => x :: omap (entryError h root) kept
          | None => omap (entryError h root) kept
          end).
  cbn [List.filter]. unfold entryError at 1, statSucceeds at 1.
  destruct (fs_stat h _) as [stats|e].
  - destruct Hs as (p & -> & _).
    change (filterScanErrors (ProjectScanResult p :: results))
      with (filterScanErrors results).
    change (filterSuccessfulScans (ProjectScanResult p :: results))
      with (p :: filterSuccessfulScans results).
    cbn [length]. rewrite IHe, IHs. split; reflexivity.
  - subst r.
    change (filterScanErrors (ProjectScanError ?a ?b :: results))
      with ((a, b) :: filterScanErrors results).
    change (filterSuccessfulScans (ProjectScanError ?a ?b :: results))
      with (filterSuccessfulScans results).
    rewrite IHe, IHs. split; reflexivity.
Qed.

Lemma entryError_none (h : Host) (root : jsstring) (dir : Dirent) :
  statSucceeds h (path_join h root (dirent_name dir)) = true -> entryError h root dir = None.
Proof.
  unfold statSucceeds, entryError. destruct (fs_stat h _); [reflexivity | discriminate].
Qed.

Lemma entryError_some (h : Host) (root : jsstring) (dir : Dirent) (e : thrown) :
  fs_stat h (path_join h root (dirent_name dir)) = Threw e ->
  entryError h root dir
  = Some (lit "Failed to scan project: " ++ errorMessage e,
          path_join h root (dirent_name dir))
  /\ statSucceeds h (path_join h root (dirent_name dir)) = false.
Proof. unfold statSucceeds, entryError. intros ->. split; reflexivity. Qed.

(** C4.  On a root that is a listed directory, an entry on which the
    extraction of the metadata throws gives an error with the path of
    that entry, in the place of its record, and every other entry gives
    its record; the scan does not throw.  With three entries kept of
    which one fails, there are two records and one error, on the path
    of the entry that fails. *)
Theorem scanDirectory_isolates_failures (h : Host) (root : jsstring)
        (options : ScanOptions) (entries : list Dirent) (c : Clock) :
  rootListed h root entries ->
  let kept := List.filter (keepEntry (default false (includeHidden options))) entries in
  let fullPath dir := path_join h root (dirent_name dir) in
  exists results c',
    scanDirectory h root options c = (Returned results, c')
    /\ (forall (i : nat) (dir : Dirent),
          kept !! i = Some dir ->
          (forall e, fs_stat h (fullPath dir) = Threw e ->
                     results !! i
                     = Some (ProjectScanError
                               (lit "Failed to scan project: " ++ errorMessage e)
                               (fullPath dir)))
          /\ (forall stats, fs_stat h (fullPath dir) = Returned stats ->
                            exists p, results !! i = Some (ProjectScanResult p)
                                      /\ name p = dirent_name dir
                                      /\ path p = fullPath dir
                                      /\ lastModified p = mtime stats))
    /\ filterScanErrors results = omap (entryError h root) kept
    /\ length (filterSuccessfulScans results)
       = length (List.filter (fun dir => statSucceeds h (fullPath dir)) kept)
    /\ (forall (d1 d2 d3 bad : Dirent) (i : nat) (e : thrown),
          kept = [d1; d2; d3] ->
          kept !! i = Some bad ->
          fs_stat h (fullPath bad) = Threw e ->
          (forall (j : nat) (d : Dirent),
              j <> i -> kept !! j = Some d -> statSucceeds h (fullPath d) = true) ->
          length (filterSuccessfulScans results) = 2%nat
          /\ filterScanErrors results
             = [(lit "Failed to scan project: " ++ errorMessage e, fullPath bad)]).
Proof.
  intros Hroot kept fullPath. subst fullPath. cbv beta.
  destruct (scanDirectory_run h root options entries c Hroot)
    as (results & c' & E & _ & HF).
  fold kept in HF. exists results, c'. split; [exact E|].
  destruct (scan_counts h root kept results HF) as [He Hs].
  split; [|split; [exact He | split; [exact Hs|]]].
  - intros i dir Hi.
    destruct (Forall2_lookup_l _ _ _ _ _ HF Hi) as (r & Hr & Hsc).
    unfold scannedAs in Hsc. cbv zeta in Hsc. split.
    + intros e Ee. rewrite Ee in Hsc. subst r. exact Hr.
    + intros stats Es. rewrite Es in Hsc.
      destruct Hsc as (p & -> & Hn & Hp & _ & Hm & _). exists p. auto.
  - intros d1 d2 d3 bad i e Hk Hi Hbad Hothers.
    rewrite He, Hs, Hk. rewrite Hk in Hi, Hothers.
    destruct (entryError_some h root bad e Hbad) as [Eb Sb].
    assert (G : forall (j : nat) (d : Dirent),
               j <> i -> [d1; d2; d3] !! j = Some d ->
               entryError h root d = None
               /\ statSucceeds h (path_join h root (dirent_name d)) = true).
    { intros j d Hj Hd. split; [apply entryError_none|]; eapply Hothers; eauto. }
    destruct i as [|[|[|i]]]; simpl in Hi; try discriminate; injection Hi as <-.
    + destruct (G 1%nat d2) as [E2 S2]; [lia | reflexivity|].
      destruct (G 2%nat d3) as [E3 S3]; [lia | reflexivity|].
      cbn [List.filter omap list_omap]. rewrite Eb, E2, E3, Sb, S2, S3. split; reflexivity.
    + destruct (G 0%nat d1) as [E1 S1]; [lia | reflexivity|].
      destruct (G 2%nat d3) as [E3 S3]; [lia | reflexivity|].
      cbn [List.filter omap list_omap]. rewrite Eb, E1, E3, Sb, S1, S3. split; reflexivity.
    + destruct (G 0%nat d1) as [E1 S1]; [lia | reflexivity|].
      destruct (G 1%nat d2) as [E2 S2]; [lia | reflexivity|].
      cbn [List.filter omap list_omap]. rewrite Eb, E1, E2, Sb, S1, S2. split; reflexivity.
Qed.

(** ** The enrichment pass *)

(** [getGitStatus] never throws and does not read the clock. *)
Lemma getGitStatus_pure (h : Host) (projectPath : jsstring) :
  exists r, getStatusReturns h projectPath r.
Proof.
  unfold getStatusReturns, getGitStatus. run_eff.
  destruct (git_open h projectPath) as [[]|e1]; simpl; [|eexists; reflexivity].
  destruct (git_checkIsRepo h projectPath) as [[|]|e2]; simpl; try (eexists; reflexivity).
  destruct (git_status h projectPath) as [st|e3]; simpl; [|eexists; reflexivity].
  destruct (git_log_latest h projectPath) as [latest|e4]; simpl; eexists; reflexivity.
Qed.

Lemma getStatusReturns_unique (h : Host) (projectPath : jsstring)
      (r1 r2 : GetGitStatusResult) :
  getStatusReturns h projectPath r1 -> getStatusReturns h projectPath r2 -> r1 = r2.
Proof.
  intros H1 H2. specialize (H1 (frozenAt 0)). specialize (H2 (frozenAt 0)). congruence.
Qed.

Lemma notARepository_error (h : Host) (projectPath : jsstring) :
  notARepository h projectPath ->
  getStatusReturns h projectPath (GitStatusError (lit "Not a Git repository")).
Proof.
  intros [H1 H2] c. unfold getGitStatus. run_eff. rewrite H1, H2. reflexivity.
Qed.

Lemma introspectionThrows_error (h : Host) (projectPath : jsstring) (e : thrown) :
  introspectionThrows h projectPath e ->
  getStatusReturns h projectPath
    (GitStatusError (lit "Failed to get Git status: " ++ errorMessage e)).
Proof.
  intros H c. unfold getGitStatus. run_eff.
  destruct H as [H1|[H1 [H2|[H2 [H3|(st & H3 & H4)]]]]].
  - rewrite H1. reflexivity.
  - rewrite H1, H2. reflexivity.
  - rewrite H1, H2. simpl. rewrite H3. reflexivity.
  - rewrite H1, H2. simpl. rewrite H3, H4. reflexivity.
Qed.

Lemma enrichProject_error (h : Host) (p : Project) (c : Clock) (text : jsstring) :
  getStatusReturns h (path p) (GitStatusError text) ->
  enrichProject h p c = (Returned p, c).
Proof.
  intros H. unfold enrichProject. erewrite bind_run by apply H. reflexivity.
Qed.

(** With repository information the callback reads the clock for the
    argument of [determineProjectStatus], which reads it again unless
    the repository is dirty. *)
Lemma enrichProject_info (h : Host) (p : Project) (c : Clock) (g : GitInfo) :
  getStatusReturns h (path p) (GitStatusResult g) ->
  enrichProject h p c
  = (Returned (withGitInfo p g
                 (Spec.classify (Some g) (ValidDate (reading c))
                                (ValidDate (reading (advance c))))),
     if isDirty g then advance c else advance (advance c)).
Proof.
  intros H. unfold enrichProject. erewrite bind_run by apply H. cbv beta iota.
  erewrite bind_run by reflexivity.
  erewrite bind_run by apply determineProjectStatus_run. reflexivity.
Qed.

Lemma enrichProject_returns (h : Host) (p : Project) (c : Clock) :
  exists p' c', enrichProject h p c = (Returned p', c') /\ laterClock c c'.
Proof.
  destruct (getGitStatus_pure h (path p)) as [[g|text] H].
  - rewrite (enrichProject_info _ _ _ _ H). eexists _, _. split; [reflexivity|].
    destruct (isDirty g);
      [|eapply laterClock_trans; [|apply laterClock_advance]]; apply laterClock_advance.
  - rewrite (enrichProject_error _ _ _ _ H). eexists _, _.
    split; [reflexivity | apply laterClock_refl].
Qed.

Lemma Promise_all_map_app {A B} (f : A -> Eff B) (xs ys : list A) (c : Clock) :
  Promise_all_map f (xs ++ ys) c
  = bind (Promise_all_map f xs)
         (fun done => bind (Promise_all_map f ys) (fun rest => ret (done ++ rest))) c.
Proof.
  revert c. induction xs as [|x xs IH]; intros c; simpl; unfold bind, ret in *.
  - destruct (Promise_all_map f ys c) as [[rest|e] c']; reflexivity.
  - destruct (f x c) as [[y|e] c1]; [|reflexivity]. rewrite IH.
    destruct (Promise_all_map f xs c1) as [[done|e] c2]; [|reflexivity].
    destruct (Promise_all_map f ys c2) as [[rest|e] c3]; reflexivity.
Qed.

(** The pass never throws; the record at a place is the result of the
    callback on the clock left by the records before it. *)
Lemma enrich_at (h : Host) (before after : list Project) (p : Project) (c : Clock) :
  exists done c1 p' c2 rest c',
    enrichProjectsWithGitInfo h before c = (Returned done, c1)
    /\ length done = length before
    /\ laterClock c c1
    /\ enrichProject h p c1 = (Returned p', c2)
    /\ laterClock c2 c'
    /\ enrichProjectsWithGitInfo h (before ++ p :: after) c
       = (Returned (done ++ p' :: rest), c').
Proof.
  unfold enrichProjectsWithGitInfo.
  destruct (Promise_all_map_returns (enrichProject h) (fun _ _ _ _ => True) before c)
    as (done & c1 & E1 & L1 & F1).
  { intros x c0. destruct (enrichProject_returns h x c0) as (y & c0' & ? & ?). eauto. }
  destruct (enrichProject_returns h p c1) as (p' & c2 & E2 & L2).
  destruct (Promise_all_map_returns (enrichProject h) (fun _ _ _ _ => True) after c2)
    as (rest & c' & E3 & L3 & _).
  { intros x c0. destruct (enrichProject_returns h x c0) as (y & c0' & ? & ?). eauto. }
  exists done, c1, p', c2, rest, c'.
  split; [exact E1|]. split; [symmetry; eapply Forall2_length; exact F1|].
  split; [exact L1|]. split; [exact E2|]. split; [exact L3|].
  rewrite Promise_all_map_app. erewrite bind_run by exact E1.
  simpl. erewrite bind_run; [reflexivity|].
  erewrite bind_run by exact E2. erewrite bind_run by exact E3. reflexivity.
Qed.

(** The record at a place where [getGitStatus] gives an error. *)
Lemma enrich_error_at (h : Host) (ps : list Project) (c : Clock) (i : nat) (p : Project)
      (text : jsstring) :
  ps !! i = Some p ->
  getStatusReturns h (path p) (GitStatusError text) ->
  exists ps' c',
    enrichProjectsWithGitInfo h ps c = (Returned ps', c')
    /\ length ps' = length ps
    /\ ps' !! i = Some p.
Proof.
  intros Hi Herr.
  pose proof (take_drop_middle _ _ _ Hi) as Hsplit.
  destruct (enrich_at h (take i ps) (drop (S i) ps) p c)
    as (done & c1 & p' & c2 & rest & c' & E1 & Ld & _ & Ep & _ & E).
  rewrite Hsplit in E.
  rewrite (enrichProject_error _ _ _ _ Herr) in Ep. injection Ep as <- <-.
  exists (done ++ p :: rest), c'. split; [exact E|].
  assert (Hlen : length done = i).
  { rewrite Ld, length_take. apply lookup_lt_Some in Hi. lia. }
  split.
  - destruct (Promise_all_map_returns (enrichProject h) (fun _ _ _ _ => True) ps c)
      as (ps' & c'' & E' & _ & F).
    { intros x c0. destruct (enrichProject_returns h x c0) as (y & c0' & ? & ?). eauto. }
    unfold enrichProjectsWithGitInfo in E. rewrite E' in E. injection E as <- _.
    symmetry. eapply Forall2_length. exact F.
  - rewrite <- Hlen. apply list_lookup_middle. reflexivity.
Qed.

(** ** C6: records without repository information *)

(** C6.  A record on which [getGitStatus] gives an error comes out of
    the pass as it went in, at the same place: no repository
    information is attached and the status and every other field are
    as the scanner set them.  This is so when a call of [simple-git]
    throws and when the path is confirmed not to be a repository, so
    the same record ends the pass the same in both cases. *)
Theorem enrich_error_unchanged :
  (forall (h : Host) (ps : list Project) (c : Clock) (i : nat) (p : Project)
          (text : jsstring),
      ps !! i = Some p ->
      getStatusReturns h (path p) (GitStatusError text) ->
      exists ps' c',
        enrichProjectsWithGitInfo h ps c = (Returned ps', c')
        /\ length ps' = length ps
        /\ ps' !! i = Some p)
  /\ (forall (h : Host) (projectPath : jsstring) (e : thrown),
        introspectionThrows h projectPath e ->
        getStatusReturns h projectPath
          (GitStatusError (lit "Failed to get Git status: " ++ errorMessage e)))
  /\ (forall (h : Host) (projectPath : jsstring),
        notARepository h projectPath ->
        getStatusReturns h projectPath (GitStatusError (lit "Not a Git repository")))
  /\ (forall (failing plain : Host) (ps : list Project) (c1 c2 : Clock) (i : nat)
             (p : Project) (e : thrown),
        ps !! i = Some p ->
        introspectionThrows failing (path p) e ->
        notARepository plain (path p) ->
        exists out1 out2 c1' c2',
          enrichProjectsWithGitInfo failing ps c1 = (Returned out1, c1')
          /\ enrichProjectsWithGitInfo plain ps c2 = (Returned out2, c2')
          /\ out1 !! i = Some p
          /\ out2 !! i = Some p).
Proof.
  split; [|split; [|split]].
  - intros h ps c i p text. apply enrich_error_at.
  - exact introspectionThrows_error.
  - exact notARepository_error.
  - intros failing plain ps c1 c2 i p e Hi Hf Hp.
    destruct (enrich_error_at failing ps c1 i p _ Hi (introspectionThrows_error _ _ _ Hf))
      as (out1 & c1' & E1 & _ & L1).
    destruct (enrich_error_at plain ps c2 i p _ Hi (notARepository_error _ _ Hp))
      as (out2 & c2' & E2 & _ & L2).
    exists out1, out2, c1', c2'. auto.
Qed.

(** ** C2: the instant of the classification *)

Import Examples.

(** C2, as it is worded, fails.  Two records of repositories with the
    same clean state, the same last commit and the same modification
    date come out of one pass with two statuses, the clock passing the
    seventh day between them: no single instant classifies both. *)
Lemma enrich_no_single_instant :
  exists out,
    (enrichProjectsWithGitInfo twins twinProjects (tickingBefore (DAYS 7))).1 = Returned out
    /\ Forall (fun p => getStatusReturns twins (path p) (GitStatusResult twinInfo))
              twinProjects
    /\ ~ exists now : Date,
           Forall2 (fun p p' =>
                      status p' = Spec.classify (Some twinInfo) (lastModified p) now)
                   twinProjects out.
Proof.
  eexists. split; [vm_compute; reflexivity|]. split.
  - repeat constructor.
  - intros [now H].
    inversion H as [|p1 q1 l1 m1 H1 T1]; subst.
    inversion T1 as [|p2 q2 l2 m2 H2 T2]; subst.
    assert (active = clean) by (etransitivity; [exact H1 | symmetry; exact H2]).
    discriminate.
Qed.

(** The date that the pass gives to [determineProjectStatus] as the
    modification date is a reading of the clock: a clean repository
    without a last commit date, last modified forty days ago, comes out
    active, where the classification on its modification date is stale. *)
Lemma enrich_fallback_is_clock :
  let p := scanned "old" "/w/old" (NOW - DAYS 40) stale in
  getStatusReturns withoutCommit (path p) (GitStatusResult infoWithoutCommit)
  /\ (enrichProjectsWithGitInfo withoutCommit [p] (frozenAt NOW)).1
     = Returned [withGitInfo p infoWithoutCommit active]
  /\ Spec.classify (Some infoWithoutCommit) (lastModified p) (ValidDate NOW) = stale.
Proof.
  split; [intros c; reflexivity|]. split; vm_compute; reflexivity.
Qed.

(** C2, amended.  A record for which [getGitStatus] returns repository
    information gets that information attached and its status
    recomputed, at its place in the list and with its other fields
    unchanged.  The status is dirty when the repository is dirty.
    Otherwise, when the repository has a last commit date, the status
    is the classification of section 4.2 at a reading of the clock made
    during the pass, after its first reading and before its end: the
    clock is read for the record, not once at the start of the pass.
    Which reading of the pass it is depends on when the calls of
    [simple-git] for the record complete, and is left open. *)
Theorem enrich_classifies_at_own_reading (h : Host) (ps : list Project) (i : nat)
        (p : Project) (g : GitInfo) (c : Clock) :
  ps !! i = Some p ->
  getStatusReturns h (path p) (GitStatusResult g) ->
  exists out c' p',
    enrichProjectsWithGitInfo h ps c = (Returned out, c')
    /\ length out = length ps
    /\ out !! i = Some p'
    /\ p' = withGitInfo p g (status p')
    /\ (isDirty g = true -> status p' = dirty)
    /\ (isDirty g = false ->
        forall d, lastCommitDate g = Some d ->
                  exists k : nat,
                    (tick c < k < tick c')%nat
                    /\ status p'
                       = Spec.classify (Some g) (lastModified p)
                                       (ValidDate (readingAt c k))).
Proof.
  intros Hi Hg.
  pose proof (take_drop_middle _ _ _ Hi) as Hsplit.
  destruct (enrich_at h (take i ps) (drop (S i) ps) p c)
    as (done & c1 & p' & c2 & rest & c' & _ & Ld & [Lr Lt] & Ep & [_ Lt'] & E).
  rewrite Hsplit in E.
  rewrite (enrichProject_info _ _ _ _ Hg) in Ep. injection Ep as <- Ec2.
  assert (Hlen : length done = i).
  { rewrite Ld, length_take. apply lookup_lt_Some in Hi. lia. }
  eexists (done ++ _ :: rest), c', _. split; [exact E|]. split.
  { destruct (Promise_all_map_returns (enrichProject h) (fun _ _ _ _ => True) ps c)
      as (out & c'' & E' & _ & F).
    { intros x c0. destruct (enrichProject_returns h x c0) as (y & c0' & ? & ?). eauto. }
    unfold enrichProjectsWithGitInfo in E. rewrite E in E'. injection E' as <- _.
    symmetry. eapply Forall2_length. exact F. }
  split; [rewrite <- Hlen; apply list_lookup_middle; reflexivity|].
  split; [reflexivity|]. cbn [status withGitInfo]. split.
  - intros Hd. unfold Spec.classify. rewrite Hd. reflexivity.
  - intros Hd d Hc. rewrite Hd in Ec2. subst c2. cbn [tick advance] in Lt'.
    exists (S (tick c1)). split; [lia|].
    unfold Spec.classify. rewrite Hd, Hc.
    unfold reading, advance. cbn [tick readingAt]. rewrite Lr. reflexivity.
Qed.

(** The amended statement on the second of the two repositories of the
    example. *)
Lemma enrich_classifies_at_own_reading_witness :
  twinProjects !! 1%nat = Some (scanned "b" "/w/b" (DAYS 3) active)
  /\ getStatusReturns twins (lit "/w/b") (GitStatusResult twinInfo)
  /\ exists out c' p',
       enrichProjectsWithGitInfo twins twinProjects (tickingBefore (DAYS 7))
       = (Returned out, c')
       /\ out !! 1%nat = Some p'
       /\ exists k : nat,
           (0 < k < tick c')%nat
           /\ status p'
              = Spec.classify (Some twinInfo) (ValidDate (DAYS 3))
                              (ValidDate (DAYS 7 - 1 + Z.of_nat k)).
Proof.
  split; [reflexivity|]. split; [intros c; reflexivity|].
  destruct (enrich_classifies_at_own_reading twins twinProjects 1
              (scanned "b" "/w/b" (DAYS 3) active) twinInfo (tickingBefore (DAYS 7))
              eq_refl (fun c => eq_refl))
    as (out & c' & p' & E & _ & Ho & _ & _ & Hs).
  exists out, c', p'. split; [exact E|]. split; [exact Ho|].
  exact (Hs eq_refl _ eq_refl).
Defined.

(** ** C3: directories without an indicator *)

Lemma filterSuccessfulScans_middle (before after : list ScanResult) (p : Project) :
  filterSuccessfulScans (before ++ ProjectScanResult p :: after)
  = filterSuccessfulScans before ++ p :: filterSuccessfulScans after.
Proof. unfold filterSuccessfulScans. rewrite omap_app. reflexivity. Qed.

Lemma classify_with_info (g : GitInfo) (lastModified now : Date) :
  Spec.classify (Some g) lastModified now <> unknown.
Proof.
  unfold Spec.classify, Spec.byRecency. destruct (isDirty g); [discriminate|].
  destruct (Spec.daysSince now _) as [d|]; [|discriminate].
  destruct (Qle_bool d (inject_Z 7)); [discriminate|].
  destruct (negb (Qle_bool d (inject_Z 30))); discriminate.
Qed.

(** C3, as it is worded, fails.  The directory [scratch] holds no
    indicator and was changed forty days ago; it lies in the work tree
    of a repository last committed forty days ago, so [getGitStatus]
    returns repository information for it.  Its record is unknown after
    the scan, and stale after the scan and the enrichment. *)
Lemma unindicated_directory_becomes_stale :
  exists results c1 p enriched c2 p',
    scanDirectory MoreExamples.nestedWorkTree (lit "/repo") noOptions (frozenAt NOW)
    = (Returned results, c1)
    /\ results = [ProjectScanResult p]
    /\ name p = lit "scratch"
    /\ noIndicator MoreExamples.nestedWorkTree (path p)
    /\ lastModified p = ValidDate (NOW - DAYS 40)
    /\ status p = unknown
    /\ enrichProjectsWithGitInfo MoreExamples.nestedWorkTree
                                 (filterSuccessfulScans results) c1
       = (Returned enriched, c2)
    /\ enriched = [p']
    /\ name p' = lit "scratch"
    /\ status p' = stale.
Proof.
  eexists _, _, _, _, _, _.
  split; [vm_compute; reflexivity|]. split; [reflexivity|].
  split; [reflexivity|]. split; [unfold noIndicator; vm_compute; repeat constructor|].
  split; [reflexivity|]. split; [reflexivity|].
  split; [vm_compute; reflexivity|]. split; [reflexivity|].
  split; reflexivity.
Qed.

(** C3, amended.  An entry kept by the scan in which none of the
    indicator files is found, and on which [stat] succeeds, gives a
    record, and the status of the record is unknown whatever the
    modification date is.  When [getGitStatus] gives an error for it,
    as it does for a directory that is not a repository, the enrichment
    pass returns the record as it is, so the status is still unknown
    after the scan and the enrichment.  When [getGitStatus] returns
    repository information for it, the pass attaches the information
    and recomputes the status as for every record: the status is then
    dirty, active, stale or clean, and not unknown. *)
Theorem unindicated_directory_is_unknown (h : Host) (root : jsstring)
        (options : ScanOptions) (entries : list Dirent) (c : Clock)
        (i : nat) (dir : Dirent) (stats : Stats) :
  rootListed h root entries ->
  List.filter (keepEntry (default false (includeHidden options))) entries !! i = Some dir ->
  noIndicator h (path_join h root (dirent_name dir)) ->
  fs_stat h (path_join h root (dirent_name dir)) = Returned stats ->
  exists results c1 p,
    scanDirectory h root options c = (Returned results, c1)
    /\ results !! i = Some (ProjectScanResult p)
    /\ name p = dirent_name dir
    /\ path p = path_join h root (dirent_name dir)
    /\ lastModified p = mtime stats
    /\ status p = unknown
    /\ (forall text,
          getStatusReturns h (path p) (GitStatusError text) ->
          exists enriched c2 j,
            enrichProjectsWithGitInfo h (filterSuccessfulScans results) c1
            = (Returned enriched, c2)
            /\ filterSuccessfulScans results !! j = Some p
            /\ enriched !! j = Some p)
    /\ (forall g,
          getStatusReturns h (path p) (GitStatusResult g) ->
          exists enriched c2 j p',
            enrichProjectsWithGitInfo h (filterSuccessfulScans results) c1
            = (Returned enriched, c2)
            /\ filterSuccessfulScans results !! j = Some p
            /\ enriched !! j = Some p'
            /\ p' = withGitInfo p g (status p')
            /\ (isDirty g = true -> status p' = dirty)
            /\ status p' <> unknown).
Proof.
  intros Hroot Hi Hno Hstat.
  destruct (scanDirectory_run h root options entries c Hroot)
    as (results & c1 & E & _ & HF).
  destruct (Forall2_lookup_l _ _ _ _ _ HF Hi) as (r & Hr & Hs).
  unfold scannedAs in Hs. cbv zeta in Hs. rewrite Hstat in Hs.
  destruct Hs as (p & -> & Hn & Hp & _ & Hm & _ & Hu).
  exists results, c1, p. split; [exact E|]. split; [exact Hr|].
  split; [exact Hn|]. split; [exact Hp|]. split; [exact Hm|]. split; [exact (Hu Hno)|].
  pose proof (take_drop_middle _ _ _ Hr) as Hsplit.
  pose proof (filterSuccessfulScans_middle (take i results) (drop (S i) results) p) as Hmid.
  rewrite Hsplit in Hmid.
  assert (Hj : filterSuccessfulScans results
               !! length (filterSuccessfulScans (take i results)) = Some p)
    by (rewrite Hmid; apply list_lookup_middle; reflexivity).
  split.
  - intros text Herr.
    destruct (enrich_error_at h _ c1 _ p text Hj Herr) as (enriched & c2 & E2 & _ & L2).
    eexists enriched, c2, _. split; [exact E2|]. split; [exact Hj | exact L2].
  - intros g Hg.
    destruct (enrich_at h (filterSuccessfulScans (take i results))
                        (filterSuccessfulScans (drop (S i) results)) p c1)
      as (done & c1' & p' & c2' & rest & c2 & _ & Ld & _ & Ep & _ & E2).
    rewrite <- Hmid in E2.
    rewrite (enrichProject_info _ _ _ _ Hg) in Ep. injection Ep as <- _.
    eexists (done ++ _ :: rest), c2, _, _. split; [exact E2|]. split; [exact Hj|].
    split; [rewrite <- Ld; apply list_lookup_middle; reflexivity|].
    split; [reflexivity|].
    split;
      [|exact (classify_with_info g (ValidDate (reading c1'))
                                  (ValidDate (reading (advance c1'))))].
    intros Hd. cbn [status withGitInfo]. rewrite Hd. reflexivity.
Qed.

(** The scenario of the specification: [proj-b], without an indicator
    and changed forty days ago, is unknown after the scan and after the
    enrichment, and [proj-a] is active. *)
Lemma unindicated_directory_is_unknown_witness :
  exists results c1 p,
    scanDirectory portfolio (lit "/projects") noOptions (frozenAt NOW) = (Returned results, c1)
    /\ results !! 1%nat = Some (ProjectScanResult p)
    /\ name p = lit "proj-b"
    /\ lastModified p = ValidDate (NOW - DAYS 40)
    /\ status p = unknown
    /\ exists enriched c2,
         enrichProjectsWithGitInfo portfolio (filterSuccessfulScans results) c1
         = (Returned enriched, c2)
         /\ map (fun q => (name q, status q)) enriched
            = [(lit "proj-a", active); (lit "proj-b", unknown)].
Proof.
  destruct (unindicated_directory_is_unknown portfolio (lit "/projects") noOptions
              portfolioEntries (frozenAt NOW) 1
              {| dirent_name := lit "proj-b"; dirent_isDirectory := true |}
              {| stats_isDirectory := true; mtime := ValidDate (NOW - DAYS 40) |})
    as (results & c1 & p & E & Hr & Hn & _ & Hm & Hs & _).
  - split; [eexists; split; reflexivity | reflexivity].
  - vm_compute. reflexivity.
  - unfold noIndicator. vm_compute. repeat constructor.
  - vm_compute. reflexivity.
  - exists results, c1, p. repeat (split; [assumption|]).
    vm_compute in E. injection E as <- <-.
    eexists _, _. split; vm_compute; reflexivity.
Defined.

(** ** C10: the README *)

Lemma tryReadme_run (h : Host) (projectPath fileName : jsstring) (c : Clock) :
  tryReadme h projectPath fileName c = (Returned (readmeFrom h projectPath fileName), c).
Proof.
  unfold tryReadme, readmeFrom, shortened, join. cbv zeta.
  unfold try_catch. erewrite bind_run by apply fileExists_run.
  destruct (accessible h _); [|reflexivity].
  unfold bind, await. destruct (fs_readFile h _) as [content|e]; [|reflexivity].
  destruct (MAX_README_LENGTH <? jslength content)%N eqn:E;
    unfold MAX_README_LENGTH in E; rewrite E; reflexivity.
Qed.

Lemma readmeLoop_none (h : Host) (projectPath : jsstring) (files : list jsstring)
      (c : Clock) :
  Forall (fun fileName => readmeFrom h projectPath fileName = None) files ->
  readmeLoop h projectPath files c = (Returned None, c).
Proof.
  induction 1 as [|fileName files Hn _ IH]; simpl; [reflexivity|].
  erewrite bind_run by apply tryReadme_run. rewrite Hn. exact IH.
Qed.

Lemma readmeLoop_first (h : Host) (projectPath : jsstring)
      (tried rest : list jsstring) (fileName text : jsstring) (c : Clock) :
  Forall (fun n => readmeFrom h projectPath n = None) tried ->
  readmeFrom h projectPath fileName = Some text ->
  readmeLoop h projectPath (tried ++ fileName :: rest) c = (Returned (Some text), c).
Proof.
  intros Ht Hf. induction Ht as [|n tried Hn _ IH]; simpl.
  - erewrite bind_run by apply tryReadme_run. rewrite Hf. reflexivity.
  - erewrite bind_run by apply tryReadme_run. rewrite Hn. exact IH.
Qed.

Lemma readmeLoop_returns (h : Host) (projectPath : jsstring) (files : list jsstring)
      (c : Clock) :
  exists r, readmeLoop h projectPath files c = (Returned r, c).
Proof.
  induction files as [|fileName files IH]; simpl; [eexists; reflexivity|].
  erewrite bind_run by apply tryReadme_run.
  destruct (readmeFrom h projectPath fileName); [eexists; reflexivity | exact IH].
Qed.

(** C10, as it is worded, fails.  In [proj-a] the first README name that
    is found is [README], which cannot be read; the text returned is
    that of [readme.md], a later name. *)
Lemma getReadmeContent_not_first_existing :
  firstExisting portfolio (lit "/projects/proj-a") = Some (lit "README")
  /\ fs_readFile portfolio (lit "/projects/proj-a/README") = Threw denied
  /\ fs_readFile portfolio (lit "/projects/proj-a/readme.md") = Returned (lit "# proj-a")
  /\ exists r,
       (getReadmeContent portfolio (lit "/projects/proj-a") (frozenAt 0)).1 = Returned r
       /\ r = Some (lit "# proj-a")
       /\ ~ returnsFirstExisting portfolio (lit "/projects/proj-a") r.
Proof.
  split; [vm_compute; reflexivity|]. split; [vm_compute; reflexivity|].
  split; [vm_compute; reflexivity|].
  eexists. split; [vm_compute; reflexivity|]. split; [reflexivity|].
  unfold returnsFirstExisting.
  replace (firstExisting portfolio (lit "/projects/proj-a")) with (Some (lit "README"))
    by (vm_compute; reflexivity).
  intros (content & Hread & _). vm_compute in Hread. discriminate.
Qed.

(** C10, amended.  [getReadmeContent] tries [README.md], [README.txt],
    [README], [readme.md] and [Readme.md] in this order and returns the
    text of the first of them that is found and can be read; a name
    that is not found, or is found but cannot be read, is passed over.
    A text of more than 50000 code units is returned as its first 50000
    code units followed by two line feeds and [... (truncated)]; a
    shorter one is returned whole.  When no name is found, or none that
    is found can be read, the result is [null].  The function never
    throws. *)
Theorem getReadmeContent_spec (h : Host) (projectPath : jsstring) (c : Clock) :
  let file n := path_join h projectPath n in
  let skipped n := accessible h (file n) = false \/ exists e, fs_readFile h (file n) = Threw e in
  README_FILES
  = [lit "README.md"; lit "README.txt"; lit "README"; lit "readme.md"; lit "Readme.md"]
  /\ (exists r, getReadmeContent h projectPath c = (Returned r, c))
  /\ (forall tried fileName rest content,
        README_FILES = tried ++ fileName :: rest ->
        Forall skipped tried ->
        accessible h (file fileName) = true ->
        fs_readFile h (file fileName) = Returned content ->
        exists text,
          getReadmeContent h projectPath c = (Returned (Some text), c)
          /\ ((jslength content <= 50000)%N -> text = content)
          /\ ((50000 < jslength content)%N ->
              text = slice0 50000 content ++ 10%N :: 10%N :: lit "... (truncated)"
              /\ jslength text = 50017%N))
  /\ (Forall skipped README_FILES ->
      getReadmeContent h projectPath c = (Returned None, c)).
Proof.
  intros file skipped.
  assert (S : forall n, skipped n -> readmeFrom h projectPath n = None).
  { intros n [Ha|[e He]]; unfold readmeFrom; fold (file n).
    - rewrite Ha. reflexivity.
    - rewrite He. destruct (accessible h (file n)); reflexivity. }
  split; [reflexivity|]. split; [apply readmeLoop_returns|]. split.
  - intros tried fileName rest content Hsplit Ht Ha Hr.
    exists (shortened content). split.
    + unfold getReadmeContent. rewrite Hsplit. apply readmeLoop_first.
      * eapply Forall_impl; [exact Ht | exact S].
      * unfold readmeFrom. fold (file fileName). rewrite Ha, Hr. reflexivity.
    + unfold shortened. split.
      * intros Hle. destruct (N.ltb_spec 50000 (jslength content)); [lia | reflexivity].
      * intros Hlt. destruct (N.ltb_spec 50000 (jslength content)); [|lia].
        split; [reflexivity|]. unfold jslength, slice0 in *.
        rewrite length_app, length_take. cbn [length lit map list_ascii_of_string].
        lia.
  - intros Hall. unfold getReadmeContent. apply readmeLoop_none.
    eapply Forall_impl; [exact Hall | exact S].
Qed.

(** In [proj-a] the first two names are not found, [README] is found
    but cannot be read, and [readme.md] is read. *)
Lemma getReadmeContent_spec_witness :
  getReadmeContent portfolio (lit "/projects/proj-a") (frozenAt 0)
  = (Returned (Some (lit "# proj-a")), frozenAt 0).
Proof.
  destruct (getReadmeContent_spec portfolio (lit "/projects/proj-a") (frozenAt 0))
    as (_ & _ & H & _).
  destruct (H [lit "README.md"; lit "README.txt"; lit "README"] (lit "readme.md")
              [lit "Readme.md"] (lit "# proj-a"))
    as (text & E & Hshort & _).
  - reflexivity.
  - constructor; [left; vm_compute; reflexivity|].
    constructor; [left; vm_compute; reflexivity|].
    constructor; [right; eexists; vm_compute; reflexivity | constructor].
  - vm_compute. reflexivity.
  - vm_compute. reflexivity.
  - rewrite E. rewrite Hshort; [reflexivity | vm_compute; discriminate].
Defined.

(** ** The statements on the example *)

Lemma portfolio_listed : rootListed portfolio (lit "/projects") portfolioEntries.
Proof. split; [eexists; split; reflexivity | reflexivity]. Qed.

(** Of the three entries kept in [/projects], [locked] cannot be read:
    two records and one error, on [/projects/locked]. *)
Lemma scanDirectory_isolates_failures_witness :
  exists results c',
    scanDirectory portfolio (lit "/projects") noOptions (frozenAt NOW) = (Returned results, c')
    /\ length (filterSuccessfulScans results) = 2%nat
    /\ filterScanErrors results
       = [(lit "Failed to scan project: EACCES: permission denied",
           lit "/projects/locked")].
Proof.
  destruct (scanDirectory_isolates_failures portfolio (lit "/projects") noOptions
              portfolioEntries (frozenAt NOW) portfolio_listed)
    as (results & c' & E & _ & _ & _ & Three).
  exists results, c'. split; [exact E|].
  apply (Three {| dirent_name := lit "proj-a"; dirent_isDirectory := true |}
               {| dirent_name := lit "proj-b"; dirent_isDirectory := true |}
               {| dirent_name := lit "locked"; dirent_isDirectory := true |}
               {| dirent_name := lit "locked"; dirent_isDirectory := true |}
               2%nat denied).
  - vm_compute. reflexivity.
  - vm_compute. reflexivity.
  - vm_compute. reflexivity.
  - intros j d Hj Hd. destruct j as [|[|[|j]]].
    + vm_compute in Hd. injection Hd as <-. vm_compute. reflexivity.
    + vm_compute in Hd. injection Hd as <-. vm_compute. reflexivity.
    + exfalso. apply Hj. reflexivity.
    + vm_compute in Hd. discriminate.
Defined.

(** The listing of [/projects] holds a file, an ignored directory and a
    hidden directory: three entries are kept and give three results. *)
Lemma scanDirectory_one_result_per_entry_witness :
  exists results c',
    scanDirectory portfolio (lit "/projects") noOptions (frozenAt NOW) = (Returned results, c')
    /\ map resultPath results
       = [lit "/projects/proj-a"; lit "/projects/proj-b"; lit "/projects/locked"].
Proof.
  destruct (scanDirectory_one_result_per_entry portfolio (lit "/projects") noOptions
              portfolioEntries (frozenAt NOW) portfolio_listed)
    as ((results & c' & E & _ & _) & _).
  exists results, c'. split; [exact E|].
  vm_compute in E. injection E as <- _. vm_compute. reflexivity.
Defined.

(** A clean repository whose last commit is exactly seven days old is
    active; a dirty one is dirty. *)
Lemma determineProjectStatus_is_classify_witness :
  (determineProjectStatus (Some twinInfo) InvalidDate (frozenAt (DAYS 7))).1 = Returned active
  /\ (determineProjectStatus
        (Some {| branch := lit "main"; isDirty := true; uncommittedChanges := 1;
                 aheadBy := 0; behindBy := 0; lastCommitDate := Some (ValidDate 0);
                 lastCommitMessage := None |})
        (ValidDate 0) (frozenAt (DAYS 1))).1 = Returned dirty.
Proof.
  destruct determineProjectStatus_is_classify as (_ & Hdirty & _ & Hclean).
  split.
  - exact (proj1 (Hclean twinInfo InvalidDate 0 eq_refl eq_refl)).
  - apply Hdirty. reflexivity.
Defined.

(** A root that does not exist. *)
Lemma scanDirectory_root_error_witness :
  scanDirectory portfolio (lit "/nowhere") noOptions (frozenAt NOW)
  = (Returned [ProjectScanError
                 (lit "Cannot access directory: ENOENT: no such file or directory")
                 (lit "/nowhere")], frozenAt NOW).
Proof.
  exact (proj1 (scanDirectory_root_error portfolio (lit "/nowhere") noOptions (frozenAt NOW))
               noEntry eq_refl).
Defined.

(** [proj-b] is not a repository: its record goes through the pass
    unchanged. *)
Lemma enrich_error_unchanged_witness :
  let p := scanned "proj-b" "/projects/proj-b" (NOW - DAYS 40) unknown in
  notARepository portfolio (path p)
  /\ exists ps' c',
       enrichProjectsWithGitInfo portfolio [p] (frozenAt NOW) = (Returned ps', c')
       /\ ps' !! 0%nat = Some p.
Proof.
  intros p.
  assert (Hn : notARepository portfolio (path p)) by (split; reflexivity).
  split; [exact Hn|].
  destruct enrich_error_unchanged as (Hsame & _ & Hplain & _).
  destruct (Hsame portfolio [p] (frozenAt NOW) 0%nat p _ eq_refl (Hplain _ _ Hn))
    as (ps' & c' & E & _ & L).
  exists ps', c'. auto.
Defined.

(** The remote named [origin] is taken, though it is not the first. *)
Lemma getGitRemoteUrl_spec_witness :
  getGitRemoteUrl portfolio (lit "/projects/proj-a") (frozenAt NOW)
  = (Returned {| url := Some (lit "https://github.com/owner/proj-a"); error := None |},
     frozenAt NOW).
Proof.
  destruct getGitRemoteUrl_spec as (_ & Horigin & _).
  rewrite (Horigin portfolio (lit "/projects/proj-a") (frozenAt NOW)
             [ {| remote_name := lit "upstream";
                  refs_fetch := lit "https://example.org/up/proj-a.git";
                  refs_push := lit "https://example.org/up/proj-a.git" |} ]
             {| remote_name := lit "origin";
                refs_fetch := lit "git@github.com:owner/proj-a.git";
                refs_push := lit "git@github.com:owner/proj-a.git" |}
             []).
  - vm_compute. reflexivity.
  - reflexivity.
  - reflexivity.
  - reflexivity.
  - repeat constructor. vm_compute. discriminate.
  - reflexivity.
  - discriminate.
Defined.

(** * Further properties of the scanner and of the enricher *)

(** ** [isGitRepository] and [determineInitialStatus] *)

(** X1.  [isGitRepository] never throws and leaves the clock alone; it
    answers true exactly when [simple-git] opens the path and reports a
    repository.  When it answers false [getGitStatus] gives an error,
    and whenever [getGitStatus] gives repository information it
    answers true. *)
Theorem isGitRepository_getGitStatus (h : Host) (projectPath : jsstring) (c : Clock) :
  exists b,
    GitUtilsRest.isGitRepository h projectPath c = (Returned b, c)
    /\ (b = true <-> git_open h projectPath = Returned ()
                     /\ git_checkIsRepo h projectPath = Returned true)
    /\ (b = false -> exists text, getStatusReturns h projectPath (GitStatusError text))
    /\ (forall g, getStatusReturns h projectPath (GitStatusResult g) -> b = true).
Proof.
  unfold GitUtilsRest.isGitRepository. run_eff.
  destruct (git_open h projectPath) as [[]|e1] eqn:E1; simpl.
  - destruct (git_checkIsRepo h projectPath) as [[|]|e2] eqn:E2; simpl.
    + exists true. split; [reflexivity|]. split; [tauto|]. split; [discriminate | auto].
    + exists false. split; [reflexivity|]. split; [split; [discriminate | intros [_ ?]; discriminate]|].
      split.
      * intros _. eexists. apply notARepository_error. split; assumption.
      * intros g Hg. pose proof (notARepository_error h projectPath (conj E1 E2)) as He.
        pose proof (getStatusReturns_unique _ _ _ _ Hg He). discriminate.
    + exists false. split; [reflexivity|]. split; [split; [discriminate | intros [_ ?]; discriminate]|].
      assert (He : introspectionThrows h projectPath e2) by (right; split; [exact E1 | left; exact E2]).
      apply introspectionThrows_error in He. split.
      * intros _. eexists. exact He.
      * intros g Hg. pose proof (getStatusReturns_unique _ _ _ _ Hg He). discriminate.
  - exists false. split; [reflexivity|]. split; [split; [discriminate | intros [? _]; discriminate]|].
    assert (He : introspectionThrows h projectPath e1) by (left; exact E1).
    apply introspectionThrows_error in He. split.
    + intros _. eexists. exact He.
    + intros g Hg. pose proof (getStatusReturns_unique _ _ _ _ Hg He). discriminate.
Qed.

(** X2.  On every valid modification date the preliminary status of the
    scanner is the status that [determineProjectStatus] gives without
    repository information, so it is active, unknown or stale.  The two
    differ on an invalid date: the scanner says stale, the status rule
    says unknown. *)
Theorem determineInitialStatus_agrees :
  (forall (ms : Z) (c : Clock),
      determineInitialStatus (ValidDate ms) c
      = determineProjectStatus None (ValidDate ms) c)
  /\ (forall c : Clock,
        determineInitialStatus InvalidDate c = (Returned stale, advance c)
        /\ determineProjectStatus None InvalidDate c = (Returned unknown, advance c))
  /\ (forall (lastModified : Date) (c : Clock),
        exists s, determineInitialStatus lastModified c = (Returned s, advance c)
                  /\ (s = active \/ s = unknown \/ s = stale)).
Proof.
  split; [|split].
  - intros ms c. unfold determineInitialStatus, determineProjectStatus, bind, new_Date, ret.
    rewrite !num_le_days, num_gt_days. unfold MS_PER_DAY.
    destruct (Z.leb_spec (reading c - ms) (7 * (1000 * 60 * 60 * 24))); [reflexivity|].
    destruct (Z.leb_spec (reading c - ms) (30 * (1000 * 60 * 60 * 24))),
             (Z.ltb_spec (30 * (1000 * 60 * 60 * 24)) (reading c - ms));
      first [reflexivity | lia].
  - intros c. split; reflexivity.
  - intros lastModified c. unfold determineInitialStatus, bind, new_Date, ret.
    destruct (num_le _ _); [eexists; split; [reflexivity | auto]|].
    destruct (num_le _ _); eexists; (split; [reflexivity | auto]).
Qed.

(** ** The records of the scanner *)

Import MoreNotions.

Lemma determineInitialStatus_classify (ms : Z) (c : Clock) :
  determineInitialStatus (ValidDate ms) c
  = (Returned (Spec.classify None (ValidDate ms) (ValidDate (reading c))), advance c).
Proof.
  rewrite <- (determineProjectStatus_run None (ValidDate ms) c).
  unfold determineInitialStatus, determineProjectStatus, bind, new_Date, ret.
  rewrite !num_le_days, num_gt_days. unfold MS_PER_DAY.
  destruct (Z.leb_spec (reading c - ms) (7 * (1000 * 60 * 60 * 24))); [reflexivity|].
  destruct (Z.leb_spec (reading c - ms) (30 * (1000 * 60 * 60 * 24))),
           (Z.ltb_spec (30 * (1000 * 60 * 60 * 24)) (reading c - ms));
    first [reflexivity | lia].
Qed.

Lemma determineInitialStatus_three (lastModified : Date) (c : Clock) :
  exists s, determineInitialStatus lastModified c = (Returned s, advance c)
            /\ (s = active \/ s = unknown \/ s = stale).
Proof.
  unfold determineInitialStatus, bind, new_Date, ret.
  destruct (num_le _ _); [eexists; split; [reflexivity | auto]|].
  destruct (num_le _ _); eexists; (split; [reflexivity | auto]).
Qed.

(** A description is found only in a manifest that is found. *)
Lemma getProjectDescription_found (h : Host) (dirPath : jsstring) (c : Clock) :
  exists d,
    getProjectDescription h dirPath c = (Returned d, c)
    /\ (d <> None -> accessible h (path_join h dirPath (lit "package.json")) = true).
Proof.
  unfold getProjectDescription. unfold try_catch, bind at 1. rewrite fileExists_run.
  unfold join. destruct (accessible h _); simpl;
    [|eexists; split; [reflexivity | congruence]].
  run_eff. destruct (fs_readFile h _) as [content|]; simpl;
    [|eexists; split; [reflexivity | congruence]].
  destruct (JSON_parse_description h content); eexists; (split; [reflexivity | auto]).
Qed.

(** Membership in a list that is written out. *)
Ltac in_list := simpl; repeat (first [left; reflexivity | right]).

Lemma existsb_indicator (h : Host) (dirPath indicator : jsstring) :
  In indicator projectIndicators ->
  accessible h (path_join h dirPath indicator) = true ->
  ~ noIndicator h dirPath.
Proof.
  intros Hin Ha Hno. unfold noIndicator in Hno. rewrite Forall_forall in Hno.
  apply list_elem_of_In in Hin. rewrite (Hno _ Hin) in Ha. discriminate.
Qed.

Lemma existsb_false_noIndicator (h : Host) (dirPath : jsstring) :
  existsb (fun indicator => accessible h (path_join h dirPath indicator)) projectIndicators
  = false ->
  noIndicator h dirPath.
Proof.
  unfold noIndicator. induction projectIndicators as [|i l IH]; simpl; [constructor|].
  intros H. apply orb_false_iff in H as [Hi Hl]. constructor; auto.
Qed.

(** The record that [scanProject] returns, field by field. *)
Lemma scanProject_fields (h : Host) (dirPath dirName : jsstring) (c : Clock)
      (stats : Stats) :
  fs_stat h dirPath = Returned stats ->
  exists p,
    scanProject h dirPath dirName c = (Returned p, advance c)
    /\ name p = dirName
    /\ path p = dirPath
    /\ id p = createProjectId (String_toLowerCase h) dirName
    /\ lastModified p = mtime stats
    /\ gitInfo p = None
    /\ (determineInitialStatus (mtime stats) c).1 = Returned (status p)
    /\ (description p <> None -> hasPackageJson p = true)
    /\ (hasPackageJson p = true \/ hasReadme p = true -> ~ noIndicator h dirPath)
    /\ (TagStorage.getProjectTags h (id p) c).1 = Returned (tags p).
Proof.
  intros E. unfold scanProject.
  destruct (getProjectDescription_found h dirPath c) as (d & Ed & Hd).
  destruct (getProjectTags_run h (createProjectId (String_toLowerCase h) dirName) c)
    as [t Et].
  destruct (determineInitialStatus_three (mtime stats) c) as (s & Es & _).
  eexists. split.
  - erewrite bind_run by (unfold await; rewrite E; reflexivity).
    erewrite bind_run
      by (apply (Promise_all_map_pure _ (accessible h)); intros; apply fileExists_run).
    erewrite bind_run by apply fileExists_run.
    erewrite bind_run by exact Ed.
    erewrite bind_run by exact Et.
    erewrite bind_run by exact Es.
    reflexivity.
  - cbn [name path id lastModified gitInfo status description hasPackageJson hasReadme tags].
    repeat split.
    + rewrite Es. reflexivity.
    + exact Hd.
    + unfold join. intros [Hp|Hr].
      * eapply (existsb_indicator h dirPath (lit "package.json")); [in_list | exact Hp].
      * cbn [map existsb] in Hr.
        apply orb_true_iff in Hr as [Hr|Hr];
          [eapply (existsb_indicator h dirPath (lit "README.md")); [in_list | exact Hr]|].
        apply orb_true_iff in Hr as [Hr|Hr];
          [eapply (existsb_indicator h dirPath (lit "README.txt")); [in_list | exact Hr]|].
        apply orb_true_iff in Hr as [Hr|Hr]; [|discriminate].
        eapply (existsb_indicator h dirPath (lit "README")); [in_list | exact Hr].
    + rewrite Et. reflexivity.
Qed.

Lemma noIndicator_dec (h : Host) (dirPath : jsstring) :
  noIndicator h dirPath \/ ~ noIndicator h dirPath.
Proof.
  destruct (existsb (fun indicator => accessible h (path_join h dirPath indicator))
                    projectIndicators) eqn:E.
  - right. intros Hno. rewrite (noIndicator_existsb _ _ Hno) in E. discriminate.
  - left. apply existsb_false_noIndicator, E.
Qed.

Lemma scanEntry_facts (h : Host) (root : jsstring) (dir : Dirent) (c : Clock) :
  exists r c',
    scanEntry h root dir c = (Returned r, c')
    /\ laterClock c c'
    /\ (forall p, r = ProjectScanResult p -> c' = advance c)
    /\ entryFacts h root dir c r.
Proof.
  unfold scanEntry.
  set (fullPath := join h root (dirent_name dir)).
  destruct (fs_stat h fullPath) as [stats|e] eqn:E.
  - destruct (scanProject_fields h fullPath (dirent_name dir) c stats E)
      as (p & Ep & Hname & Hpath & Hid & Hmod & Hgit & Hst & Hdesc & Hind & Htags).
    destruct (determineInitialStatus_three (mtime stats) c) as (s & Es & Hs).
    rewrite Es in Hst. injection Hst as Hst. subst s.
    destruct (existsb (fun indicator => accessible h (path_join h fullPath indicator))
                      projectIndicators) eqn:Hex.
    + exists (ProjectScanResult p), (advance c).
      split; [|split; [apply laterClock_advance | split; [reflexivity|]]].
      * apply try_catch_run.
        erewrite bind_run by apply isProjectDirectory_run. rewrite Hex. simpl.
        erewrite bind_run by exact Ep. reflexivity.
      * unfold entryFacts. rewrite Hpath, Hmod.
        assert (Hyes : ~ noIndicator h fullPath)
          by (intros Hno; rewrite (noIndicator_existsb _ _ Hno) in Hex; discriminate).
        split; [exact Hname|]. split; [reflexivity|].
        split; [rewrite Hid, Hname; reflexivity|]. split; [exact Hgit|].
        split; [exact Hs|]. split; [exact Hdesc|]. split; [exact Hind|].
        split; [intros Hno; contradiction|].
        split; [intros _; rewrite Es; reflexivity|].
        split; [exact Htags|]. exists stats. split; [exact E | reflexivity].
    + exists (ProjectScanResult (setStatus p unknown)), (advance c).
      split; [|split; [apply laterClock_advance | split; [reflexivity|]]].
      * apply try_catch_run.
        erewrite bind_run by apply isProjectDirectory_run. rewrite Hex. simpl.
        erewrite bind_run by exact Ep. reflexivity.
      * unfold entryFacts, setStatus.
        cbn [name path id gitInfo status description hasPackageJson hasReadme
             lastModified tags].
        rewrite Hpath.
        assert (Hno : noIndicator h fullPath) by (apply existsb_false_noIndicator, Hex).
        split; [exact Hname|]. split; [reflexivity|].
        split; [rewrite Hid, Hname; reflexivity|]. split; [exact Hgit|].
        split; [auto|]. split; [exact Hdesc|]. split; [exact Hind|].
        split; [reflexivity|].
        split; [intros Hyes; contradiction|].
        split; [exact Htags|]. exists stats. split; [exact E | exact Hmod].
  - exists (ProjectScanError (lit "Failed to scan project: " ++ errorMessage e) fullPath), c.
    split; [|split; [apply laterClock_refl | split; [discriminate|]]].
    + erewrite try_catch_throw; [reflexivity|].
      erewrite bind_run by apply isProjectDirectory_run.
      destruct (negb _); (eapply bind_throw; apply scanProject_throw; exact E).
    + unfold entryFacts. split; [reflexivity|]. split; [discriminate|].
      unfold statSucceeds. rewrite E. reflexivity.
Qed.

(** [scanDirectory] always returns: the error of the root when the root
    is not a listed directory, and otherwise one result for each entry
    kept, with the clock on which the callback of the entry started. *)
Lemma scanDirectory_facts (h : Host) (root : jsstring) (options : ScanOptions)
      (c : Clock) :
  exists results c',
    scanDirectory h root options c = (Returned results, c')
    /\ laterClock c c'
    /\ ((exists text, results = [ProjectScanError text root] /\ text <> []
                      /\ forall entries, ~ rootListed h root entries)
        \/ (exists entries,
               rootListed h root entries
               /\ Forall2 (fun dir r =>
                             exists c1, laterClock c c1
                                        /\ (forall p, r = ProjectScanResult p ->
                                                      (tick c1 < tick c')%nat)
                                        /\ entryFacts h root dir c1 r)
                          (List.filter (keepEntry (default false (includeHidden options)))
                                       entries)
                          results)).
Proof.
  destruct (fs_stat h root) as [stats|e] eqn:Es.
  2:{ exists [ProjectScanError (lit "Cannot access directory: " ++ errorMessage e) root], c.
      split; [|split; [apply laterClock_refl|]].
      - unfold scanDirectory.
        erewrite bind_run
          by (erewrite try_catch_throw
                by (eapply bind_throw; unfold await; rewrite Es; reflexivity);
              reflexivity).
        reflexivity.
      - left. eexists. split; [reflexivity|]. split; [discriminate|].
        intros entries [(stats & Es' & _) _]. congruence. }
  destruct (stats_isDirectory stats) eqn:Hd.
  2:{ exists [ProjectScanError (lit "Path is not a directory: " ++ root) root], c.
      split; [|split; [apply laterClock_refl|]].
      - unfold scanDirectory.
        erewrite bind_run
          by (apply try_catch_run; erewrite bind_run
                by (unfold await; rewrite Es; reflexivity);
              rewrite Hd; reflexivity).
        reflexivity.
      - left. eexists. split; [reflexivity|]. split; [discriminate|].
        intros entries [(stats' & Es' & Hd') _]. congruence. }
  destruct (fs_readdir h root) as [entries|e] eqn:El.
  2:{ exists [ProjectScanError (lit "Failed to read directory: " ++ errorMessage e) root], c.
      split; [|split; [apply laterClock_refl|]].
      - unfold scanDirectory.
        erewrite bind_run
          by (apply try_catch_run; erewrite bind_run
                by (unfold await; rewrite Es; reflexivity);
              rewrite Hd; reflexivity).
        cbv beta iota.
        erewrite bind_run
          by (erewrite try_catch_throw
                by (eapply bind_throw; unfold await; rewrite El; reflexivity);
              reflexivity).
        reflexivity.
      - left. eexists. split; [reflexivity|]. split; [discriminate|].
        intros entries [_ El']. congruence. }
  destruct (Promise_all_map_returns (scanEntry h root)
              (fun dir c1 r c2 => (forall p, r = ProjectScanResult p -> c2 = advance c1)
                                  /\ entryFacts h root dir c1 r)
              (List.filter (keepEntry (default false (includeHidden options))) entries) c)
    as (results & c' & E & L & HF).
  { intros dir c1.
    destruct (scanEntry_facts h root dir c1) as (r & c2 & E1 & L1 & T1 & F1).
    exists r, c2. auto. }
  exists results, c'. split; [|split; [exact L|]].
  - unfold scanDirectory.
    erewrite bind_run
      by (apply try_catch_run; erewrite bind_run
            by (unfold await; rewrite Es; reflexivity);
          rewrite Hd; reflexivity).
    cbv beta iota.
    erewrite bind_run
      by (apply try_catch_run; erewrite bind_run
            by (unfold await; rewrite El; reflexivity);
          reflexivity).
    exact E.
  - right. exists entries. split; [split; [exists stats; auto | exact El]|].
    eapply Forall2_impl; [exact HF|].
    intros dir r (c1 & c2 & La & Lb & [_ Lc] & Hp & Hf).
    exists c1. split; [exact La|]. split; [|exact Hf].
    intros p ->. rewrite (Hp p eq_refl) in Lc. simpl in Lc. lia.
Qed.

(** X3.  [scanDirectory] never throws, and its results keep these
    invariants.  A record has no repository information; its status is
    active, unknown or stale, never clean or dirty; its id is the id of
    its name and its path is the root joined with its name; it has a
    description only if it has a manifest; and a record of a directory
    without indicator has neither manifest, nor README, nor
    description.  The text of an error is not empty. *)
Theorem scanDirectory_record_invariants (h : Host) (root : jsstring)
        (options : ScanOptions) (c : Clock) :
  exists results c',
    scanDirectory h root options c = (Returned results, c')
    /\ Forall
         (fun r =>
            match r with
            | ProjectScanResult p =>
                gitInfo p = None
                /\ (status p = active \/ status p = unknown \/ status p = stale)
                /\ id p = createProjectId (String_toLowerCase h) (name p)
                /\ path p = path_join h root (name p)
                /\ (description p <> None -> hasPackageJson p = true)
                /\ (noIndicator h (path p) ->
                    hasPackageJson p = false /\ hasReadme p = false
                    /\ description p = None)
            | ProjectScanError text _ => text <> []
            end)
         results.
Proof.
  destruct (scanDirectory_facts h root options c) as (results & c' & E & _ & H).
  exists results, c'. split; [exact E|].
  destruct H as [(text & -> & Ht & _)|(entries & _ & HF)].
  - constructor; [exact Ht | constructor].
  - clear E. induction HF as [|dir r kept results (c1 & _ & _ & Hf) _ IH]; constructor;
      [|exact IH].
    unfold entryFacts in Hf. destruct r as [p|text pth].
    + destruct Hf as (Hn & Hp & Hid & Hg & Hs & Hd & Hi & _).
      split; [exact Hg|]. split; [exact Hs|]. split; [exact Hid|].
      split; [rewrite Hn; exact Hp|]. split; [exact Hd|].
      intros Hno.
      assert (Hpk : hasPackageJson p = false)
        by (destruct (hasPackageJson p); [exfalso; apply Hi; auto | reflexivity]).
      split; [exact Hpk|].
      split; [destruct (hasReadme p); [exfalso; apply Hi; auto | reflexivity]|].
      destruct (description p) as [d|] eqn:Ed; [|reflexivity].
      rewrite Hd in Hpk by discriminate. discriminate.
    + destruct Hf as (_ & Ht & _). exact Ht.
Qed.

(** X4.  A record of a directory in which an indicator is found, with a
    valid modification date, has the status that the rule of section
    4.2 gives without repository information, at a reading of the clock
    made during the scan: active up to 7 days, stale beyond 30 days,
    unknown in between. *)
Theorem scanDirectory_status_by_recency (h : Host) (root : jsstring)
        (options : ScanOptions) (c : Clock) :
  exists results c',
    scanDirectory h root options c = (Returned results, c')
    /\ forall (p : Project) (ms : Z),
        ProjectScanResult p ∈ results ->
        ~ noIndicator h (path p) ->
        lastModified p = ValidDate ms ->
        exists k : nat,
          (tick c <= k < tick c')%nat
          /\ status p = Spec.classify None (ValidDate ms) (ValidDate (readingAt c k)).
Proof.
  destruct (scanDirectory_facts h root options c) as (results & c' & E & _ & H).
  exists results, c'. split; [exact E|].
  intros p ms Hin Hyes Hm.
  destruct H as [(text & -> & _)|(entries & _ & HF)].
  - apply list_elem_of_singleton in Hin. discriminate.
  - apply list_elem_of_lookup in Hin as [i Hi].
    destruct (Forall2_lookup_r _ _ _ _ _ HF Hi)
      as (dir & _ & c1 & [Lr Lt] & Htick & Hf).
    unfold entryFacts in Hf. destruct Hf as (_ & _ & _ & _ & _ & _ & _ & _ & Hst & _).
    specialize (Hst Hyes). rewrite Hm, determineInitialStatus_classify in Hst.
    injection Hst as Hst. exists (tick c1).
    split; [specialize (Htick p eq_refl); lia|].
    rewrite <- Hst. unfold reading. rewrite Lr. reflexivity.
Qed.

Lemma loadProjectTags_pure (h : Host) :
  exists m, forall c, TagStorage.loadProjectTags h c = (Returned m, c).
Proof.
  unfold TagStorage.loadProjectTags. run_eff.
  destruct (fs_readFile h _) as [content|]; simpl; [|eexists; reflexivity].
  destruct (JSON_parse_tags h content); eexists; reflexivity.
Qed.

(** X5.  The tags of every record of a scan whose id is not a name
    that every object inherits are the tags stored under its id in the
    tag file, and none when the id has no entry; so two directories
    whose names give the same such id carry the same tags.  When the
    tag file cannot be read, or is not valid, these records have no tag
    and the scan goes on. *)
Theorem scanDirectory_tags (h : Host) :
  exists stored : gmap jsstring (list jsstring),
    (forall c, TagStorage.loadProjectTags h c = (Returned stored, c))
    /\ ((forall content, fs_readFile h (TagStorage.TAGS_FILE h) = Returned content ->
                         exists e, JSON_parse_tags h content = Threw e) ->
        stored = ∅)
    /\ forall (root : jsstring) (options : ScanOptions) (c : Clock),
        exists results c',
          scanDirectory h root options c = (Returned results, c')
          /\ (forall p, ProjectScanResult p ∈ results -> ordinaryId (id p) ->
                        tags p = default [] (stored !! id p))
          /\ (forall p q, ProjectScanResult p ∈ results ->
                          ProjectScanResult q ∈ results ->
                          ordinaryId (id p) ->
                          id p = id q -> tags p = tags q).
Proof.
  destruct (loadProjectTags_pure h) as [stored Hl].
  exists stored. split; [exact Hl|]. split.
  - intros Hbad. specialize (Hl (frozenAt 0)).
    unfold TagStorage.loadProjectTags in Hl. revert Hl. run_eff.
    destruct (fs_readFile h _) as [content|] eqn:Er; simpl; [|congruence].
    destruct (Hbad content eq_refl) as [e He]. rewrite He. congruence.
  - intros root options c.
    destruct (scanDirectory_facts h root options c) as (results & c' & E & _ & H).
    exists results, c'. split; [exact E|].
    assert (T : forall p, ProjectScanResult p ∈ results ->
                          tags p = default [] (stored !! id p)).
    { intros p Hin. destruct H as [(text & -> & _)|(entries & _ & HF)].
      - apply list_elem_of_singleton in Hin. discriminate.
      - apply list_elem_of_lookup in Hin as [i Hi].
        destruct (Forall2_lookup_r _ _ _ _ _ HF Hi) as (dir & _ & c1 & _ & _ & Hf).
        unfold entryFacts in Hf.
        destruct Hf as (_ & _ & _ & _ & _ & _ & _ & _ & _ & Ht & _).
        unfold TagStorage.getProjectTags in Ht.
        erewrite bind_run in Ht by apply Hl. injection Ht as Ht. congruence. }
    split; [intros p Hp _; exact (T p Hp)|].
    intros p q Hp Hq _ Heq. rewrite (T p Hp), (T q Hq), Heq. reflexivity.
Qed.

(** ** The lists that the pages and the routes are given *)

Lemma filterSuccessfulScans_elem (results : list ScanResult) (p : Project) :
  p ∈ filterSuccessfulScans results <-> ProjectScanResult p ∈ results.
Proof.
  unfold filterSuccessfulScans. rewrite list_elem_of_omap. split.
  - intros ([q|text pth] & Hin & Heq); [|discriminate]. injection Heq as ->. exact Hin.
  - intros Hin. exists (ProjectScanResult p). split; [exact Hin | reflexivity].
Qed.

Lemma filterScanErrors_elem (results : list ScanResult) (text pth : jsstring) :
  (text, pth) ∈ filterScanErrors results <-> ProjectScanError text pth ∈ results.
Proof.
  unfold filterScanErrors. rewrite list_elem_of_omap. split.
  - intros ([q|text' pth'] & Hin & Heq); [discriminate|]. injection Heq as -> ->. exact Hin.
  - intros Hin. exists (ProjectScanError text pth). split; [exact Hin | reflexivity].
Qed.

Lemma filter_lengths (results : list ScanResult) :
  (length (filterSuccessfulScans results) + length (filterScanErrors results)
   = length results)%nat.
Proof.
  induction results as [|[p|text pth] results IH]; simpl; [reflexivity | |];
    unfold filterSuccessfulScans, filterScanErrors in *; simpl; lia.
Qed.

(** X6.  [filterSuccessfulScans] and [filterScanErrors] divide the
    results of a scan: every result is counted in one of the two lists
    and only there, the records are those of the results and the errors
    are those of the results, and both lists keep the order of the
    results. *)
Theorem scan_results_divided (results : list ScanResult) :
  (length (filterSuccessfulScans results) + length (filterScanErrors results)
   = length results)%nat
  /\ (forall p, p ∈ filterSuccessfulScans results <-> ProjectScanResult p ∈ results)
  /\ (forall text pth,
         (text, pth) ∈ filterScanErrors results <-> ProjectScanError text pth ∈ results)
  /\ ProjectScanResult <$> filterSuccessfulScans results `sublist_of` results
  /\ (fun e : jsstring * jsstring => ProjectScanError e.1 e.2) <$> filterScanErrors results
     `sublist_of` results.
Proof.
  split; [apply filter_lengths|].
  split; [apply filterSuccessfulScans_elem|].
  split; [apply filterScanErrors_elem|].
  unfold filterSuccessfulScans, filterScanErrors.
  split; induction results as [|[p|text pth] results IH]; simpl;
    try constructor; assumption.
Qed.

Lemma summary_fold (projects : list Project) (s0 : DashboardPage.StatusSummary) :
  let s := fold_left (fun summary project => DashboardPage.increment summary (status project))
                     projects s0 in
  DashboardPage.n_active s = (DashboardPage.n_active s0 + countStatus active projects)%nat
  /\ DashboardPage.n_stale s = (DashboardPage.n_stale s0 + countStatus stale projects)%nat
  /\ DashboardPage.n_clean s = (DashboardPage.n_clean s0 + countStatus clean projects)%nat
  /\ DashboardPage.n_dirty s = (DashboardPage.n_dirty s0 + countStatus dirty projects)%nat
  /\ DashboardPage.n_unknown s
     = (DashboardPage.n_unknown s0 + countStatus unknown projects)%nat
  /\ DashboardPage.total s = DashboardPage.total s0.
Proof.
  revert s0. induction projects as [|p projects IH]; intros s0.
  - simpl. unfold countStatus. simpl. repeat split; lia.
  - cbn [fold_left]. specialize (IH (DashboardPage.increment s0 (status p))).
    cbv zeta in IH |- *. destruct IH as (Ha & Hs & Hc & Hd & Hu & Ht).
    rewrite Ha, Hs, Hc, Hd, Hu, Ht. unfold countStatus. simpl.
    destruct (status p); simpl; repeat split; lia.
Qed.

Lemma countStatus_sum (projects : list Project) :
  (countStatus active projects + countStatus stale projects + countStatus clean projects
   + countStatus dirty projects + countStatus unknown projects = length projects)%nat.
Proof.
  unfold countStatus. induction projects as [|p projects IH]; simpl; [reflexivity|].
  destruct (status p); simpl; lia.
Qed.

(** X7.  The summary of the dashboard counts every record once: each
    of its five counts is the number of the records with that status,
    its total is the number of the records, and the five counts add up
    to the total. *)
Theorem getStatusSummary_counts (projects : list Project) :
  let s := DashboardPage.getStatusSummary projects in
  DashboardPage.n_active s = countStatus active projects
  /\ DashboardPage.n_stale s = countStatus stale projects
  /\ DashboardPage.n_clean s = countStatus clean projects
  /\ DashboardPage.n_dirty s = countStatus dirty projects
  /\ DashboardPage.n_unknown s = countStatus unknown projects
  /\ DashboardPage.total s = length projects
  /\ (DashboardPage.n_active s + DashboardPage.n_stale s + DashboardPage.n_clean s
      + DashboardPage.n_dirty s + DashboardPage.n_unknown s = DashboardPage.total s)%nat.
Proof.
  unfold DashboardPage.getStatusSummary.
  pose proof (summary_fold projects
                {| DashboardPage.n_active := 0; DashboardPage.n_stale := 0;
                   DashboardPage.n_clean := 0; DashboardPage.n_dirty := 0;
                   DashboardPage.n_unknown := 0;
                   DashboardPage.total := length projects |}) as H.
  cbv zeta in H |- *. destruct H as (Ha & Hs & Hc & Hd & Hu & Ht). simpl in *.
  rewrite Ha, Hs, Hc, Hd, Hu, Ht.
  repeat (split; [reflexivity|]). apply countStatus_sum.
Qed.

(** The enrichment pass never throws; each record of its result is made
    from the record at the same place, on a clock of the pass. *)
Lemma enrich_facts (h : Host) (ps : list Project) (c : Clock) :
  exists ps' c',
    enrichProjectsWithGitInfo h ps c = (Returned ps', c')
    /\ laterClock c c'
    /\ Forall2 (fun p p' => exists c1, laterClock c c1 /\ laterClock c1 c'
                                       /\ enrichedAt h p c1 p') ps ps'.
Proof.
  unfold enrichProjectsWithGitInfo.
  destruct (Promise_all_map_returns (enrichProject h)
              (fun p c1 p' _ => enrichedAt h p c1 p') ps c) as (ps' & c' & E & L & F).
  { intros p c1. destruct (getGitStatus_pure h (path p)) as [[g|text] H].
    - rewrite (enrichProject_info _ _ _ _ H). eexists _, _. split; [reflexivity|].
      split; [|right; eauto].
      destruct (isDirty g);
        [|eapply laterClock_trans; [|apply laterClock_advance]]; apply laterClock_advance.
    - rewrite (enrichProject_error _ _ _ _ H). eexists _, _. split; [reflexivity|].
      split; [apply laterClock_refl | left; eauto]. }
  exists ps', c'. split; [exact E|]. split; [exact L|].
  eapply Forall2_impl; [exact F|]. intros p p' (c1 & c2 & L1 & L2 & L3 & H).
  exists c1. split; [exact L1|]. split; [eapply laterClock_trans; eassumption | exact H].
Qed.

Lemma enrichedAt_same (h : Host) (p : Project) (c1 : Clock) (p' : Project) :
  enrichedAt h p c1 p' -> sameProject p p'.
Proof.
  intros [(text & _ & ->)|(g & _ & ->)]; unfold sameProject; simpl; repeat split.
Qed.

Lemma insertSorted_Permutation {A} (compareFn : A -> A -> number) (x : A) (l : list A) :
  JsArray.insertSorted compareFn x l ≡ₚ x :: l.
Proof.
  induction l as [|y l IH]; simpl; [reflexivity|].
  destruct (JsArray.notAfter (compareFn x y)); [reflexivity|].
  rewrite IH. apply Permutation_swap.
Qed.

Lemma Array_sort_Permutation {A} (compareFn : A -> A -> number) (l : list A) :
  JsArray.Array_sort compareFn l ≡ₚ l.
Proof.
  unfold JsArray.Array_sort. induction l as [|x l IH]; simpl; [reflexivity|].
  rewrite insertSorted_Permutation, IH. reflexivity.
Qed.

Lemma notAfter_mostRecentFirst (a b : Project) (ta tb : Z) :
  lastModified a = ValidDate ta -> lastModified b = ValidDate tb ->
  JsArray.notAfter (JsArray.mostRecentFirst a b) = bool_decide (tb <= ta).
Proof.
  intros Ha Hb. unfold JsArray.mostRecentFirst. rewrite Ha, Hb. simpl.
  assert (H : Qle_bool (inject_Z tb - inject_Z ta) (inject_Z 0) = true <-> tb <= ta).
  { rewrite Qle_bool_iff. unfold Qle. simpl. lia. }
  destruct (Qle_bool (inject_Z tb - inject_Z ta) (inject_Z 0)) eqn:E; symmetry.
  - apply bool_decide_eq_true. apply H. reflexivity.
  - apply bool_decide_eq_false. intros Hle. apply H in Hle. discriminate.
Qed.

Lemma datedValid_time (p : Project) : datedValid p -> exists t, lastModified p = ValidDate t.
Proof.
  unfold datedValid. destruct (lastModified p) as [t|]; [eauto | congruence].
Qed.

Lemma insertSorted_sorted (x : Project) (l : list Project) :
  datedValid x -> Forall datedValid l ->
  StronglySorted notOlder l ->
  StronglySorted notOlder (JsArray.insertSorted JsArray.mostRecentFirst x l).
Proof.
  intros Hx Hl Hs. induction Hs as [|y l Hs IH Hy]; simpl.
  - repeat constructor.
  - apply Forall_cons in Hl as [Hvy Hl].
    destruct (datedValid_time _ Hx) as [tx Ex], (datedValid_time _ Hvy) as [ty Ey].
    rewrite (notAfter_mostRecentFirst _ _ _ _ Ex Ey).
    destruct (bool_decide (ty <= tx)) eqn:E.
    + apply bool_decide_eq_true in E. constructor; [constructor; assumption|].
      constructor; [exists tx, ty; auto|].
      eapply Forall_impl; [exact Hy|]. intros z (ty' & tz & Ey' & Ez & Hle).
      exists tx, tz. rewrite Ey in Ey'. injection Ey' as <-.
      split; [exact Ex|]. split; [exact Ez | lia].
    + apply bool_decide_eq_false in E. constructor; [apply IH; exact Hl|].
      rewrite insertSorted_Permutation. constructor; [|exact Hy].
      exists ty, tx. split; [exact Ey|]. split; [exact Ex | lia].
Qed.

Lemma Array_sort_sorted (l : list Project) :
  Forall datedValid l ->
  StronglySorted notOlder (JsArray.Array_sort JsArray.mostRecentFirst l).
Proof.
  unfold JsArray.Array_sort. induction l as [|x l IH]; intros H; simpl; [constructor|].
  apply Forall_cons in H as [Hx Hl]. apply insertSorted_sorted; [exact Hx | | auto].
  fold (JsArray.Array_sort JsArray.mostRecentFirst l).
  rewrite Array_sort_Permutation. exact Hl.
Qed.

(** The scan of the directory of the projects followed by the
    enrichment pass, as the pages, the actions and the routes run them. *)
Lemma listing_facts (h : Host) (proc : Process) (c : Clock) :
  exists results c1 enriched c2,
    ProjectScannerRest.scanProjects h proc None c = (Returned results, c1)
    /\ enrichProjectsWithGitInfo h (filterSuccessfulScans results) c1
       = (Returned enriched, c2)
    /\ laterClock c c1 /\ laterClock c1 c2
    /\ Forall2 (fun p p' => exists c', enrichedAt h p c' p')
               (filterSuccessfulScans results) enriched
    /\ (~ projectsListed h proc ->
        filterSuccessfulScans results = []
        /\ exists text, text <> []
                        /\ filterScanErrors results
                           = [(text, ProjectScannerRest.getProjectsPath h proc)])
    /\ (projectsListed h proc ->
        forall text pth, (text, pth) ∈ filterScanErrors results ->
                         pth <> ProjectScannerRest.getProjectsPath h proc
                         \/ filterSuccessfulScans results <> [])
    /\ (validStats h -> Forall datedValid enriched).
Proof.
  unfold ProjectScannerRest.scanProjects. cbv zeta.
  set (root := ProjectScannerRest.getProjectsPath h proc).
  destruct (scanDirectory_facts h root (default noOptions None) c)
    as (results & c1 & E & L & H).
  destruct (enrich_facts h (filterSuccessfulScans results) c1) as (enriched & c2 & E2 & L2 & F).
  exists results, c1, enriched, c2.
  split; [exact E|]. split; [exact E2|]. split; [exact L|]. split; [exact L2|].
  assert (F' : Forall2 (fun p p' => exists c', enrichedAt h p c' p')
                       (filterSuccessfulScans results) enriched).
  { eapply Forall2_impl; [exact F|]. intros p p' (c' & _ & _ & Hp). eauto. }
  split; [exact F'|].
  split; [|split].
  - intros Hno. destruct H as [(text & -> & Ht & _)|(entries & Hl & _)].
    + split; [reflexivity|]. exists text. split; [exact Ht | reflexivity].
    + exfalso. apply Hno. exists entries. exact Hl.
  - intros [entries Hl] text pth Hin.
    destruct H as [(text' & -> & _ & Hnot)|(entries' & _ & HF)];
      [exfalso; eapply Hnot; exact Hl|].
    apply filterScanErrors_elem in Hin. apply list_elem_of_lookup in Hin as [i Hi].
    destruct (Forall2_lookup_r _ _ _ _ _ HF Hi) as (dir & _ & c' & _ & _ & Hf).
    unfold entryFacts in Hf. destruct Hf as (Hp & _ & Hstat).
    left. intros H. destruct Hl as [(stats & Hs & _) _].
    unfold statSucceeds in Hstat. subst pth. rewrite H in Hstat. unfold root in Hstat.
    rewrite Hs in Hstat. discriminate.
  - intros Hv.
    assert (Hscan : Forall datedValid (filterSuccessfulScans results)).
    { apply Forall_forall. intros p Hin. apply filterSuccessfulScans_elem in Hin.
      destruct H as [(text & -> & _)|(entries & _ & HF)].
      - apply list_elem_of_singleton in Hin. discriminate.
      - apply list_elem_of_lookup in Hin as [i Hi].
        destruct (Forall2_lookup_r _ _ _ _ _ HF Hi) as (dir & _ & c' & _ & _ & Hf).
        unfold entryFacts in Hf.
        destruct Hf as (_ & _ & _ & _ & _ & _ & _ & _ & _ & _ & stats & Hs & Hm).
        unfold datedValid. rewrite Hm. eapply Hv. exact Hs. }
    clear - Hscan F'. induction F' as [|p p' ps ps' (c' & Hp) _ IH]; [constructor|].
    apply Forall_cons in Hscan as [Hp0 Hps]. constructor; [|auto].
    apply enrichedAt_same in Hp. destruct Hp as (_ & _ & _ & _ & Hm & _).
    unfold datedValid in *. rewrite Hm. exact Hp0.
Qed.

(** X8.  The list of the dashboard.  [getProjects] of the page and
    [getProjectsFresh] never throw and never report an error, also when
    the directory of the projects cannot be read: the list is then
    empty.  The page shows the enriched records in the order of the
    scan; the fresh list holds the same records, its total is their
    number, [scannedAt] is read from the clock after the enrichment,
    and, when [stat] gives valid dates, the list goes from the most
    recently modified record to the least recently modified one. *)
Theorem dashboard_list (h : Host) (proc : Process) (c : Clock) :
  exists results c1 enriched c2 listed,
    ProjectScannerRest.scanProjects h proc None c = (Returned results, c1)
    /\ enrichProjectsWithGitInfo h (filterSuccessfulScans results) c1
       = (Returned enriched, c2)
    /\ DashboardPage.getProjects h proc c
       = (Returned {| DashboardPage.page_projects := enriched;
                      DashboardPage.page_error := None |}, c2)
    /\ Actions.getProjectsFresh h proc c
       = (Returned {| Actions.response :=
                        {| Actions.projects := listed;
                           Actions.total := length enriched;
                           Actions.scannedAt := ValidDate (reading c2) |};
                      Actions.error := None |}, advance c2)
    /\ listed ≡ₚ enriched
    /\ (validStats h -> StronglySorted notOlder listed)
    /\ (~ projectsListed h proc -> enriched = [] /\ listed = []).
Proof.
  destruct (listing_facts h proc c)
    as (results & c1 & enriched & c2 & E1 & E2 & _ & _ & F & Hno & _ & Hv).
  exists results, c1, enriched, c2, (JsArray.Array_sort JsArray.mostRecentFirst enriched).
  split; [exact E1|]. split; [exact E2|]. split; [|split; [|split; [|split]]].
  - unfold DashboardPage.getProjects. apply try_catch_run.
    erewrite bind_run by exact E1. cbv beta zeta.
    erewrite bind_run by exact E2. reflexivity.
  - unfold Actions.getProjectsFresh. apply try_catch_run.
    erewrite bind_run by exact E1. cbv beta zeta.
    erewrite bind_run by exact E2. cbv beta zeta.
    erewrite bind_run by reflexivity. unfold ret.
    rewrite (Permutation_length (Array_sort_Permutation _ enriched)). reflexivity.
  - apply Array_sort_Permutation.
  - intros Hvalid. apply Array_sort_sorted, Hv, Hvalid.
  - intros Hn. destruct (Hno Hn) as [Hempty _]. rewrite Hempty in F.
    apply Forall2_nil_inv_l in F. subst enriched. split; reflexivity.
Qed.

Lemma portfolio_validStats : validStats Examples.portfolio.
Proof.
  intros p stats. unfold Examples.portfolio, Examples.hostOf, fs_stat, Examples.directory.
  repeat (destruct (Examples.isPath p _); [intros [= <-]; discriminate|]).
  discriminate.
Qed.

Lemma dashboard_list_witness :
  exists listed,
    (Actions.getProjectsFresh Examples.portfolio MoreExamples.server
                              (frozenAt Examples.NOW)).1
    = Returned {| Actions.response :=
                    {| Actions.projects := listed;
                       Actions.total := length listed;
                       Actions.scannedAt := ValidDate Examples.NOW |};
                  Actions.error := None |}
    /\ StronglySorted notOlder listed.
Proof.
  destruct (dashboard_list Examples.portfolio MoreExamples.server (frozenAt Examples.NOW))
    as (results & c1 & enriched & c2 & listed & E1 & E2 & _ & E & Hp & Hs & _).
  exists listed. split; [|apply Hs, portfolio_validStats].
  rewrite E. simpl. rewrite (Permutation_length Hp).
  destruct (listing_facts Examples.portfolio MoreExamples.server (frozenAt Examples.NOW))
    as (results' & c1' & enriched' & c2' & E1' & E2' & [L1 _] & [L2 _] & _).
  rewrite E1 in E1'. injection E1' as <- <-. rewrite E2 in E2'. injection E2' as <- <-.
  unfold reading. rewrite L2, L1. reflexivity.
Defined.

Lemma revalidates_dec (proc : Process) :
  revalidates proc
  \/ (exists e, revalidatePath proc (lit "/") = Threw e)
  \/ (revalidatePath proc (lit "/") = Returned ()
      /\ exists e, revalidatePath proc (lit "/projects") = Threw e).
Proof.
  unfold revalidates.
  destruct (revalidatePath proc (lit "/")) as [[]|e]; [|right; left; eauto].
  destruct (revalidatePath proc (lit "/projects")) as [[]|e]; [left; auto|].
  right; right. eauto.
Qed.

(** X9.  [refreshProjects] never throws.  When both calls of
    [revalidatePath] return, it reports a success whatever the scan
    gave: the count of the projects is the number of the records of the
    scan and the count of the errors the number of its errors, so the
    two counts add up to the number of the results; when the directory
    of the projects cannot be read this is a success with no project
    and one error.  It reports a failure, with no project and one
    error, only when a call of [revalidatePath] throws. *)
Theorem refreshProjects_report (h : Host) (proc : Process) (c : Clock) :
  exists results c1 r c',
    ProjectScannerRest.scanProjects h proc None c = (Returned results, c1)
    /\ Actions.refreshProjects h proc c = (Returned r, c')
    /\ (revalidates proc ->
        Actions.success r = true
        /\ Actions.projectCount r = length (filterSuccessfulScans results)
        /\ Actions.errorCount r = length (filterScanErrors results)
        /\ (Actions.projectCount r + Actions.errorCount r = length results)%nat
        /\ (~ projectsListed h proc ->
            Actions.projectCount r = 0%nat /\ Actions.errorCount r = 1%nat))
    /\ (~ revalidates proc ->
        Actions.success r = false
        /\ Actions.projectCount r = 0%nat /\ Actions.errorCount r = 1%nat).
Proof.
  destruct (listing_facts h proc c)
    as (results & c1 & enriched & c2 & E1 & E2 & _ & _ & F & Hno & _).
  pose proof (Forall2_length _ _ _ F) as Hlen.
  exists results, c1.
  destruct (revalidates_dec proc) as [[R1 R2]|[[e R1]|[R1 [e R2]]]].
  - eexists _, c2. split; [exact E1|]. split.
    + unfold Actions.refreshProjects. apply try_catch_run.
      erewrite bind_run by exact E1. cbv beta zeta.
      erewrite bind_run by exact E2.
      erewrite bind_run by (unfold await; rewrite R1; reflexivity).
      erewrite bind_run by (unfold await; rewrite R2; reflexivity).
      reflexivity.
    + split; [|intros Hnot; exfalso; apply Hnot; split; assumption].
      intros _. cbn [Actions.success Actions.projectCount Actions.errorCount].
      split; [reflexivity|]. split; [symmetry; exact Hlen|]. split; [reflexivity|].
      split; [rewrite <- Hlen; apply filter_lengths|].
      intros Hn. destruct (Hno Hn) as [Hempty (text & _ & Herr)].
      rewrite <- Hlen, Hempty, Herr. split; reflexivity.
  - eexists _, c2. split; [exact E1|]. split.
    + unfold Actions.refreshProjects. erewrite try_catch_throw; [reflexivity|].
      erewrite bind_run by exact E1. cbv beta zeta.
      erewrite bind_run by exact E2.
      apply bind_throw. unfold await. rewrite R1. reflexivity.
    + split; [intros [R _]; congruence|]. intros _. repeat split.
  - eexists _, c2. split; [exact E1|]. split.
    + unfold Actions.refreshProjects. erewrite try_catch_throw; [reflexivity|].
      erewrite bind_run by exact E1. cbv beta zeta.
      erewrite bind_run by exact E2.
      erewrite bind_run by (unfold await; rewrite R1; reflexivity).
      apply bind_throw. unfold await. rewrite R2. reflexivity.
    + split; [intros [_ R]; congruence|]. intros _. repeat split.
Qed.

(** X10.  [GET /api/projects] never throws and never answers with
    [INTERNAL_ERROR].  It answers with status 500 and [SCAN_FAILED]
    exactly when the scan gave an error and no record, the details
    being the texts of the errors joined by a semicolon; this is so
    when the directory of the projects cannot be read.  In every other
    case it answers with the enriched records, the errors of the other
    entries being left out: the total is the number of the records,
    [scannedAt] is read after the enrichment, and the list goes from
    the most recently modified record to the least recently modified
    one when [stat] gives valid dates. *)
Theorem GET_projects_response (h : Host) (proc : Process) (c : Clock) :
  exists results c1 resp c',
    ProjectScannerRest.scanProjects h proc None c = (Returned results, c1)
    /\ ApiRoutes.GET_projects h proc c = (Returned resp, c')
    /\ (filterSuccessfulScans results = [] /\ filterScanErrors results <> [] ->
        resp = ApiRoutes.ProjectsError
                 500 (lit "Failed to scan projects directory") (lit "SCAN_FAILED")
                 (GitUtilsRest.Array_join (lit "; ") (map fst (filterScanErrors results)))
        /\ c' = c1)
    /\ (~ projectsListed h proc ->
        exists text, text <> []
                     /\ resp = ApiRoutes.ProjectsError
                                 500 (lit "Failed to scan projects directory")
                                 (lit "SCAN_FAILED") text)
    /\ (filterSuccessfulScans results <> [] \/ filterScanErrors results = [] ->
        exists enriched c2 listed,
          enrichProjectsWithGitInfo h (filterSuccessfulScans results) c1
          = (Returned enriched, c2)
          /\ resp = ApiRoutes.ProjectList listed (length enriched) (ValidDate (reading c2))
          /\ c' = advance c2
          /\ listed ≡ₚ enriched
          /\ (validStats h -> StronglySorted notOlder listed))
    /\ (forall httpStatus error details,
           resp <> ApiRoutes.ProjectsError httpStatus error (lit "INTERNAL_ERROR") details).
Proof.
  destruct (listing_facts h proc c)
    as (results & c1 & enriched & c2 & E1 & E2 & _ & _ & F & Hno & _ & Hv).
  exists results, c1.
  destruct (filterScanErrors results) as [|err errors] eqn:Ee;
    [|destruct (filterSuccessfulScans results) as [|p ps] eqn:Ep].
  2:{ (* errors and no record *)
      eexists _, c1. split; [exact E1|]. split.
      - unfold ApiRoutes.GET_projects. apply try_catch_run.
        erewrite bind_run by exact E1. cbv beta zeta. rewrite Ee, Ep. reflexivity.
      - split; [intros _; split; reflexivity|].
        split.
        + intros Hn. destruct (Hno Hn) as [_ (text & Ht & Herr)].
          injection Herr as -> ->. exists text. split; [exact Ht | reflexivity].
        + split; [intros [H|H]; [congruence | discriminate]|]. discriminate. }
  all: eexists _, (advance c2); (split; [exact E1|]); split;
    [ unfold ApiRoutes.GET_projects; apply try_catch_run;
      erewrite bind_run by exact E1; cbv beta zeta; rewrite Ee;
      try rewrite Ep; cbn [length Nat.ltb Nat.leb Nat.eqb andb];
      erewrite bind_run by exact E2; cbv beta zeta;
      erewrite bind_run by reflexivity; unfold ret;
      rewrite (Permutation_length (Array_sort_Permutation _ enriched)); reflexivity
    | ].
  - split; [intros [_ H]; congruence|].
    split; [intros Hn; destruct (Hno Hn) as [_ (text & _ & Herr)]; discriminate|].
    split; [|discriminate]. intros _.
    exists enriched, c2, (JsArray.Array_sort JsArray.mostRecentFirst enriched).
    split; [exact E2|]. split; [reflexivity|]. split; [reflexivity|].
    split; [apply Array_sort_Permutation|]. intros Hvalid. apply Array_sort_sorted; auto.
  - split; [intros [H _]; discriminate|].
    split; [intros Hn; destruct (Hno Hn) as [H _]; discriminate|].
    split; [|discriminate]. intros _.
    exists enriched, c2, (JsArray.Array_sort JsArray.mostRecentFirst enriched).
    split; [exact E2|]. split; [reflexivity|]. split; [reflexivity|].
    split; [apply Array_sort_Permutation|]. intros Hvalid. apply Array_sort_sorted; auto.
Qed.

(** ** One project: the route and the detail page *)

Lemma find_by_id (projectId : jsstring) (results : list ScanResult) :
  match List.find (fun p => bool_decide (projectIdOf p = projectId))
                  (filterSuccessfulScans results) with
  | Some p => firstWithId projectId results p
  | None => noneWithId projectId results
  end.
Proof.
  unfold filterSuccessfulScans, noneWithId.
  induction results as [|[p|text pth] results IH]; simpl.
  - intros q Hq. apply elem_of_nil in Hq. contradiction.
  - destruct (bool_decide (projectIdOf p = projectId)) eqn:E.
    + apply bool_decide_eq_true in E. exists [], results.
      split; [reflexivity|]. split; [exact E|]. intros q Hq.
      apply elem_of_nil in Hq. contradiction.
    + apply bool_decide_eq_false in E.
      destruct (List.find _ _) as [p0|].
      * destruct IH as (before & after & -> & Hid & Hb).
        exists (ProjectScanResult p :: before), after.
        split; [reflexivity|]. split; [exact Hid|]. intros q Hq.
        apply elem_of_cons in Hq as [Hq|Hq]; [injection Hq as ->; exact E | auto].
      * intros q Hq. apply elem_of_cons in Hq as [Hq|Hq];
          [injection Hq as ->; exact E | auto].
  - destruct (List.find _ _) as [p0|].
    + destruct IH as (before & after & -> & Hid & Hb).
      exists (ProjectScanError text pth :: before), after.
      split; [reflexivity|]. split; [exact Hid|]. intros q Hq.
      apply elem_of_cons in Hq as [Hq|Hq]; [discriminate | auto].
    + intros q Hq. apply elem_of_cons in Hq as [Hq|Hq]; [discriminate | auto].
Qed.

Lemma firstWithId_unique (projectId : jsstring) (results : list ScanResult)
      (p q : Project) :
  firstWithId projectId results p -> firstWithId projectId results q -> p = q.
Proof.
  intros (b1 & a1 & E1 & I1 & N1) (b2 & a2 & E2 & I2 & N2). subst results.
  revert b2 E2 N2. induction b1 as [|r b1 IH]; intros [|r2 b2] E2 N2; simpl in E2.
  - congruence.
  - injection E2 as <- _. exfalso. eapply N2; [left | exact I1].
  - injection E2 as -> _. exfalso. eapply N1; [left | exact I2].
  - injection E2 as -> E2. eapply IH; [| exact E2 |].
    + intros q0 Hq. apply N1. right. exact Hq.
    + intros q0 Hq. apply N2. right. exact Hq.
Qed.

(** The recomputation of the status of the found record. *)
Lemma detail_status (h : Host) (p : Project) (c : Clock) (gitResult : GetGitStatusResult) :
  getStatusReturns h (path p) gitResult ->
  exists p' c',
    match gitResult with
    | GitStatusResult g =>
        bind (determineProjectStatus (Some g) (lastModified p))
             (fun s => ret (withGitInfo p g s))
    | GitStatusError _ => ret p
    end c
    = (Returned p', c')
    /\ laterClock c c' /\ detailedAt h p c p'.
Proof.
  intros H. destruct gitResult as [g|text].
  - eexists _, _. split; [|split; [|right; exists g; split; [exact H | reflexivity]]].
    + erewrite bind_run by apply determineProjectStatus_run. reflexivity.
    + destruct (isDirty g); [apply laterClock_refl | apply laterClock_advance].
  - exists p, c. split; [reflexivity|]. split; [apply laterClock_refl | left; eauto].
Qed.

(** X11.  [GET /api/projects/[id]] never throws and never answers with
    [INTERNAL_ERROR].  An empty id is answered with status 400 without
    a scan.  Another id is answered with status 404 when no record of
    the scan has it, which is so for every id when the directory of the
    projects cannot be read; otherwise the answer is made from the
    first record of the scan with that id: the record itself when
    [getGitStatus] gives an error, and otherwise the record with the
    repository information and the status of the rule of section 4.2,
    the modification date of the record standing in for a missing
    commit date. *)
Theorem GET_project_response (h : Host) (proc : Process) (projectId : jsstring)
        (c : Clock) :
  exists resp c',
    ApiRoutes.GET_project h proc projectId c = (Returned resp, c')
    /\ (projectId = [] ->
        resp = ApiRoutes.ProjectError 400 (lit "Invalid project ID") (lit "INVALID_ID")
                                      (lit "Project ID must be a non-empty string")
        /\ c' = c)
    /\ (projectId <> [] ->
        exists results c1,
          ProjectScannerRest.scanProjects h proc None c = (Returned results, c1)
          /\ (noneWithId projectId results ->
              resp = ApiRoutes.ProjectError
                       404 (lit "Project not found") (lit "NOT_FOUND")
                       (lit "No project found with ID: " ++ projectId)
              /\ c' = c1)
          /\ (~ projectsListed h proc -> noneWithId projectId results)
          /\ (forall p, firstWithId projectId results p ->
                        exists p' c2,
                          resp = ApiRoutes.ProjectDetail p' (ValidDate (reading c2))
                          /\ c' = advance c2
                          /\ laterClock c1 c2
                          /\ detailedAt h p c1 p'))
    /\ (forall httpStatus error details,
           resp <> ApiRoutes.ProjectError httpStatus error (lit "INTERNAL_ERROR") details).
Proof.
  destruct projectId as [|u projectId].
  { eexists _, c. split; [reflexivity|]. split; [intros _; split; reflexivity|].
    split; [intros H; congruence | discriminate]. }
  set (wanted := u :: projectId).
  destruct (listing_facts h proc c) as (results & c1 & _ & _ & E1 & _ & _ & _ & _ & Hno & _).
  pose proof (find_by_id wanted results) as Hfind.
  assert (Hnone : ~ projectsListed h proc -> noneWithId wanted results).
  { intros Hn q Hq. destruct (Hno Hn) as [Hempty _].
    apply filterSuccessfulScans_elem in Hq. rewrite Hempty in Hq.
    apply elem_of_nil in Hq. contradiction. }
  destruct (List.find (fun p => bool_decide (projectIdOf p = wanted))
                      (filterSuccessfulScans results)) as [p|] eqn:Ef.
  - destruct (getGitStatus_pure h (path p)) as [gitResult Hg].
    destruct (detail_status h p c1 gitResult Hg) as (p' & c2 & Ed & Ld & Hd).
    exists (ApiRoutes.ProjectDetail p' (ValidDate (reading c2))), (advance c2).
    split; [|split; [discriminate | split; [|discriminate]]].
    + unfold ApiRoutes.GET_project. apply try_catch_run. cbn [truthy wanted negb].
      erewrite bind_run by exact E1. cbv beta zeta. fold wanted. rewrite Ef.
      erewrite bind_run by apply Hg.
      erewrite bind_run by exact Ed. reflexivity.
    + intros _. exists results, c1. split; [exact E1|].
      split.
      { intros Hn. exfalso. destruct Hfind as (before & after & -> & Hid & _).
        eapply Hn; [|exact Hid]. apply elem_of_app. right. left. }
      split; [exact Hnone|].
      intros q Hq. rewrite (firstWithId_unique _ _ _ _ Hq Hfind).
      exists p', c2. split; [reflexivity|]. split; [reflexivity|]. split; assumption.
  - exists (ApiRoutes.ProjectError 404 (lit "Project not found") (lit "NOT_FOUND")
                                   (lit "No project found with ID: " ++ wanted)), c1.
    split; [|split; [discriminate | split;
                                    [|intros ? ? ? [= _ _ H _]; vm_compute in H;
                                      discriminate]]].
    + unfold ApiRoutes.GET_project. apply try_catch_run. cbn [truthy wanted negb].
      erewrite bind_run by exact E1. cbv beta zeta. fold wanted. rewrite Ef. reflexivity.
    + intros _. exists results, c1. split; [exact E1|].
      split; [intros _; split; reflexivity|]. split; [exact Hnone|].
      intros q (before & after & -> & Hid & _). exfalso.
      eapply Hfind; [|exact Hid]. apply elem_of_app. right. left.
Qed.

Lemma getGitRemoteUrl_pure (h : Host) (projectPath : jsstring) :
  exists r, forall c : Clock, getGitRemoteUrl h projectPath c = (Returned r, c).
Proof.
  unfold getGitRemoteUrl. run_eff.
  destruct (git_open h projectPath) as [[]|e1]; simpl; [|eexists; reflexivity].
  destruct (git_checkIsRepo h projectPath) as [[|]|e2]; simpl; try (eexists; reflexivity).
  destruct (git_getRemotes h projectPath) as [remotes|e3]; simpl; [|eexists; reflexivity].
  destruct (originOrFirst remotes) as [origin|]; [|eexists; reflexivity].
  destruct (truthy (refs_fetch origin)); eexists; reflexivity.
Qed.

(** X12.  [getProject] of the detail page never throws.  It gives
    nothing when no record of the scan has the id, and otherwise the
    first record of the scan with that id, made as the route of one
    project makes it, with the text that [getReadmeContent] returns for
    its path and the URL that [getGitRemoteUrl] returns for it. *)
Theorem getProject_detail (h : Host) (proc : Process) (projectId : jsstring) (c : Clock) :
  exists results c1 r c',
    ProjectScannerRest.scanProjects h proc None c = (Returned results, c1)
    /\ ProjectDetailPage.getProject h proc projectId c = (Returned r, c')
    /\ laterClock c1 c'
    /\ (noneWithId projectId results -> r = None)
    /\ (forall p, firstWithId projectId results p ->
                  exists d remote,
                    r = Some d
                    /\ detailedAt h p c1 (ProjectDetailPage.project d)
                    /\ getReadmeContent h (path p) c1
                       = (Returned (ProjectDetailPage.readmeContent d), c1)
                    /\ getGitRemoteUrl h (path p) c1 = (Returned remote, c1)
                    /\ ProjectDetailPage.gitRemoteUrl d = url remote).
Proof.
  destruct (listing_facts h proc c) as (results & c1 & _ & _ & E1 & _).
  pose proof (find_by_id projectId results) as Hfind.
  exists results, c1.
  destruct (List.find (fun p => bool_decide (projectIdOf p = projectId))
                      (filterSuccessfulScans results)) as [p|] eqn:Ef.
  - destruct (getGitStatus_pure h (path p)) as [gitResult Hg].
    destruct (detail_status h p c1 gitResult Hg) as (p' & c2 & Ed & Ld & Hd).
    destruct (readmeLoop_returns h (path p) README_FILES c1) as [readme Er].
    destruct (getGitRemoteUrl_pure h (path p)) as [remote Eu].
    exists (Some {| ProjectDetailPage.project := p';
                    ProjectDetailPage.readmeContent := readme;
                    ProjectDetailPage.gitRemoteUrl := url remote |}), c2.
    split; [exact E1|]. split; [|split; [exact Ld | split]].
    + unfold ProjectDetailPage.getProject. apply try_catch_run.
      erewrite bind_run by exact E1. cbv beta zeta. rewrite Ef.
      erewrite bind_run by apply Hg.
      erewrite bind_run by exact Er.
      erewrite bind_run by apply Eu.
      erewrite bind_run by exact Ed. reflexivity.
    + intros Hn. exfalso. destruct Hfind as (before & after & -> & Hid & _).
      eapply Hn; [|exact Hid]. apply elem_of_app. right. left.
    + intros q Hq. rewrite (firstWithId_unique _ _ _ _ Hq Hfind).
      eexists _, remote. split; [reflexivity|]. split; [exact Hd|].
      split; [exact Er|]. split; [apply Eu | reflexivity].
  - exists None, c1. split; [exact E1|]. split; [|split; [apply laterClock_refl | split]].
    + unfold ProjectDetailPage.getProject. apply try_catch_run.
      erewrite bind_run by exact E1. cbv beta zeta. rewrite Ef. reflexivity.
    + reflexivity.
    + intros q (before & after & -> & Hid & _). exfalso.
      eapply Hfind; [|exact Hid]. apply elem_of_app. right. left.
Qed.

(** ** The tag file *)

Section TagFileFacts.

Import TagStorageWrites.

Variable st : Storage.

Lemma ensureConfigDirectory_run (w : World) :
  ensureConfigDirectory st w = (Returned (), w).
Proof.
  unfold ensureConfigDirectory, io_try_catch, io_await, io_ret.
  destruct (fs_mkdir st (CONFIG_DIR st)) as [[]|e]; reflexivity.
Qed.

Lemma loadProjectTags_world (w : World) :
  loadProjectTags st w = (Returned (storedTags st w), w).
Proof.
  destruct w as [c file].
  unfold loadProjectTags, TagStorageWrites.reading, TagStorage.loadProjectTags, storedTags.
  unfold try_catch, bind, await, ret. cbn [hostAt fs_readFile JSON_parse_tags clock tagFile].
  rewrite bool_decide_eq_true_2 by reflexivity.
  destruct file as [content|e]; [|reflexivity].
  destruct (JSON_parse_tags (base st) content); reflexivity.
Qed.

Lemma getProjectTags_world (projectId : jsstring) (w : World) :
  getProjectTags st projectId w = (Returned (tagsOf st w projectId), w).
Proof.
  pose proof (loadProjectTags_world w) as H. destruct w as [c file].
  unfold loadProjectTags, getProjectTags, TagStorageWrites.reading in *.
  unfold TagStorage.getProjectTags, bind.
  destruct (TagStorage.loadProjectTags _ _) as [[m|e] c']; [|discriminate].
  injection H as -> ->. reflexivity.
Qed.

End TagFileFacts.

Section TagWrites.

Import TagStorageWrites.

Variable st : Storage.

(** The map that [saveProjectTags] writes. *)
Lemma saveProjectTags_writes (projectId : jsstring) (newTags : list jsstring) (w : World) :
  let allTags := match newTags with
                 | [] => delete projectId (storedTags st w)
                 | _ :: _ => <[projectId := newTags]> (storedTags st w)
                 end in
  saveProjectTags st projectId newTags w
  = match fs_writeFile_throws st (TAGS_FILE st) (JSON_stringify_tags st allTags) with
    | Some e => (Threw (saveError projectId e), w)
    | None => (Returned (), {| clock := clock w;
                               tagFile := Returned (JSON_stringify_tags st allTags) |})
    end.
Proof.
  unfold saveProjectTags, io_try_catch, io_bind.
  rewrite ensureConfigDirectory_run, loadProjectTags_world. unfold writeTagsFile.
  destruct newTags as [|t ts]; cbn [length Nat.eqb];
    match goal with |- context [fs_writeFile_throws st ?p ?x] =>
      destruct (fs_writeFile_throws st p x) end; reflexivity.
Qed.

Lemma storedTags_written (allTags : gmap jsstring (list jsstring)) (c : Clock) :
  parsesBack st ->
  storedTags st {| clock := c; tagFile := Returned (JSON_stringify_tags st allTags) |}
  = allTags.
Proof. intros H. unfold storedTags. cbn [tagFile]. rewrite H. reflexivity. Qed.

Lemma tagsOf_saved (projectId other : jsstring) (newTags : list jsstring)
      (m : gmap jsstring (list jsstring)) :
  default [] (match newTags with
              | [] => delete projectId m
              | _ :: _ => <[projectId := newTags]> m
              end !! other)
  = if bool_decide (other = projectId) then newTags else default [] (m !! other).
Proof.
  destruct (bool_decide (other = projectId)) eqn:E.
  - apply bool_decide_eq_true in E as ->.
    destruct newTags; [rewrite lookup_delete_eq | rewrite lookup_insert_eq]; reflexivity.
  - apply bool_decide_eq_false in E.
    destruct newTags; [rewrite lookup_delete_ne | rewrite lookup_insert_ne]; congruence.
Qed.

End TagWrites.

(** X13.  When the tag file can be written and is read back as it was
    written, [saveProjectTags] returns and leaves the clock as it was;
    afterwards [getProjectTags] gives the saved tags for the project
    and, for every other project, the tags it had before (the ids being
    none of the names that every object inherits).  Saving no
    tag removes the entry of the project.  A tag file that could not be
    read, or was not valid, is replaced: after the save of a tag list
    it holds the entry of this project only. *)
Theorem saveProjectTags_then_get (st : TagStorageWrites.Storage) (projectId : jsstring)
        (newTags : list jsstring) (w : TagStorageWrites.World) :
  parsesBack st -> writable st -> ordinaryId projectId ->
  exists w',
    TagStorageWrites.saveProjectTags st projectId newTags w = (Returned (), w')
    /\ TagStorageWrites.clock w' = TagStorageWrites.clock w
    /\ (forall other,
           ordinaryId other ->
           TagStorageWrites.getProjectTags st other w'
           = (Returned (if bool_decide (other = projectId) then newTags
                        else tagsOf st w other), w'))
    /\ (newTags = [] -> storedTags st w' !! projectId = None)
    /\ ((forall content, TagStorageWrites.tagFile w = Returned content ->
                         exists e, JSON_parse_tags (TagStorageWrites.base st) content
                                   = Threw e) ->
        newTags <> [] ->
        storedTags st w' = {[ projectId := newTags ]}).
Proof.
  intros Hback Hwrite _.
  pose proof (saveProjectTags_writes st projectId newTags w) as E. cbv zeta in E.
  rewrite Hwrite in E. eexists. split; [exact E|]. split; [reflexivity|].
  split; [|split].
  - intros other _. rewrite getProjectTags_world. unfold tagsOf at 1.
    rewrite storedTags_written by exact Hback. rewrite tagsOf_saved. reflexivity.
  - intros ->. rewrite storedTags_written by exact Hback. apply lookup_delete_eq.
  - intros Hbad Hne. rewrite storedTags_written by exact Hback.
    assert (Hempty : storedTags st w = ∅).
    { unfold storedTags. destruct (TagStorageWrites.tagFile w) as [content|e]; [|reflexivity].
      destruct (Hbad content eq_refl) as [e ->]. reflexivity. }
    rewrite Hempty. destruct newTags; [congruence|]. apply insert_empty.
Qed.

Lemma disk_parsesBack : parsesBack MoreExamples.disk.
Proof.
  intros m. cbn. unfold MoreExamples.parseTags. rewrite decode_encode. reflexivity.
Qed.

Lemma disk_writable : writable MoreExamples.disk.
Proof. intros content. reflexivity. Qed.

Lemma proj_a_ordinary : ordinaryId (lit "proj-a").
Proof. apply (bool_decide_unpack _). vm_compute. exact I. Qed.

Lemma saveProjectTags_then_get_witness :
  exists w',
    TagStorageWrites.saveProjectTags MoreExamples.disk (lit "proj-a") [lit "web"]
                                     MoreExamples.freshWorld
    = (Returned (), w')
    /\ TagStorageWrites.getProjectTags MoreExamples.disk (lit "proj-a") w'
       = (Returned [lit "web"], w')
    /\ storedTags MoreExamples.disk w' = {[ lit "proj-a" := [lit "web"] ]}.
Proof.
  destruct (saveProjectTags_then_get MoreExamples.disk (lit "proj-a") [lit "web"]
              MoreExamples.freshWorld disk_parsesBack disk_writable proj_a_ordinary)
    as (w' & E & _ & G & _ & B).
  exists w'. split; [exact E|]. split.
  - rewrite G by exact proj_a_ordinary.
    rewrite bool_decide_eq_true_2 by reflexivity. reflexivity.
  - apply B; [discriminate | discriminate].
Defined.

Lemma addTagToProject_run (st : TagStorageWrites.Storage) (projectId tag : jsstring)
      (w : TagStorageWrites.World) :
  TagStorageWrites.addTagToProject st projectId tag w
  = if bool_decide (tag ∈ tagsOf st w projectId) then (Returned (), w)
    else TagStorageWrites.saveProjectTags st projectId (tagsOf st w projectId ++ [tag]) w.
Proof.
  unfold TagStorageWrites.addTagToProject, TagStorageWrites.io_bind.
  rewrite getProjectTags_world. unfold TagStorageWrites.includes.
  destruct (bool_decide (tag ∈ tagsOf st w projectId)); reflexivity.
Qed.

Lemma removeTagFromProject_run (st : TagStorageWrites.Storage) (projectId tag : jsstring)
      (w : TagStorageWrites.World) :
  TagStorageWrites.removeTagFromProject st projectId tag w
  = TagStorageWrites.saveProjectTags
      st projectId
      (List.filter (fun t => negb (bool_decide (t = tag))) (tagsOf st w projectId)) w.
Proof.
  unfold TagStorageWrites.removeTagFromProject, TagStorageWrites.io_bind.
  rewrite getProjectTags_world. reflexivity.
Qed.




Lemma saveProjectTags_saved (st : TagStorageWrites.Storage) (projectId : jsstring)
      (newTags : list jsstring) (w : TagStorageWrites.World) :
  parsesBack st -> writable st ->
  exists w',
    TagStorageWrites.saveProjectTags st projectId newTags w = (Returned (), w')
    /\ TagStorageWrites.clock w' = TagStorageWrites.clock w
    /\ storedTags st w' = match newTags with
                          | [] => delete projectId (storedTags st w)
                          | _ :: _ => <[projectId := newTags]> (storedTags st w)
                          end
    /\ forall other,
        tagsOf st w' other
        = if bool_decide (other = projectId) then newTags else tagsOf st w other.
Proof.
  intros Hback Hwrite.
  pose proof (saveProjectTags_writes st projectId newTags w) as E. cbv zeta in E.
  rewrite Hwrite in E. eexists. split; [exact E|]. split; [reflexivity|].
  split; [apply storedTags_written, Hback|].
  intros other. unfold tagsOf at 1. rewrite storedTags_written by exact Hback.
  apply tagsOf_saved.
Qed.

(** X15.  For a project id that is none of the names that every
    object inherits: when the tag file can be written and is read back
    as it was written, [addTagToProject] returns, and afterwards the project has
    the tag: its tags are those it had, followed by the new tag when it
    did not have it.  No tag is made double, the tags of the other
    projects are as before, and adding the same tag once more changes
    nothing. *)
Theorem addTagToProject_adds (st : TagStorageWrites.Storage) (projectId tag : jsstring)
        (w : TagStorageWrites.World) :
  parsesBack st -> writable st -> ordinaryId projectId ->
  exists w',
    TagStorageWrites.addTagToProject st projectId tag w = (Returned (), w')
    /\ tagsOf st w' projectId
       = (if bool_decide (tag ∈ tagsOf st w projectId) then tagsOf st w projectId
          else tagsOf st w projectId ++ [tag])
    /\ tag ∈ tagsOf st w' projectId
    /\ (NoDup (tagsOf st w projectId) -> NoDup (tagsOf st w' projectId))
    /\ (forall other, other <> projectId -> tagsOf st w' other = tagsOf st w other)
    /\ TagStorageWrites.addTagToProject st projectId tag w' = (Returned (), w').
Proof.
  intros Hback Hwrite _.
  destruct (decide (tag ∈ tagsOf st w projectId)) as [Hin|Hnot].
  - exists w. rewrite addTagToProject_run, !bool_decide_eq_true_2 by exact Hin.
    repeat split; auto.
  - destruct (saveProjectTags_saved st projectId (tagsOf st w projectId ++ [tag]) w
                Hback Hwrite) as (w' & E & _ & _ & Ht).
    exists w'. rewrite addTagToProject_run, !bool_decide_eq_false_2 by exact Hnot.
    pose proof (Ht projectId) as Hid. rewrite bool_decide_eq_true_2 in Hid by reflexivity.
    split; [exact E|]. split; [exact Hid|].
    assert (Hnow : tag ∈ tagsOf st w' projectId)
      by (rewrite Hid; apply elem_of_app; right; left).
    split; [exact Hnow|]. split; [|split].
    + intros Hnd. rewrite Hid. apply NoDup_app. split; [exact Hnd|].
      split; [|apply NoDup_singleton].
      intros x Hx Hx'. apply list_elem_of_singleton in Hx'. subst x. contradiction.
    + intros other Hne. rewrite Ht, bool_decide_eq_false_2 by exact Hne. reflexivity.
    + rewrite addTagToProject_run, bool_decide_eq_true_2 by exact Hnow. reflexivity.
Qed.

Lemma addTagToProject_adds_witness :
  exists w',
    TagStorageWrites.addTagToProject MoreExamples.disk (lit "proj-a") (lit "web")
                                     MoreExamples.freshWorld
    = (Returned (), w')
    /\ tagsOf MoreExamples.disk w' (lit "proj-a") = [lit "web"].
Proof.
  destruct (addTagToProject_adds MoreExamples.disk (lit "proj-a") (lit "web")
              MoreExamples.freshWorld disk_parsesBack disk_writable proj_a_ordinary)
    as (w' & E & Ht & _).
  exists w'. split; [exact E|]. rewrite Ht. reflexivity.
Defined.

Lemma List_filter_sublist {A} (f : A -> bool) (l : list A) :
  List.filter f l `sublist_of` l.
Proof.
  induction l as [|t l IH]; simpl; [constructor|].
  destruct (f t); constructor; exact IH.
Qed.

(** X16.  For a project id that is none of the names that every
    object inherits: when the tag file can be written and is read back
    as it was written, [removeTagFromProject] returns, and afterwards the project
    does not have the tag: its tags are those it had without every
    occurrence of the tag, in the order they had.  The tags of the
    other projects are as before, and when no tag is left the entry of
    the project is removed from the tag file. *)
Theorem removeTagFromProject_removes (st : TagStorageWrites.Storage)
        (projectId tag : jsstring) (w : TagStorageWrites.World) :
  parsesBack st -> writable st -> ordinaryId projectId ->
  exists w',
    TagStorageWrites.removeTagFromProject st projectId tag w = (Returned (), w')
    /\ (tag ∉ tagsOf st w' projectId)
    /\ (forall t, t ∈ tagsOf st w' projectId <-> t ∈ tagsOf st w projectId /\ t <> tag)
    /\ tagsOf st w' projectId `sublist_of` tagsOf st w projectId
    /\ (forall other, other <> projectId -> tagsOf st w' other = tagsOf st w other)
    /\ ((forall t, t ∈ tagsOf st w projectId -> t = tag) ->
        storedTags st w' !! projectId = None).
Proof.
  intros Hback Hwrite _.
  set (kept := List.filter (fun t => negb (bool_decide (t = tag))) (tagsOf st w projectId)).
  destruct (saveProjectTags_saved st projectId kept w Hback Hwrite)
    as (w' & E & _ & Hs & Ht).
  exists w'. rewrite removeTagFromProject_run. fold kept.
  pose proof (Ht projectId) as Hid. rewrite bool_decide_eq_true_2 in Hid by reflexivity.
  assert (Hkept : forall t, t ∈ kept <-> t ∈ tagsOf st w projectId /\ t <> tag).
  { intros t. unfold kept. rewrite !list_elem_of_In, filter_In, negb_true_iff.
    rewrite bool_decide_eq_false. reflexivity. }
  assert (Hsub : kept `sublist_of` tagsOf st w projectId) by apply List_filter_sublist.
  clearbody kept.
  split; [exact E|]. rewrite Hid.
  split; [intros Hin; apply Hkept in Hin as [_ Hne]; congruence|].
  split; [exact Hkept|].
  split; [exact Hsub|].
  split.
  - intros other Hne. rewrite Ht, bool_decide_eq_false_2 by exact Hne. reflexivity.
  - intros Hall. rewrite Hs.
    assert (Hnil : kept = []).
    { destruct kept as [|t l]; [reflexivity|]. exfalso.
      assert (Hin : t ∈ t :: l) by left.
      apply Hkept in Hin as [Hin Hne]. apply Hne, Hall, Hin. }
    rewrite Hnil. apply lookup_delete_eq.
Qed.

Lemma removeTagFromProject_removes_witness :
  exists w',
    TagStorageWrites.removeTagFromProject MoreExamples.disk (lit "proj-a") (lit "web")
                                          MoreExamples.freshWorld
    = (Returned (), w')
    /\ tagsOf MoreExamples.disk w' (lit "proj-a") = [].
Proof.
  destruct (removeTagFromProject_removes MoreExamples.disk (lit "proj-a") (lit "web")
              MoreExamples.freshWorld disk_parsesBack disk_writable proj_a_ordinary)
    as (w' & E & _ & _ & _ & _ & Hd).
  exists w'. split; [exact E|]. unfold tagsOf. rewrite Hd; [reflexivity|].
  intros t Ht. apply elem_of_nil in Ht. contradiction.
Defined.

(** ** The order of the tags *)

Lemma codeUnitsLe_total (a b : jsstring) :
  TagStorageWrites.codeUnitsLe a b = true \/ TagStorageWrites.codeUnitsLe b a = true.
Proof.
  revert b. induction a as [|x a IH]; intros [|y b]; simpl; auto.
  destruct (N.ltb_spec x y), (N.ltb_spec y x); auto; lia.
Qed.

Lemma codeUnitsLe_trans (a b d : jsstring) :
  TagStorageWrites.codeUnitsLe a b = true -> TagStorageWrites.codeUnitsLe b d = true ->
  TagStorageWrites.codeUnitsLe a d = true.
Proof.
  revert b d. induction a as [|x a IH]; intros [|y b] [|z d]; simpl; auto;
    try discriminate.
  destruct (N.ltb_spec x y), (N.ltb_spec y x), (N.ltb_spec y z), (N.ltb_spec z y),
    (N.ltb_spec x z), (N.ltb_spec z x);
    try discriminate; try reflexivity; try lia.
  apply IH.
Qed.

#[local] Instance codeUnitOrder_total : Total TagStorageWrites.codeUnitOrder.
Proof. intros a b. apply codeUnitsLe_total. Qed.

#[local] Instance codeUnitOrder_trans : Transitive TagStorageWrites.codeUnitOrder.
Proof. intros a b d. apply codeUnitsLe_trans. Qed.

Lemma elem_of_all_tags (m : gmap jsstring (list jsstring)) (t : jsstring) :
  t ∈ (⋃ ((fun entry : jsstring * list jsstring => list_to_set entry.2)
            <$> map_to_list m) : gset jsstring)
  <-> exists projectId, t ∈ default [] (m !! projectId).
Proof.
  rewrite elem_of_union_list. split.
  - intros (X & HX & Ht). apply list_elem_of_fmap in HX as ([k l] & -> & Hkl).
    apply elem_of_map_to_list in Hkl. apply elem_of_list_to_set in Ht.
    exists k. rewrite Hkl. exact Ht.
  - intros (k & Ht). destruct (m !! k) as [l|] eqn:Hk;
      [|apply elem_of_nil in Ht; contradiction].
    exists (list_to_set l). split; [|apply elem_of_list_to_set; exact Ht].
    apply list_elem_of_fmap. exists (k, l). split; [reflexivity|].
    apply elem_of_map_to_list. exact Hk.
Qed.

(** X17.  [getAllTags] returns and changes nothing.  Its list holds
    exactly the tags that some project has in the tag file, each once,
    in the order of the code units of the strings: every tag of the
    list is before or equal to every tag after it. *)
Theorem getAllTags_sorted (st : TagStorageWrites.Storage) (w : TagStorageWrites.World) :
  exists allTags,
    TagStorageWrites.getAllTags st w = (Returned allTags, w)
    /\ NoDup allTags
    /\ StronglySorted TagStorageWrites.codeUnitOrder allTags
    /\ forall t, t ∈ allTags <-> exists projectId, t ∈ tagsOf st w projectId.
Proof.
  eexists. split; [|split; [|split]].
  - unfold TagStorageWrites.getAllTags, TagStorageWrites.io_bind.
    rewrite loadProjectTags_world. reflexivity.
  - rewrite merge_sort_Permutation. apply NoDup_elements.
  - apply StronglySorted_merge_sort; apply _.
  - intros t. rewrite merge_sort_Permutation, elem_of_elements.
    apply elem_of_all_tags.
Qed.

(** ** The actions on the tags *)

Lemma revalidateTagPages_run (proc : Process) (projectId : jsstring)
      (w : TagStorageWrites.World) :
  (revalidatesTags proc projectId
   /\ TagStorageWrites.revalidateTagPages proc projectId w = (Returned (), w))
  \/ (~ revalidatesTags proc projectId
      /\ exists e, TagStorageWrites.revalidateTagPages proc projectId w = (Threw e, w)).
Proof.
  unfold revalidatesTags, TagStorageWrites.revalidateTagPages, TagStorageWrites.io_bind,
    TagStorageWrites.io_await.
  destruct (revalidatePath proc (lit "/")) as [[]|e1];
    [|right; split; [intros (H & _); discriminate | eauto]].
  destruct (revalidatePath proc (lit "/projects")) as [[]|e2];
    [|right; split; [intros (_ & H & _); discriminate | eauto]].
  destruct (revalidatePath proc (lit "/projects/" ++ projectId)) as [[]|e3];
    [left; auto | right; split; [intros (_ & _ & H); discriminate | eauto]].
Qed.

(** X18.  For a project id that is none of the names that every
    object inherits: when the tag file can be written and is read back
    as it was written, the actions [addProjectTag] and [removeProjectTag] return
    and the change is made in the tag file in every case: after the
    one the project has the tag, after the other it does not.  When the
    three calls of [revalidatePath] return, the action reports a
    success with the tags that the project now has; when one of them
    throws, it reports a failure without tags, although the change is
    made. *)
Theorem tag_actions_report (st : TagStorageWrites.Storage) (proc : Process)
        (projectId tag : jsstring) (w : TagStorageWrites.World) :
  parsesBack st -> writable st -> ordinaryId projectId ->
  (exists r w',
      TagStorageWrites.addProjectTag st proc projectId tag w = (Returned r, w')
      /\ tag ∈ tagsOf st w' projectId
      /\ (revalidatesTags proc projectId ->
          r = {| TagStorageWrites.success := true;
                 TagStorageWrites.message :=
                   lit "Tag " ++ [34%N] ++ tag ++ [34%N] ++ lit " added to project";
                 TagStorageWrites.tags := Some (tagsOf st w' projectId) |})
      /\ (~ revalidatesTags proc projectId ->
          TagStorageWrites.success r = false /\ TagStorageWrites.tags r = None))
  /\ (exists r w',
         TagStorageWrites.removeProjectTag st proc projectId tag w = (Returned r, w')
         /\ (tag ∉ tagsOf st w' projectId)
         /\ (revalidatesTags proc projectId ->
             r = {| TagStorageWrites.success := true;
                    TagStorageWrites.message :=
                      lit "Tag " ++ [34%N] ++ tag ++ [34%N] ++ lit " removed from project";
                    TagStorageWrites.tags := Some (tagsOf st w' projectId) |})
         /\ (~ revalidatesTags proc projectId ->
             TagStorageWrites.success r = false /\ TagStorageWrites.tags r = None)).
Proof.
  intros Hback Hwrite _. split.
  - destruct (decide (tag ∈ tagsOf st w projectId)) as [Hin|Hnot].
    + assert (Ea : TagStorageWrites.addTagToProject st projectId tag w = (Returned (), w))
        by (rewrite addTagToProject_run, bool_decide_eq_true_2 by exact Hin; reflexivity).
      destruct (revalidateTagPages_run proc projectId w) as [[Hr Er]|[Hr [e Er]]];
        eexists _, w;
        (split; [unfold TagStorageWrites.addProjectTag, TagStorageWrites.io_try_catch,
                   TagStorageWrites.io_bind;
                 rewrite Ea, getProjectTags_world, Er; reflexivity|]);
        (split; [exact Hin|]); split; try (intros; contradiction); intros _;
        [reflexivity | split; reflexivity].
    + destruct (saveProjectTags_saved st projectId (tagsOf st w projectId ++ [tag]) w
                  Hback Hwrite) as (w' & E & _ & _ & Ht).
      assert (Ea : TagStorageWrites.addTagToProject st projectId tag w = (Returned (), w'))
        by (rewrite addTagToProject_run, bool_decide_eq_false_2 by exact Hnot; exact E).
      assert (Hnow : tag ∈ tagsOf st w' projectId).
      { rewrite Ht, bool_decide_eq_true_2 by reflexivity. apply elem_of_app. right. left. }
      destruct (revalidateTagPages_run proc projectId w') as [[Hr Er]|[Hr [e Er]]];
        eexists _, w';
        (split; [unfold TagStorageWrites.addProjectTag, TagStorageWrites.io_try_catch,
                   TagStorageWrites.io_bind;
                 rewrite Ea, getProjectTags_world, Er; reflexivity|]);
        (split; [exact Hnow|]); split; try (intros; contradiction); intros _;
        [reflexivity | split; reflexivity].
  - set (kept := List.filter (fun t => negb (bool_decide (t = tag)))
                             (tagsOf st w projectId)).
    destruct (saveProjectTags_saved st projectId kept w Hback Hwrite)
      as (w' & E & _ & _ & Ht).
    assert (Er0 : TagStorageWrites.removeTagFromProject st projectId tag w
                  = (Returned (), w'))
      by (rewrite removeTagFromProject_run; exact E).
    assert (Hnow : tag ∉ tagsOf st w' projectId).
    { rewrite Ht, bool_decide_eq_true_2 by reflexivity. unfold kept.
      rewrite list_elem_of_In, filter_In, negb_true_iff, bool_decide_eq_false.
      intros [_ H]. congruence. }
    destruct (revalidateTagPages_run proc projectId w') as [[Hr Er]|[Hr [e Er]]];
      eexists _, w';
      (split; [unfold TagStorageWrites.removeProjectTag, TagStorageWrites.io_try_catch,
                 TagStorageWrites.io_bind;
               rewrite Er0, getProjectTags_world, Er; reflexivity|]);
      (split; [exact Hnow|]); split; try (intros; contradiction); intros _;
      [reflexivity | split; reflexivity].
Qed.

Lemma tag_actions_report_witness :
  exists r w',
    TagStorageWrites.addProjectTag MoreExamples.disk MoreExamples.server
                                   (lit "proj-a") (lit "web") MoreExamples.freshWorld
    = (Returned r, w')
    /\ TagStorageWrites.success r = true
    /\ lit "web" ∈ tagsOf MoreExamples.disk w' (lit "proj-a").
Proof.
  destruct (tag_actions_report MoreExamples.disk MoreExamples.server
              (lit "proj-a") (lit "web") MoreExamples.freshWorld
              disk_parsesBack disk_writable proj_a_ordinary)
    as [(r & w' & E & Hin & Hok & _) _].
  exists r, w'. split; [exact E|]. split; [|exact Hin].
  rewrite Hok; [reflexivity|]. repeat split.
Defined.

(** ** More on the ids and on the repository information *)

(** X19.  Whatever [toLowerCase] does, an id that [createProjectId]
    makes holds only the characters a-z, 0-9, dash and underscore, has
    no two dashes in a row, and neither starts nor ends with a dash. *)
Theorem createProjectId_shape (toLowerCase : jsstring -> jsstring) (x : jsstring) :
  let projectId := createProjectId toLowerCase x in
  Forall (fun u => isIdUnit u = true) projectId
  /\ noDashPair projectId
  /\ headNotDash projectId
  /\ last projectId <> Some DASH.
Proof.
  cbv zeta. split; [apply createProjectId_units|].
  unfold createProjectId.
  destruct (trimDashes_shape (collapseDashes (replaceOthers (toLowerCase x)))
              (collapseDashes_noDashPair _)) as (w & -> & Hp & Hh).
  split; [apply removeLastDash_noDashPair, Hp|].
  split; [apply removeLastDash_head, Hh | apply removeLastDash_last, Hp].
Qed.

(** X20.  [getGitStatus] never throws and does not read the clock.  It
    gives an error, whose text is not empty, exactly when the path is
    confirmed not to be a repository or a call of [simple-git] throws.
    Otherwise its information is taken from the status and from the
    latest entry of the log: the repository is dirty when the status is
    not clean, the number of the uncommitted changes is the number of
    the files of the status, the branch is the current branch, or
    [HEAD] when there is none, and there is a last commit date exactly
    when the log has an entry with a date. *)
Theorem getGitStatus_info (h : Host) (projectPath : jsstring) :
  exists r,
    getStatusReturns h projectPath r
    /\ match r with
       | GitStatusError text =>
           text <> []
           /\ (notARepository h projectPath
               \/ exists e, introspectionThrows h projectPath e)
       | GitStatusResult g =>
           ~ notARepository h projectPath
           /\ (forall e, ~ introspectionThrows h projectPath e)
           /\ exists st latest,
               git_status h projectPath = Returned st
               /\ git_log_latest h projectPath = Returned latest
               /\ isDirty g = negb (isClean st)
               /\ uncommittedChanges g = files_length st
               /\ aheadBy g = ahead st /\ behindBy g = behind st
               /\ branch g <> []
               /\ (forall b, current st = Some b -> b <> [] -> branch g = b)
               /\ (current st = None \/ current st = Some [] -> branch g = lit "HEAD")
               /\ (lastCommitDate g <> None
                   <-> exists entry, latest = Some entry /\ date entry <> [])
               /\ lastCommitMessage g = message <$> latest
       end.
Proof.
  unfold getStatusReturns, getGitStatus, notARepository, introspectionThrows. run_eff.
  destruct (git_open h projectPath) as [[]|e1] eqn:E1; simpl.
  2:{ eexists. split; [reflexivity|]. split; [discriminate|]. right. exists e1.
      left. reflexivity. }
  destruct (git_checkIsRepo h projectPath) as [[|]|e2] eqn:E2; simpl.
  2:{ eexists. split; [reflexivity|]. split; [discriminate | left; split; reflexivity]. }
  2:{ eexists. split; [reflexivity|]. split; [discriminate|]. right. exists e2.
      right. split; [reflexivity|]. left. reflexivity. }
  destruct (git_status h projectPath) as [st|e3] eqn:E3; simpl.
  2:{ eexists. split; [reflexivity|]. split; [discriminate|]. right. exists e3.
      right. split; [reflexivity|]. right. split; [reflexivity|]. left. reflexivity. }
  destruct (git_log_latest h projectPath) as [latest|e4] eqn:E4; simpl.
  2:{ eexists. split; [reflexivity|]. split; [discriminate|]. right. exists e4.
      right. split; [reflexivity|]. right. split; [reflexivity|]. right. eauto. }
  eexists. split; [reflexivity|]. cbn [isDirty uncommittedChanges aheadBy behindBy branch
                                        lastCommitDate lastCommitMessage].
  split; [intros [_ H]; discriminate|].
  split.
  { intros e [H|[_ [H|[_ [H|(st' & _ & H)]]]]]; discriminate. }
  exists st, latest. repeat (split; [reflexivity|]).
  split; [destruct (current st) as [[|u b]|]; discriminate|].
  split; [intros b -> Hb; destruct b; [contradiction | reflexivity]|].
  split; [intros [->| ->]; reflexivity|].
  split; [|reflexivity].
  destruct latest as [entry|]; [destruct (date entry) as [|u d] eqn:Ed|]; simpl.
  - split; [intros H; contradiction | intros (en & [= <-] & H); congruence].
  - split; [intros _; exists entry; split; [reflexivity | congruence] | discriminate].
  - split; [intros H; contradiction | intros (en & H & _); discriminate].
Qed.

(** ** What the dashboard shows *)

(** X21.  When the directory of the projects can be listed, the page
    shows exactly its project directories: every record shown is made
    from an entry that is a directory, is not one of the ignored names,
    does not start with a dot and on which [stat] succeeds, and every
    such entry has a record on the page, with its name and its path. *)
Theorem dashboard_shows_directories (h : Host) (proc : Process) (c : Clock)
        (entries : list Dirent) :
  let root := ProjectScannerRest.getProjectsPath h proc in
  rootListed h root entries ->
  exists shown c',
    DashboardPage.getProjects h proc c
    = (Returned {| DashboardPage.page_projects := shown;
                   DashboardPage.page_error := None |}, c')
    /\ (forall p, p ∈ shown ->
                  exists dir, dir ∈ entries
                              /\ name p = dirent_name dir
                              /\ path p = path_join h root (dirent_name dir)
                              /\ dirent_isDirectory dir = true
                              /\ (dirent_name dir ∉ ignoredNames)
                              /\ head (dirent_name dir) <> Some 46%N
                              /\ statSucceeds h (path p) = true)
    /\ (forall dir, dir ∈ entries ->
                    dirent_isDirectory dir = true ->
                    dirent_name dir ∉ ignoredNames ->
                    head (dirent_name dir) <> Some 46%N ->
                    statSucceeds h (path_join h root (dirent_name dir)) = true ->
                    exists p, p ∈ shown
                              /\ name p = dirent_name dir
                              /\ path p = path_join h root (dirent_name dir)).
Proof.
  intros root Hlisted.
  destruct (scanDirectory_facts h root (default noOptions None) c)
    as (results & c1 & E1 & _ & H).
  destruct (enrich_facts h (filterSuccessfulScans results) c1)
    as (shown & c2 & E2 & _ & F).
  destruct H as [(text & _ & _ & Hnot)|(entries' & Hl' & HF)];
    [exfalso; eapply Hnot; exact Hlisted|].
  assert (entries' = entries) as ->.
  { destruct Hlisted as [_ Hr], Hl' as [_ Hr']. congruence. }
  cbn [default noOptions includeHidden from_option] in HF.
  exists shown, c2. split; [|split].
  - unfold DashboardPage.getProjects, ProjectScannerRest.scanProjects.
    apply try_catch_run. fold root.
    erewrite bind_run by exact E1. cbv beta zeta.
    erewrite bind_run by exact E2. reflexivity.
  - intros p Hp. apply list_elem_of_lookup in Hp as [i Hi].
    destruct (Forall2_lookup_r _ _ _ _ _ F Hi) as (p0 & Hi0 & c' & _ & _ & He).
    apply enrichedAt_same in He. destruct He as (_ & Hname & Hpath & _).
    assert (Hin0 : ProjectScanResult p0 ∈ results).
    { apply filterSuccessfulScans_elem. eapply list_elem_of_lookup_2. exact Hi0. }
    apply list_elem_of_lookup in Hin0 as [j Hj].
    destruct (Forall2_lookup_r _ _ _ _ _ HF Hj) as (dir & Hd & c'' & _ & _ & Hf).
    apply list_elem_of_lookup_2, list_elem_of_In, filter_In in Hd as [Hd Hk].
    apply keepEntry_iff in Hk as (Hdir & Hign & [Hh|Hh]); [discriminate|].
    unfold entryFacts in Hf.
    destruct Hf as (Hn & Hpth & _ & _ & _ & _ & _ & _ & _ & _ & stats & Hs & _).
    exists dir. split; [apply list_elem_of_In; exact Hd|].
    split; [congruence|]. split; [congruence|].
    split; [exact Hdir|]. split; [exact Hign|]. split; [exact Hh|].
    unfold statSucceeds. rewrite Hpath, Hs. reflexivity.
  - intros dir Hd Hdir Hign Hh Hstat.
    assert (Hk : dir ∈ List.filter (keepEntry false) entries).
    { apply list_elem_of_In, filter_In. split; [apply list_elem_of_In; exact Hd|].
      apply keepEntry_iff. auto. }
    apply list_elem_of_lookup in Hk as [j Hj].
    destruct (Forall2_lookup_l _ _ _ _ _ HF Hj) as (r & Hr & c'' & _ & _ & Hf).
    unfold entryFacts in Hf. destruct r as [p0|text pth].
    2:{ destruct Hf as (-> & _ & Hno). congruence. }
    destruct Hf as (Hn & Hpth & _).
    assert (Hin0 : p0 ∈ filterSuccessfulScans results).
    { apply filterSuccessfulScans_elem. eapply list_elem_of_lookup_2. exact Hr. }
    apply list_elem_of_lookup in Hin0 as [i Hi].
    destruct (Forall2_lookup_l _ _ _ _ _ F Hi) as (p & Hp & c' & _ & _ & He).
    apply enrichedAt_same in He. destruct He as (_ & Hname & Hpath & _).
    exists p. split; [eapply list_elem_of_lookup_2; exact Hp|].
    split; congruence.
Qed.

Lemma dashboard_shows_directories_witness :
  exists shown p,
    (DashboardPage.getProjects Examples.portfolio MoreExamples.server
                               (frozenAt Examples.NOW)).1
    = Returned {| DashboardPage.page_projects := shown;
                  DashboardPage.page_error := None |}
    /\ p ∈ shown /\ name p = lit "proj-b".
Proof.
  destruct (dashboard_shows_directories Examples.portfolio MoreExamples.server
              (frozenAt Examples.NOW) Examples.portfolioEntries portfolio_listed)
    as (shown & c' & E & _ & Hall).
  destruct (Hall {| dirent_name := lit "proj-b"; dirent_isDirectory := true |})
    as (p & Hin & Hname & _).
  - repeat constructor.
  - reflexivity.
  - vm_compute. intros H. repeat (apply elem_of_cons in H as [H|H]; [discriminate|]).
    apply elem_of_nil in H. exact H.
  - discriminate.
  - reflexivity.
  - exists shown, p. rewrite E. split; [reflexivity|]. split; assumption.
Defined.
